(** * gitlab-client: cache store, credential store and period aggregation

    A shallow embedding of the parts of the browser client that the
    specification talks about:

    - [src/js/utils/gitlab.js]   [GitLabAPI.formatDuration]
    - [src/js/utils/store.js]    the cache store over [localStorage]
    - [src/js/modules/auth.js]   [saveCredentials], [clearCredentials]
    - log-crud / events          [handleDeleteTimelog], the logout handler
    - [src/js/modules/app.js]    [getWeekKey], [groupTimeLogsByWeek] and the
                                 day grouping of [loadTimeLogs]

    and, around them, of the code that reads and writes the same storage
    and the same dates:

    - [src/js/utils/utils.js]    the favorites store, [formatDate]
    - [src/js/utils/gitlab.js]   [getToken], [getUsername], the token guard
    - [src/js/modules/auth.js]   [getStoredAuth]
    - log-crud / events          [showNewLogModal], [handleNewLogSubmit],
                                 the login form
    - [src/js/modules/app.js]    [checkAuth], [changePeriod], the caches of
                                 [loadProjects] and [loadTimeLogs], the
                                 favorites-first order, [createWeekContainer]
                                 and the grid of [populateTrackCalendar]

    Conventions.  JavaScript numbers that the code uses as integers are [Z].
    A [Date] is its time value: milliseconds since the epoch, a [Z].
    [localStorage] is a finite map from strings to strings. *)

From Stdlib Require Import ZArith Lia List Bool Ascii String Sorted Permutation.
From Stdlib Require Import DecimalString DecimalZ DecimalPos DecimalFacts.
From stdpp Require Import gmap strings list fin_maps.
From Equations Require Import Equations.
Import ListNotations.

#[local] Open Scope string_scope.
#[local] Open Scope list_scope.
#[local] Open Scope Z_scope.

(** ** Platform: number to string *)

(** [String(n)] and a template placeholder for an integer [n]: the decimal
    numeral, with a leading minus sign for negative numbers. *)
Definition numToString (n : Z) : string :=
  NilZero.string_of_int (Z.to_int n).

(** [Array.prototype.join(sep)] on an array of strings. *)
Fixpoint join (sep : string) (parts : list string) : string :=
  match parts with
  | [] => EmptyString
  | [p] => p
  | p :: rest => p +:+ sep +:+ join sep rest
  end.

(** ** [GitLabAPI.formatDuration] (src/js/utils/gitlab.js) *)

Module Duration.

(** [if (!seconds || seconds < 0) return "0m"]: [!seconds] holds for [0].
    On the non-negative numbers that reach the lines below, [%] is the
    truncating remainder and [Math.floor] of a quotient is [Z.div]. *)
Definition formatDuration (seconds : Z) : string :=
  if (seconds =? 0) || (seconds <? 0) then "0m"
  else
    let hours := seconds / 3600 in
    let minutes := Z.rem seconds 3600 / 60 in
    let parts : list string := [] in
    let parts := if 0 <? hours then (parts ++ [numToString hours +:+ "h"])%list else parts in
    let parts := if 0 <? minutes then (parts ++ [numToString minutes +:+ "m"])%list else parts in
    if (0 <? Z.of_nat (length parts)) then join " " parts else "0m".

(** What the function renders, as a function of the whole hours and of the
    whole minutes left over. *)
Definition render (h m : Z) : string :=
  match Z.ltb 0 h, Z.ltb 0 m with
  | true, true => (numToString h +:+ "h") +:+ " " +:+ (numToString m +:+ "m")
  | true, false => numToString h +:+ "h"
  | false, true => numToString m +:+ "m"
  | false, false => "0m"
  end.

End Duration.

(** ** Platform: JSON *)

Module JSON.

(** The JavaScript values that [JSON.stringify] and [JSON.parse] exchange. *)

#[local] Set Warnings "-register-all".

Inductive value : Type :=
| Null
| Bool (b : bool)
| Num (n : Z)
| Str (s : string)
| Arr (items : list value)
| Obj (members : list (string * value)).

Definition dquote : ascii := "034"%char.
Definition backslash : ascii := "092"%char.

(** [ToBoolean]: [null], [false], [0] and the empty string are falsy; every
    array and object is truthy. *)
Definition truthy (v : value) : bool :=
  match v with
  | Null => false
  | Bool b => b
  | Num n => negb (n =? 0)
  | Str s => negb (String.eqb s EmptyString)
  | Arr _ | Obj _ => true
  end.

(** [a || b] *)
Definition or_else (a b : value) : value := if truthy a then a else b.

Definition isArray (v : value) : bool :=
  match v with Arr _ => true | _ => false end.

(** Induction over values that reaches the values nested in arrays and
    objects. *)
Section ValueInd.
Variable P : value -> Prop.
Hypothesis HNull : P Null.
Hypothesis HBool : forall b, P (Bool b).
Hypothesis HNum : forall n, P (Num n).
Hypothesis HStr : forall s, P (Str s).
Hypothesis HArr : forall items, Forall P items -> P (Arr items).
Hypothesis HObj : forall members, Forall (fun kv => P (snd kv)) members -> P (Obj members).

Fixpoint value_nested_ind (v : value) : P v :=
    match v with
    | Null => HNull
    | Bool b => HBool b
    | Num n => HNum n
    | Str s => HStr s
    | Arr items =>
        HArr items
          ((fix go (l : list value) : Forall P l :=
              match l with
              | [] => @List.Forall_nil _ P
              | x :: r => @List.Forall_cons _ P x r (value_nested_ind x) (go r)
              end) items)
    | Obj members =>
        HObj members
          ((fix go (l : list (string * value)) : Forall (fun kv => P (snd kv)) l :=
              match l with
              | [] => @List.Forall_nil _ _
              | kv :: r => @List.Forall_cons _ _ kv r (value_nested_ind (snd kv)) (go r)
              end) members)
    end.
End ValueInd.

(** *** Serialisation: [JSON.stringify] *)

Definition hexDigit (n : N) : ascii :=
  ascii_of_N (if (n <? 10)%N then 48 + n else 87 + n).

Definition escapeChar (c : ascii) : string :=
  if Ascii.eqb c dquote then String backslash (String dquote EmptyString)
  else if Ascii.eqb c backslash then String backslash (String backslash EmptyString)
  else if Ascii.eqb c "008" then String backslash "b"
  else if Ascii.eqb c "009" then String backslash "t"
  else if Ascii.eqb c "010" then String backslash "n"
  else if Ascii.eqb c "012" then String backslash "f"
  else if Ascii.eqb c "013" then String backslash "r"
  else if (N_of_ascii c <? 32)%N then
    String backslash
      (String "u" (String "0" (String "0"
        (String (hexDigit (N_of_ascii c / 16)) (String (hexDigit (N_of_ascii c mod 16)) EmptyString)))))
  else String c EmptyString.

Fixpoint escape (s : string) : string :=
  match s with
  | EmptyString => EmptyString
  | String c rest => escapeChar c +:+ escape rest
  end.

Definition quote (s : string) : string :=
  String dquote (escape s +:+ String dquote EmptyString).

Fixpoint stringify (v : value) : string :=
  match v with
  | Null => "null"
  | Bool true => "true"
  | Bool false => "false"
  | Num n => numToString n
  | Str s => quote s
  | Arr items => "[" +:+ join "," (map stringify items) +:+ "]"
  | Obj members =>
      "{" +:+ join "," (map (fun kv => quote (fst kv) +:+ ":" +:+ stringify (snd kv)) members) +:+ "}"
  end.

(** *** Parsing: [JSON.parse]

    A recursive-descent reader of the JSON grammar.  Numbers are restricted to
    integer literals (the model has no floating point); [\u] escapes are
    restricted to code units below 256 (the characters of [string]). *)

Definition isWhitespace (c : ascii) : bool :=
  Ascii.eqb c " " || Ascii.eqb c "009" || Ascii.eqb c "010" || Ascii.eqb c "013".

Fixpoint skipWhitespace (s : string) : string :=
  match s with
  | String c rest => if isWhitespace c then skipWhitespace rest else s
  | EmptyString => s
  end.

Definition isDigit (c : ascii) : bool :=
  (48 <=? N_of_ascii c)%N && (N_of_ascii c <=? 57)%N.

Fixpoint spanDigits (s : string) : string * string :=
  match s with
  | String c rest =>
      if isDigit c then let (ds, r) := spanDigits rest in (String c ds, r)
      else (EmptyString, s)
  | EmptyString => (EmptyString, EmptyString)
  end.

Definition parseNumber (s : string) : option (Z * string) :=
  let (negative, body) :=
    match s with
    | String c rest => if Ascii.eqb c "-" then (true, rest) else (false, s)
    | EmptyString => (false, s)
    end in
  let (ds, rest) := spanDigits body in
  match NilZero.uint_of_string ds with
  | Some u =>
      let n := Z.of_uint u in
      if String.eqb (numToString n) ds
      then Some (if negative then - n else n, rest)
      else None
  | None => None
  end.

Definition hexValue (c : ascii) : option N :=
  let n := N_of_ascii c in
  if (48 <=? n)%N && (n <=? 57)%N then Some (n - 48)%N
  else if (97 <=? n)%N && (n <=? 102)%N then Some (n - 87)%N
  else if (65 <=? n)%N && (n <=? 70)%N then Some (n - 55)%N
  else None.

Definition unescape (c : ascii) : option ascii :=
  if Ascii.eqb c dquote then Some dquote
  else if Ascii.eqb c backslash then Some backslash
  else if Ascii.eqb c "/" then Some "/"%char
  else if Ascii.eqb c "b" then Some "008"%char
  else if Ascii.eqb c "t" then Some "009"%char
  else if Ascii.eqb c "n" then Some "010"%char
  else if Ascii.eqb c "f" then Some "012"%char
  else if Ascii.eqb c "r" then Some "013"%char
  else None.

Definition unicodeEscape (h1 h2 h3 h4 : ascii) : option ascii :=
  match hexValue h1, hexValue h2, hexValue h3, hexValue h4 with
  | Some a, Some b, Some c, Some d =>
      if (a =? 0)%N && (b =? 0)%N then Some (ascii_of_N (16 * c + d)) else None
  | _, _, _, _ => None
  end.

(** The characters of a string literal, after its opening quote, up to and
    including the closing quote. *)
Fixpoint parseChars (s : string) : option (string * string) :=
  match s with
  | EmptyString => None
  | String c rest =>
      if Ascii.eqb c dquote then Some (EmptyString, rest)
      else if Ascii.eqb c backslash then
        match rest with
        | String e rest1 =>
            if Ascii.eqb e "u" then
              match rest1 with
              | String h1 (String h2 (String h3 (String h4 rest2))) =>
                  match unicodeEscape h1 h2 h3 h4, parseChars rest2 with
                  | Some d, Some (str, r) => Some (String d str, r)
                  | _, _ => None
                  end
              | _ => None
              end
            else
              match unescape e, parseChars rest1 with
              | Some d, Some (str, r) => Some (String d str, r)
              | _, _ => None
              end
        | EmptyString => None
        end
      else if (N_of_ascii c <? 32)%N then None
      else
        match parseChars rest with
        | Some (str, r) => Some (String c str, r)
        | None => None
        end
  end.

Fixpoint stripPrefix (word s : string) : option string :=
  match word with
  | EmptyString => Some s
  | String a word' =>
      match s with
      | String b s' => if Ascii.eqb a b then stripPrefix word' s' else None
      | EmptyString => None
      end
  end.

Definition expect (word : string) (s : string) (v : value) : option (value * string) :=
  match stripPrefix word s with
  | Some rest => Some (v, rest)
  | None => None
  end.

Fixpoint parseValue (fuel : nat) (s : string) : option (value * string) :=
  match fuel with
  | O => None
  | S fuel' =>
      match skipWhitespace s with
      | EmptyString => None
      | String c rest =>
          if Ascii.eqb c "n" then expect "ull" rest Null
          else if Ascii.eqb c "t" then expect "rue" rest (Bool true)
          else if Ascii.eqb c "f" then expect "alse" rest (Bool false)
          else if Ascii.eqb c dquote then
            match parseChars rest with
            | Some (str, r) => Some (Str str, r)
            | None => None
            end
          else if Ascii.eqb c "[" then
            match skipWhitespace rest with
            | String c' r' =>
                if Ascii.eqb c' "]" then Some (Arr [], r')
                else
                  match parseElements fuel' rest with
                  | Some (items, r) => Some (Arr items, r)
                  | None => None
                  end
            | EmptyString => None
            end
          else if Ascii.eqb c "{" then
            match skipWhitespace rest with
            | String c' r' =>
                if Ascii.eqb c' "}" then Some (Obj [], r')
                else
                  match parseMembers fuel' rest with
                  | Some (members, r) => Some (Obj members, r)
                  | None => None
                  end
            | EmptyString => None
            end
          else
            match parseNumber (String c rest) with
            | Some (n, r) => Some (Num n, r)
            | None => None
            end
      end
  end
with parseElements (fuel : nat) (s : string) : option (list value * string) :=
  match fuel with
  | O => None
  | S fuel' =>
      match parseValue fuel' s with
      | Some (v, r) =>
          match skipWhitespace r with
          | String c r' =>
              if Ascii.eqb c "," then
                match parseElements fuel' r' with
                | Some (items, r'') => Some (v :: items, r'')
                | None => None
                end
              else if Ascii.eqb c "]" then Some ([v], r')
              else None
          | EmptyString => None
          end
      | None => None
      end
  end
with parseMembers (fuel : nat) (s : string) : option (list (string * value) * string) :=
  match fuel with
  | O => None
  | S fuel' =>
      match skipWhitespace s with
      | String q afterQuote =>
          if Ascii.eqb q dquote then
            match parseChars afterQuote with
            | Some (key, r0) =>
                match skipWhitespace r0 with
                | String colon r1 =>
                    if Ascii.eqb colon ":" then
                      match parseValue fuel' r1 with
                      | Some (v, r) =>
                          match skipWhitespace r with
                          | String c r' =>
                              if Ascii.eqb c "," then
                                match parseMembers fuel' r' with
                                | Some (members, r'') => Some ((key, v) :: members, r'')
                                | None => None
                                end
                              else if Ascii.eqb c "}" then Some ([(key, v)], r')
                              else None
                          | EmptyString => None
                          end
                      | None => None
                      end
                    else None
                | EmptyString => None
                end
            | None => None
            end
          else None
      | EmptyString => None
      end
  end.

(** [JSON.parse(text)]: the whole text must be one value, surrounded by
    optional white space; [None] stands for the [SyntaxError] it throws. *)
Definition parseText (s : string) : option value :=
  match parseValue (S (String.length s)) s with
  | Some (v, rest) =>
      match skipWhitespace rest with
      | EmptyString => Some v
      | String _ _ => None
      end
  | None => None
  end.

(** Number of nested values, the recursion depth budget that reading the
    serialisation of [v] needs. *)
Fixpoint size (v : value) : nat :=
  match v with
  | Arr items => S (list_sum (map (fun x => S (size x)) items))
  | Obj members => S (list_sum (map (fun kv => S (size (snd kv))) members))
  | _ => 1%nat
  end.

Definition sizeItems (items : list value) : nat :=
  list_sum (map (fun x => S (size x)) items).

Definition sizeMembers (members : list (string * value)) : nat :=
  list_sum (map (fun kv => S (size (snd kv))) members).

(** One [key:value] member of a serialised object. *)
Definition member (kv : string * value) : string :=
  quote (fst kv) +:+ ":" +:+ stringify (snd kv).

(** What may follow a number literal: anything but another digit. *)
Definition tailOk (rest : string) : Prop :=
  match rest with
  | EmptyString => True
  | String c _ => isDigit c = false
  end.

Fixpoint allDigits (s : string) : Prop :=
  match s with
  | EmptyString => True
  | String c r => isDigit c = true /\ allDigits r
  end.

End JSON.
(** ** Platform: exceptions and [localStorage] *)

Module Js.

Inductive error : Type :=
| SyntaxError.

(** The outcome of evaluating an expression: a value, or a thrown error. *)
Inductive completion (A : Type) : Type :=
| Normal (a : A)
| Throw (e : error).
Arguments Normal {A} a.
Arguments Throw {A} e.

Definition bind {A B : Type} (c : completion A) (k : A -> completion B) : completion B :=
  match c with
  | Normal a => k a
  | Throw e => Throw e
  end.

(** [try { body } catch (e) { handler }] *)
Definition tryCatch {A : Type} (body : completion A) (handler : error -> completion A)
  : completion A :=
  match body with
  | Normal a => Normal a
  | Throw e => handler e
  end.

(** [JSON.parse(v)] where [v] comes from [getItem]: the argument is converted
    with [ToString], which turns [null] into the text [null]. *)
Definition JSON_parse (v : option string) : completion JSON.value :=
  let text := match v with Some s => s | None => "null" end in
  match JSON.parseText text with
  | Some x => Normal x
  | None => Throw SyntaxError
  end.

End Js.

Notation "'let!' x ':=' c1 'in' c2" := (Js.bind c1 (fun x => c2))
  (at level 10, x name, c1 at level 100, c2 at level 200).

(** [localStorage]: a finite map from keys to string values.  [getItem]
    answers [null] ([None]) for an absent key; [Object.keys] lists the stored
    keys. *)
Module LocalStorage.

Definition getItem (k : string) (st : gmap string string) : option string := st !! k.

Definition setItem (k v : string) (st : gmap string string) : gmap string string :=
  <[k := v]> st.

Definition removeItem (k : string) (st : gmap string string) : gmap string string :=
  delete k st.

Definition keys (st : gmap string string) : list string := (map_to_list st).*1.

End LocalStorage.

(** ** The cache store (src/js/utils/store.js) *)

Module Store.
Import Js LocalStorage.

Definition PREFIX : string := "appStore:".

Definition keyFor (k : string) : string := PREFIX +:+ k.

Definition safeParse (v : option string) : completion JSON.value :=
  tryCatch (JSON_parse v) (fun _ => Normal JSON.Null).

(** [k && k.startsWith(PREFIX)]: the empty key is falsy. *)
Definition isCacheKey (k : string) : bool :=
  negb (String.eqb k EmptyString) && String.prefix PREFIX k.

Definition clearAll (st : gmap string string) : gmap string string :=
  fold_left (fun acc k => if isCacheKey k then removeItem k acc else acc) (keys st) st.

(** *** Projects *)

Definition storeProjects (projects : JSON.value) (st : gmap string string)
  : gmap string string :=
  setItem (keyFor "projects") (JSON.stringify (JSON.or_else projects (JSON.Arr []))) st.

Definition getProjects (st : gmap string string) : completion JSON.value :=
  tryCatch
    (let v := getItem (keyFor "projects") st in
     let! parsed := safeParse v in
     Normal (JSON.or_else parsed JSON.Null))
    (fun _ => Normal JSON.Null).

Definition clearProjects (st : gmap string string) : gmap string string :=
  removeItem (keyFor "projects") st.

(** *** Issues per project, keyed by the project's full path *)

Definition issuesKey (projectFullPath : string) : string :=
  keyFor ("issues:" +:+ projectFullPath).

Definition storeIssues (projectFullPath : string) (issues : JSON.value)
  (st : gmap string string) : gmap string string :=
  setItem (issuesKey projectFullPath) (JSON.stringify (JSON.or_else issues (JSON.Arr []))) st.

Definition getIssues (projectFullPath : string) (st : gmap string string)
  : completion JSON.value :=
  tryCatch
    (let v := getItem (issuesKey projectFullPath) st in
     let! parsed := safeParse v in
     Normal (JSON.or_else parsed JSON.Null))
    (fun _ => Normal JSON.Null).

Definition clearIssues (projectFullPath : string) (st : gmap string string)
  : gmap string string :=
  removeItem (issuesKey projectFullPath) st.

(** *** Time logs per period (YYYY-MM) *)

Definition timelogsKey (period : string) : string :=
  keyFor ("timelogs:" +:+ period).

Definition storeTimeLogs (period : string) (timelogs : JSON.value)
  (st : gmap string string) : gmap string string :=
  setItem (timelogsKey period) (JSON.stringify (JSON.or_else timelogs (JSON.Arr []))) st.

Definition getTimeLogs (period : string) (st : gmap string string)
  : completion JSON.value :=
  tryCatch
    (let v := getItem (timelogsKey period) st in
     let! parsed := safeParse v in
     Normal (JSON.or_else parsed JSON.Null))
    (fun _ => Normal JSON.Null).

Definition clearTimeLogs (period : string) (st : gmap string string)
  : gmap string string :=
  removeItem (timelogsKey period) st.

End Store.

(** ** The credential store (src/js/modules/auth.js) *)

Module Auth.
Import Js LocalStorage.

Definition AUTH_STORAGE_KEY : string := "userAuth".

(** The record that [saveCredentials] serialises; [timestamp] is
    [new Date().toISOString()]. *)
Definition authRecord (username token repository timestamp : string) : JSON.value :=
  JSON.Obj [("username", JSON.Str username);
            ("token", JSON.Str token);
            ("repository", JSON.Str repository);
            ("timestamp", JSON.Str timestamp)].

Definition saveCredentials (username token repository timestamp : string)
  (st : gmap string string) : gmap string string :=
  let auth := authRecord username token repository timestamp in
  let st := setItem AUTH_STORAGE_KEY (JSON.stringify auth) st in
  (* Clear cached store on new credentials *)
  Store.clearAll st.

Definition clearCredentials (st : gmap string string) : gmap string string :=
  removeItem AUTH_STORAGE_KEY st.

(** The click handler of the logout button (events.js): of its statements only
    [clearCredentials()] touches [localStorage]; the others change the
    page. *)
Definition logout (st : gmap string string) : gmap string string :=
  clearCredentials st.

End Auth.

(** ** The favorites store (favorites.js) *)

Module Favorites.
Import Js LocalStorage.

Definition FAVORITES_KEY : string := "appFavorites".

Definition saveFavorites (favorites : JSON.value) (st : gmap string string)
  : gmap string string :=
  setItem FAVORITES_KEY (JSON.stringify favorites) st.

End Favorites.
(** ** Platform: [Date]

    A [Date] is its time value, the milliseconds since 1970-01-01T00:00Z.
    Local time is UTC shifted by a fixed offset [tz] (milliseconds, positive
    east of Greenwich); daylight-saving changes, the limits of the time value
    and the Invalid Date are outside the model. *)

Module Time.

Definition msPerDay : Z := 86400000.

(** *** The proleptic Gregorian calendar

    Days are counted from 1970-01-01, years of 365 or 366 days in eras of 400
    years (146097 days) that start on 1 March, so that the leap day comes
    last. *)

Definition yearOfEra (doe : Z) : Z :=
  (doe - doe / 1460 + doe / 36524 - doe / 146096) / 365.

Definition yearStart (yoe : Z) : Z := 365 * yoe + yoe / 4 - yoe / 100.

Definition monthOfYear (doy : Z) : Z := (5 * doy + 2) / 153.

Definition monthStart (mp : Z) : Z := (153 * mp + 2) / 5.

(** Day number of the date [y]-[m]-[d], [m] from 1 to 12. *)
Definition daysFromCivil (y m d : Z) : Z :=
  let y' := if m <=? 2 then y - 1 else y in
  let era := y' / 400 in
  let yoe := y' - era * 400 in
  let mp := if 2 <? m then m - 3 else m + 9 in
  let doy := monthStart mp + d - 1 in
  let doe := yearStart yoe + doy in
  era * 146097 + doe - 719468.

(** Year, month (1 to 12) and day of the month of a day number. *)
Definition civilFromDays (z : Z) : Z * Z * Z :=
  let z' := z + 719468 in
  let era := z' / 146097 in
  let doe := z' - era * 146097 in
  let yoe := yearOfEra doe in
  let doy := doe - yearStart yoe in
  let mp := monthOfYear doy in
  let d := doy - monthStart mp + 1 in
  let m := if mp <? 10 then mp + 3 else mp - 9 in
  let y := yoe + era * 400 in
  (if m <=? 2 then y + 1 else y, m, d).

(** *** Texts *)

(** [String.prototype.padStart(n, fill)] *)
Fixpoint repeatChar (n : nat) (fill : ascii) : string :=
  match n with
  | O => EmptyString
  | S k => String fill (repeatChar k fill)
  end.

Definition padStart (n : nat) (fill : ascii) (s : string) : string :=
  repeatChar (n - String.length s) fill +:+ s.

(** The year of an ISO date: four digits from 0 to 9999, else a sign and six
    digits. *)
Definition isoYear (y : Z) : string :=
  if (0 <=? y) && (y <=? 9999) then padStart 4 "0" (numToString y)
  else if y <? 0 then String "-" (padStart 6 "0" (numToString (- y)))
  else String "+" (padStart 6 "0" (numToString y)).

(** The text YYYY-MM-DD of a day number. *)
Definition isoDateText (day : Z) : string :=
  let '(y, m, d) := civilFromDays day in
  isoYear y +:+ "-" +:+ padStart 2 "0" (numToString m) +:+ "-" +:+
  padStart 2 "0" (numToString d).

(** [toISOString().split("T")[0]]: the text of the UTC calendar day. *)
Definition toISODate (t : Z) : string := isoDateText (t / msPerDay).

(** The value of a run of decimal digits. *)
Definition digitsValue (s : string) : option Z :=
  match s with
  | EmptyString => None
  | _ => option_map Z.of_uint (NilEmpty.uint_of_string s)
  end.

(** [new Date(text)] for the date-only ISO form YYYY-MM-DD, which is read as
    UTC midnight; [None] is the Invalid Date that other texts give. *)
Definition parseDateOnly (text : string) : option Z :=
  match text with
  | String c0 (String c1 (String c2 (String c3 (String c4
      (String c5 (String c6 (String c7 (String c8 (String c9 EmptyString))))))))) =>
      if Ascii.eqb c4 "-" && Ascii.eqb c7 "-" then
        match digitsValue (String c0 (String c1 (String c2 (String c3 EmptyString)))),
              digitsValue (String c5 (String c6 EmptyString)),
              digitsValue (String c8 (String c9 EmptyString)) with
        | Some y, Some m, Some d =>
            if (1 <=? m) && (m <=? 12) && (1 <=? d) && (d <=? 31)
            then Some (daysFromCivil y m d * msPerDay)
            else None
        | _, _, _ => None
        end
      else None
  | _ => None
  end.

(** *** Local time *)

Section Zone.

Variable tz : Z.

Definition localDay (t : Z) : Z := (t + tz) / msPerDay.

(** The milliseconds since local midnight. *)
Definition timeInDay (t : Z) : Z := (t + tz) mod msPerDay.

Definition getFullYear (t : Z) : Z :=
  let '(y, _, _) := civilFromDays (localDay t) in y.

(** January is month 0. *)
Definition getMonth (t : Z) : Z :=
  let '(_, m, _) := civilFromDays (localDay t) in m - 1.

Definition getDate (t : Z) : Z :=
  let '(_, _, d) := civilFromDays (localDay t) in d.

(** Sunday is day 0; 1970-01-01 was a Thursday. *)
Definition getDay (t : Z) : Z := (localDay t + 4) mod 7.

(** [MakeDay(year, month, date)]: a month outside 0..11 carries into the
    year, and the date counts on from the first of the month, so that date 0
    is the day before it. *)
Definition makeDay (year month date : Z) : Z :=
  let ym := year + month / 12 in
  let mn := month mod 12 in
  daysFromCivil ym (mn + 1) 1 + date - 1.

(** [new Date(year, month, date)]: local midnight.  Years 0 to 99 mean 1900
    to 1999. *)
Definition makeDate (year month date : Z) : Z :=
  let yr := if (0 <=? year) && (year <=? 99) then 1900 + year else year in
  makeDay yr month date * msPerDay - tz.

(** [d.setHours(0, 0, 0, 0)] *)
Definition setHoursZero (t : Z) : Z := localDay t * msPerDay - tz.

(** [d.setDate(date)]: the day [date] of the month of [d], counted on from
    the first, at the same local time of day. *)
Definition setDate (t date : Z) : Z :=
  makeDay (getFullYear t) (getMonth t) date * msPerDay + timeInDay t - tz.

(** The text [`${yyyy}-${mm}-${dd}`] of the local calendar day, month and day
    padded to two digits. *)
Definition localDateString (t : Z) : string :=
  numToString (getFullYear t) +:+ "-" +:+
  padStart 2 "0" (numToString (getMonth t + 1)) +:+ "-" +:+
  padStart 2 "0" (numToString (getDate t)).

(** The cache period [`${d.getFullYear()}-${String(d.getMonth() + 1).padStart(2, "0")}`];
    an Invalid Date renders as NaN in both places. *)
Definition periodKey (d : option Z) : string :=
  match d with
  | Some t => numToString (getFullYear t) +:+ "-" +:+ padStart 2 "0" (numToString (getMonth t + 1))
  | None => "NaN-NaN"
  end.

End Zone.

End Time.

(** *** The calendar is consistent

    Every day number is the day number of its own date, so that
    [setDate(getDate() + k)] moves a date by [k] days. *)

Module Calendar.
Import Time.

Lemma yearOfEra_range (doe : Z) :
  0 <= doe < 146097 ->
  0 <= yearOfEra doe <= 399 /\ 0 <= doe - yearStart (yearOfEra doe) <= 365.
Proof.
  intros H. unfold yearOfEra, yearStart.
  Z.to_euclidean_division_equations. lia.
Qed.

Lemma monthOfYear_range (doy : Z) :
  0 <= doy <= 365 ->
  0 <= monthOfYear doy <= 11 /\ 0 <= doy - monthStart (monthOfYear doy) <= 30.
Proof.
  intros H. unfold monthOfYear, monthStart.
  Z.to_euclidean_division_equations. lia.
Qed.

Lemma dayOfEra_range (z : Z) :
  0 <= z + 719468 - (z + 719468) / 146097 * 146097 < 146097.
Proof. Z.to_euclidean_division_equations. lia. Qed.

(** Months run from 1 to 12 and days of the month from 1 to 31. *)
Lemma civilFromDays_range (z : Z) :
  1 <= snd (fst (civilFromDays z)) <= 12 /\ 1 <= snd (civilFromDays z) <= 31.
Proof.
  unfold civilFromDays. cbv zeta. cbn [fst snd].
  pose proof (dayOfEra_range z) as Hdoe.
  set (doe := z + 719468 - (z + 719468) / 146097 * 146097) in *.
  destruct (yearOfEra_range doe Hdoe) as [Hy Hd].
  destruct (monthOfYear_range _ Hd) as [Hm Hdd].
  destruct (Z.ltb_spec (monthOfYear (doe - yearStart (yearOfEra doe))) 10); lia.
Qed.

Lemma daysFromCivil_civilFromDays (z : Z) :
  let '(y, m, d) := civilFromDays z in daysFromCivil y m d = z.
Proof.
  unfold civilFromDays. cbv zeta.
  pose proof (dayOfEra_range z) as Hdoe.
  set (era := (z + 719468) / 146097) in *.
  set (doe := z + 719468 - era * 146097) in *.
  destruct (yearOfEra_range doe Hdoe) as [Hy Hd].
  destruct (monthOfYear_range _ Hd) as [Hm Hdd].
  set (yoe := yearOfEra doe) in *. set (doy := doe - yearStart yoe) in *.
  set (mp := monthOfYear doy) in *.
  unfold daysFromCivil.
  assert (Hera : forall k, (yoe + era * 400 + k - k) / 400 = era).
  { intros k. replace (yoe + era * 400 + k - k) with (yoe + era * 400) by lia.
    rewrite Z.div_add by lia. rewrite Z.div_small by lia. lia. }
  destruct (Z.ltb_spec mp 10).
  - destruct (Z.leb_spec (mp + 3) 2); [lia|].
    destruct (Z.ltb_spec 2 (mp + 3)); [|lia].
    specialize (Hera 0). rewrite Z.add_0_r, Z.sub_0_r in Hera. rewrite Hera.
    replace (mp + 3 - 3) with mp by lia.
    replace (yoe + era * 400 - era * 400) with yoe by lia. subst doy doe. lia.
  - destruct (Z.leb_spec (mp - 9) 2); [|lia].
    destruct (Z.ltb_spec 2 (mp - 9)); [lia|].
    rewrite (Hera 1). replace (mp - 9 + 9) with mp by lia.
    replace (yoe + era * 400 + 1 - 1 - era * 400) with yoe by lia. subst doy doe. lia.
Qed.

Lemma civilFromDays_inj (a b : Z) : civilFromDays a = civilFromDays b -> a = b.
Proof.
  intros E. pose proof (daysFromCivil_civilFromDays a) as Ha.
  pose proof (daysFromCivil_civilFromDays b) as Hb. rewrite E in Ha.
  destruct (civilFromDays b) as [[y m] d]. congruence.
Qed.

(** The day of the month counts on from the first of the month. *)
Lemma daysFromCivil_day (y m d d' : Z) :
  daysFromCivil y m d' = daysFromCivil y m d + (d' - d).
Proof. unfold daysFromCivil. lia. Qed.

Section Zone.

Variable tz : Z.

Lemma makeDay_getDate (t date : Z) :
  makeDay (getFullYear tz t) (getMonth tz t) date = localDay tz t + (date - getDate tz t).
Proof.
  unfold makeDay, getFullYear, getMonth, getDate.
  pose proof (civilFromDays_range (localDay tz t)) as [Hm _].
  pose proof (daysFromCivil_civilFromDays (localDay tz t)) as Hround.
  destruct (civilFromDays (localDay tz t)) as [[y m] d]. cbn [fst snd] in Hm.
  replace ((m - 1) / 12) with 0 by (Z.to_euclidean_division_equations; lia).
  replace ((m - 1) mod 12 + 1) with m by (Z.to_euclidean_division_equations; lia).
  rewrite Z.add_0_r, (daysFromCivil_day y m d 1). lia.
Qed.

(** [d.setDate(d.getDate() + k)] is [k] days later. *)
Lemma setDate_getDate (t k : Z) :
  setDate tz t (getDate tz t + k) = t + k * msPerDay.
Proof.
  unfold setDate. rewrite makeDay_getDate. unfold localDay, timeInDay, msPerDay.
  Z.to_euclidean_division_equations. lia.
Qed.

End Zone.

End Calendar.

(** ** Objects used as insertion-ordered maps, and [Array.prototype.sort] *)

Module Obj.

Section Obj.

Context {V : Type}.

(** [o[k]] *)
Fixpoint get (o : list (string * V)) (k : string) : option V :=
  match o with
  | [] => None
  | (k', v) :: rest => if String.eqb k' k then Some v else get rest k
  end.

(** [o[k] = v]: an existing property keeps its place, a new one goes last. *)
Fixpoint set (o : list (string * V)) (k : string) (v : V) : list (string * V) :=
  match o with
  | [] => [(k, v)]
  | (k', v') :: rest =>
      if String.eqb k' k then (k, v) :: rest else (k', v') :: set rest k v
  end.

(** [Object.values(o)] *)
Definition values (o : list (string * V)) : list V := map snd o.

Definition keys (o : list (string * V)) : list string := map fst o.

End Obj.

End Obj.

Module Arr.

Section Sort.

Context {A : Type}.

Variable compareFn : A -> A -> Z.

(** [insert x l] puts [x] in front of the first element that must not
    precede it. *)
Fixpoint insert (x : A) (l : list A) : list A :=
  match l with
  | [] => [x]
  | y :: rest => if compareFn x y <=? 0 then x :: l else y :: insert x rest
  end.

(** [array.sort(compareFn)]: a stable sort. *)
Definition sort (l : list A) : list A := fold_right insert [] l.

End Sort.

End Arr.

(** ** The period aggregator (src/js/modules/app.js) *)

Module App.
Import Time.

(** A time entry, with the fields that the aggregation reads: [spentAt] is the
    time value of [new Date(log.spentAt)]. *)
Record timelog : Type := {
  id : string;
  timeSpent : Z;
  spentAt : Z
}.

Record weekGroup : Type := {
  weekStart : Z;
  logs : list timelog;
  totalSeconds : Z
}.

Record dayGroup : Type := {
  date : Z;
  dayLogs : list timelog;
  dayTotalSeconds : Z
}.

#[global] Instance timelog_eq_dec : EqDecision timelog.
Proof. solve_decision. Defined.

(** The number of further turns that the week loop can take. *)
Definition weeksLeft (bound currentWeekStart : Z) : nat :=
  Z.to_nat ((bound - currentWeekStart) / (7 * msPerDay) + 1).

Section WeekLoop.

(** The step of the loop, [currentWeekStart.setDate(currentWeekStart.getDate() + 7)],
    of which termination needs no more than that it adds seven days. *)
Variable nextWeek : Z -> Z.

Hypothesis nextWeek_days : forall c, nextWeek c = c + 7 * msPerDay.

(** [while (currentWeekStart <= lastDayOfMonth && currentWeekStart <= now)] *)
Equations? seedWeeksBy (lastDayOfMonth now : Z) (currentWeekStart : Z)
  (weeks : list (string * weekGroup)) : list (string * weekGroup)
  by wf (weeksLeft (Z.min lastDayOfMonth now) currentWeekStart) lt :=
seedWeeksBy lastDayOfMonth now currentWeekStart weeks
  with decide (currentWeekStart <= lastDayOfMonth /\ currentWeekStart <= now) => {
  | left _ =>
      let weekKey := toISODate currentWeekStart in
      let weeks := Obj.set weeks weekKey
        {| weekStart := currentWeekStart; logs := []; totalSeconds := 0 |} in
      seedWeeksBy lastDayOfMonth now (nextWeek currentWeekStart) weeks;
  | right _ => weeks }.
Proof.
  rewrite nextWeek_days. unfold weeksLeft, msPerDay.
  Z.to_euclidean_division_equations. lia.
Qed.

End WeekLoop.

Section Zone.

Variable tz : Z.

Definition getWeekKey (date : Z) : string :=
  (* Get the start of the week (Monday) *)
  let d := setHoursZero tz date in
  let day := getDay tz d in
  (* Days to go back: Sunday = 6, Monday = 0, Tuesday = 1, ..., Saturday = 5 *)
  let daysToSubtract := if day =? 0 then 6 else day - 1 in
  let monday := setDate tz d (getDate tz d - daysToSubtract) in
  toISODate monday.

(** The week loop of [groupTimeLogsByWeek]. *)
Definition seedWeeks (lastDayOfMonth now currentWeekStart : Z)
  (weeks : list (string * weekGroup)) : list (string * weekGroup) :=
  seedWeeksBy (fun c => setDate tz c (getDate tz c + 7))
    (fun c => Calendar.setDate_getDate tz c 7)
    lastDayOfMonth now currentWeekStart weeks.

(** The callback of [timeLogs.forEach], on the pair of [weeks] and [total]. *)
Definition addLog (acc : list (string * weekGroup) * Z) (log : timelog)
  : list (string * weekGroup) * Z :=
  let '(weeks, total) := acc in
  let weekKey := getWeekKey (spentAt log) in
  match Obj.get weeks weekKey with
  | None =>
      (* Don't create new weeks - skip logs that don't belong to the selected month weeks *)
      acc
  | Some w =>
      (Obj.set weeks weekKey
         {| weekStart := weekStart w;
            logs := logs w ++ [log];
            totalSeconds := totalSeconds w + timeSpent log |},
       total + 1)
  end.

Definition firstDayOfMonth (ref : Z) : Z :=
  makeDate tz (getFullYear tz ref) (getMonth tz ref) 1.

Definition lastDayOfMonth (ref : Z) : Z :=
  makeDate tz (getFullYear tz ref) (getMonth tz ref + 1) 0.

(** The Monday from which the weeks are generated. *)
Definition firstWeekStart (ref : Z) : Z :=
  let currentWeekStart := firstDayOfMonth ref in
  (* Adjust to Monday *)
  let dayOfWeek := getDay tz currentWeekStart in
  let daysToSubtract := if dayOfWeek =? 0 then 6 else dayOfWeek - 1 in
  setDate tz currentWeekStart (getDate tz currentWeekStart - daysToSubtract).

(** The pre-seeded [weeks] object, before any entry is assigned. *)
Definition seededWeeks (ref clock : Z) : list (string * weekGroup) :=
  let now := setHoursZero tz clock in
  seedWeeks (lastDayOfMonth ref) now (firstWeekStart ref) [].

(** [groupTimeLogsByWeek(timeLogs, periodDate)]: [ref] is the date of the
    period, [clock] the time value of [new Date()].  The result pairs the
    count written to the page ([total]) with the returned array. *)
Definition groupTimeLogsByWeek (timeLogs : list timelog) (ref clock : Z)
  : Z * list weekGroup :=
  let weeks := seededWeeks ref clock in
  let '(weeks, total) := fold_left addLog timeLogs (weeks, 0) in
  (* Convert to array and sort by week (most recent first) *)
  (total, Arr.sort (fun a b => weekStart b - weekStart a) (Obj.values weeks)).

(** The callback of [weekGroup.logs.forEach] in [loadTimeLogs]. *)
Definition addToDay (logsByDay : list (string * dayGroup)) (log : timelog)
  : list (string * dayGroup) :=
  let dayKey := toISODate (spentAt log) in
  let logsByDay :=
    match Obj.get logsByDay dayKey with
    | None => Obj.set logsByDay dayKey
                {| date := spentAt log; dayLogs := []; dayTotalSeconds := 0 |}
    | Some _ => logsByDay
    end in
  match Obj.get logsByDay dayKey with
  | Some d =>
      Obj.set logsByDay dayKey
        {| date := date d;
           dayLogs := dayLogs d ++ [log];
           dayTotalSeconds := dayTotalSeconds d + timeSpent log |}
  | None => logsByDay
  end.

(** The days of one week, as [loadTimeLogs] hands them to
    [createWeekContainer]. *)
Definition sortedDays (week : weekGroup) : list dayGroup :=
  let logsByDay := fold_left addToDay (logs week) [] in
  Arr.sort (fun a b => date a - date b) (Obj.values logsByDay).

(** The week containers that [loadTimeLogs] renders: each week with its
    days. *)
Definition loadTimeLogs (nodes : list timelog) (currentPeriod clock : Z)
  : list (weekGroup * list dayGroup) :=
  match nodes with
  | [] => []
  | _ =>
      let groupedLogs := snd (groupTimeLogsByWeek nodes currentPeriod clock) in
      map (fun weekGroup => (weekGroup, sortedDays weekGroup)) groupedLogs
  end.

(** The storage after [loadTimeLogs(undefined, true)], which the listeners of
    [timeLogAdded] and [timeLogDeleted] run: the month of [currentPeriod] is
    fetched and cached again.  [response] is the [nodes] of the answer,
    [None] when the request fails and the catch block shows the error. *)
Definition reloadTimeLogs (currentPeriod : Z) (response : option JSON.value)
  (st : gmap string string) : gmap string string :=
  let currentPeriod := firstDayOfMonth currentPeriod in
  let periodKey := periodKey tz (Some currentPeriod) in
  match response with
  | Some nodes =>
      let nodes := JSON.or_else nodes (JSON.Arr []) in
      (* Cache them *)
      Store.storeTimeLogs periodKey nodes st
  | None => st
  end.

End Zone.

End App.
(** ** The time-log modal (log-crud.js) *)

Module LogCrud.
Import Time.

(** The state that the delete flow reads and writes: the value of the
    [#newLogDate] input ([None] when the page has no such element),
    [_currentTimelogId], and [localStorage]. *)
Record state : Type := {
  newLogDate : option string;
  currentTimelogId : option string;
  storage : gmap string string
}.

(** A string is falsy when it is empty, [null] is falsy. *)
Definition truthyText (v : option string) : bool :=
  match v with
  | Some s => negb (String.eqb s EmptyString)
  | None => false
  end.

Section Zone.

Variable tz : Z.

(** [openDeleteTimelogModal(log)]: remembers the entry and shows its local
    date in the date input. *)
Definition openDeleteTimelogModal (log : App.timelog) (s : state) : state :=
  {| newLogDate :=
       match newLogDate s with
       | Some _ => Some (localDateString tz (App.spentAt log))
       | None => None
       end;
     currentTimelogId := Some (App.id log);
     storage := storage s |}.

(** [_resetModalState()]: [if (dateInput) dateInput.value = ""] and
    [_currentTimelogId = null]. *)
Definition _resetModalState (s : state) : state :=
  {| newLogDate :=
       match newLogDate s with
       | Some _ => Some EmptyString
       | None => None
       end;
     currentTimelogId := None;
     storage := storage s |}.

Definition hideNewLogModal (s : state) : state := _resetModalState s.

(** The guarded statement shared by both flows: clear the period cache of the
    date text [value], when there is one. *)
Definition clearPeriodOf (value : option string) (st : gmap string string)
  : gmap string string :=
  match value with
  | Some text =>
      if truthyText value
      then
        let d := parseDateOnly text in
        let periodKey := periodKey tz d in
        Store.clearTimeLogs periodKey st
      else st
  | None => st
  end.

(** [handleDeleteTimelog(e)]; [deleted] tells whether
    [gitlabAPI.deleteTimeLog] succeeded. *)
Definition handleDeleteTimelog (deleted : bool) (s : state) : state :=
  if negb (truthyText (currentTimelogId s)) then s
  else if deleted then
    (* Close modal and notify app to refresh *)
    let s := hideNewLogModal s in
    (* Clear timelogs cache for the period shown in the modal (if possible) *)
    let dateInput := newLogDate s in
    let st := clearPeriodOf dateInput (storage s) in
    {| newLogDate := newLogDate s; currentTimelogId := None; storage := st |}
  else
    {| newLogDate := newLogDate s; currentTimelogId := None; storage := storage s |}.

(** [handleNewLogSubmit(e)] with the form filled in: the date is read from
    the input before the modal is hidden; [added] tells whether the remote
    call succeeded. *)
Definition handleNewLogSubmit (added : bool) (s : state) : state :=
  let date := newLogDate s in
  if added then
    let s := hideNewLogModal s in
    let st := clearPeriodOf date (storage s) in
    {| newLogDate := newLogDate s; currentTimelogId := currentTimelogId s; storage := st |}
  else s.

End Zone.

End LogCrud.
(** ** Vocabulary of the statements *)

Module Spec.
Import Time.

(** The value that a cache getter answers for the text stored under [key]:
    [null] for an absent key, for a text that is not JSON, and for a falsy
    value. *)
Definition cached (key : string) (st : gmap string string) : JSON.value :=
  match st !! key with
  | None => JSON.Null
  | Some text =>
      match JSON.parseText text with
      | None => JSON.Null
      | Some v => JSON.or_else v JSON.Null
      end
  end.

(** Under [key] the storage holds nothing, or a text that [JSON.parse]
    rejects. *)
Definition unreadable (key : string) (st : gmap string string) : Prop :=
  st !! key = None \/ exists text, st !! key = Some text /\ JSON.parseText text = None.

End Spec.

(** ** Vocabulary of the statements about weeks *)

Module WeekSpec.
Import Time App.

(** The instant [k] days after [t]. *)
Definition addDays (t k : Z) : Z := t + k * msPerDay.

(** The number of the UTC day of [t]. *)
Definition utcDay (t : Z) : Z := t / msPerDay.

Section Zone.

Variable tz : Z.

(** [t] is a local midnight. *)
Definition midnight (t : Z) : Prop := (t + tz) mod msPerDay = 0.

(** The local midnight that starts the Monday-to-Sunday week of [t]: the
    local day of [t], less the days since Monday ([(day + 3) mod 7], as day 0
    was a Thursday). *)
Definition mondayOf (t : Z) : Z :=
  (localDay tz t - (localDay tz t + 3) mod 7) * msPerDay - tz.

(** [w] is Monday-aligned: the local midnight that starts a Monday. *)
Definition mondayAligned (w : Z) : Prop := midnight w /\ getDay tz w = 1.

(** The Mondays [c], [c + 7 days], ... of [n] consecutive weeks. *)
Fixpoint weeksFrom (n : nat) (c : Z) : list Z :=
  match n with
  | O => []
  | S k => c :: weeksFrom k (addDays c 7)
  end.

(** The week starts that the loop of [groupTimeLogsByWeek] generates from
    [c] up to [bound]. *)
Definition weekStartsUpTo (bound c : Z) : list Z :=
  weeksFrom (if c <=? bound then weeksLeft bound c else O) c.

Definition emptyWeek (w : Z) : string * weekGroup :=
  (toISODate w, {| weekStart := w; logs := []; totalSeconds := 0 |}).

(** One entry offered to one week bucket: it is appended when its week key
    is the key of the bucket. *)
Definition offer (key : string) (w : weekGroup) (log : timelog) : weekGroup :=
  if String.eqb (getWeekKey tz (spentAt log)) key
  then {| weekStart := weekStart w;
          logs := logs w ++ [log];
          totalSeconds := totalSeconds w + timeSpent log |}
  else w.

Definition fill (timeLogs : list timelog) (kw : string * weekGroup) : string * weekGroup :=
  (fst kw, fold_left (offer (fst kw)) timeLogs (snd kw)).

(** The entries of [timeLogs] that belong to the week with key [key], their
    seconds, and the bucket of the week that starts at [w]. *)
Definition logsOfWeek (key : string) (timeLogs : list timelog) : list timelog :=
  List.filter (fun log => String.eqb (getWeekKey tz (spentAt log)) key) timeLogs.

Definition secondsOf (timeLogs : list timelog) : Z :=
  fold_right Z.add 0 (map timeSpent timeLogs).

Definition bucketOf (timeLogs : list timelog) (w : Z) : weekGroup :=
  {| weekStart := w;
     logs := logsOfWeek (toISODate w) timeLogs;
     totalSeconds := secondsOf (logsOfWeek (toISODate w) timeLogs) |}.

(** The week starts that [groupTimeLogsByWeek] generates for the period of
    [ref] when the clock shows [clock], oldest first. *)
Definition generatedWeeks (ref clock : Z) : list Z :=
  weekStartsUpTo (Z.min (lastDayOfMonth tz ref) (setHoursZero tz clock))
    (firstWeekStart tz ref).

(** The entries of [timeLogs] whose week has a bucket in [weeks]. *)
Definition kept (weeks : list (string * weekGroup)) (timeLogs : list timelog)
  : list timelog :=
  List.filter (fun log => bool_decide (getWeekKey tz (spentAt log) ∈ Obj.keys weeks))
    timeLogs.

(** The week that starts at [w] shares a day with the days from the first
    day of the period to the earlier of its last day and today. *)
Definition intersectsPeriod (ref clock w : Z) : Prop :=
  exists t,
    w <= t <= addDays w 6 /\
    firstDayOfMonth tz ref <= t <= Z.min (lastDayOfMonth tz ref) (setHoursZero tz clock).

End Zone.

(** The entries of one UTC calendar day. *)
Definition logsOfDay (key : string) (timeLogs : list timelog) : list timelog :=
  List.filter (fun log => String.eqb (toISODate (spentAt log)) key) timeLogs.

(** The day group after [log] has been pushed onto [previous]. *)
Definition pushDay (previous : option dayGroup) (log : timelog) : dayGroup :=
  match previous with
  | Some d =>
      {| date := date d;
         dayLogs := dayLogs d ++ [log];
         dayTotalSeconds := dayTotalSeconds d + timeSpent log |}
  | None =>
      {| date := spentAt log;
         dayLogs := [] ++ [log];
         dayTotalSeconds := 0 + timeSpent log |}
  end.

(** The [logsByDay] object of a list of entries. *)
Definition daysOf (timeLogs : list timelog) : list (string * dayGroup) :=
  fold_left addToDay timeLogs [].

End WeekSpec.

(** ** Sample data *)

Module Sample.
Import Time App.

(** The time value of [y]-[m]-[d] at [h] hours UTC. *)
Definition utc (y m d h : Z) : Z := daysFromCivil y m d * msPerDay + h * 3600000.

Definition morning : timelog :=
  {| id := "gid://gitlab/Timelog/1"; timeSpent := 3600; spentAt := utc 2024 3 4 9 |}.

Definition afternoon : timelog :=
  {| id := "gid://gitlab/Timelog/2"; timeSpent := 1800; spentAt := utc 2024 3 4 14 |}.

Definition april : timelog :=
  {| id := "gid://gitlab/Timelog/3"; timeSpent := 60; spentAt := utc 2024 4 4 14 |}.

(** The week of Monday, 4 March 2024, with the two entries of that day. *)
Definition marchWeek : weekGroup :=
  {| weekStart := utc 2024 3 4 0; logs := [morning; afternoon]; totalSeconds := 5400 |}.

(** A storage with a truncated project list, no issues for a/b and a
    truncated month of time logs. *)
Definition brokenStorage : gmap string string :=
  <[Store.keyFor "projects" := "[{"]> (<[Store.timelogsKey "2024-03" := "[1,"]> ∅).

(** A storage that caches the month of March 2024 with one entry, and the
    modal opened on that entry to delete it. *)
Definition marchCache : JSON.value :=
  JSON.Arr [JSON.Obj [("id", JSON.Str "gid://gitlab/Timelog/1");
                      ("timeSpent", JSON.Num 3600);
                      ("spentAt", JSON.Str "2024-03-04T09:00:00Z")]].

Definition deleteModal : LogCrud.state :=
  LogCrud.openDeleteTimelogModal 0 morning
    {| LogCrud.newLogDate := Some EmptyString;
       LogCrud.currentTimelogId := None;
       LogCrud.storage := Store.storeTimeLogs "2024-03" marchCache ∅ |}.

End Sample.

(** ** Platform: property reads and what a [try] block can throw *)

Module Script.
Import Js.

(** The errors that the [try] blocks of the favorites and credential readers
    can meet: the [SyntaxError] of [JSON.parse], or the [TypeError] of reading
    a property of [null]. *)
Inductive thrown : Type :=
| Syntax (e : error)
| TypeError.

Inductive outcome (A : Type) : Type :=
| Value (a : A)
| Thrown (e : thrown).
Arguments Value {A} a.
Arguments Thrown {A} e.

Definition andThen {A B : Type} (c : outcome A) (k : A -> outcome B) : outcome B :=
  match c with
  | Value a => k a
  | Thrown e => Thrown e
  end.

(** [JSON.parse(text)] inside such a block. *)
Definition parse (text : string) : outcome JSON.value :=
  match JSON_parse (Some text) with
  | Normal v => Value v
  | Throw e => Thrown (Syntax e)
  end.

(** The member named [k] of a parsed object: when the text repeats a name,
    [JSON.parse] keeps the last value. *)
Fixpoint member (k : string) (members : list (string * JSON.value)) : option JSON.value :=
  match members with
  | [] => None
  | (k', v) :: rest =>
      match member k rest with
      | Some later => Some later
      | None => if String.eqb k' k then Some v else None
      end
  end.

(** [v.k], also as the destructuring [const { k } = v], for a parsed value
    [v] and a name [k] that no prototype defines (the names read below are
    projects, issues, username, token, repository and id): [undefined],
    here [None], unless [v] is an object with a member [k]; reading a
    property of [null] throws. *)
Definition get (v : JSON.value) (k : string) : outcome (option JSON.value) :=
  match v with
  | JSON.Null => Thrown TypeError
  | JSON.Obj members => Value (member k members)
  | _ => Value None
  end.

(** [ToBoolean] of a value that may be [undefined]. *)
Definition truthy (v : option JSON.value) : bool :=
  match v with
  | Some x => JSON.truthy x
  | None => false
  end.

(** [item === text] for an item of a parsed array and a string [text]. *)
Definition isText (text : string) (item : JSON.value) : bool :=
  match item with
  | JSON.Str s => String.eqb s text
  | _ => false
  end.

(** [array.includes(text)] *)
Definition includes (array : list JSON.value) (text : string) : bool :=
  existsb (isText text) array.

(** [array.indexOf(text)]: the first index of [text], or -1. *)
Fixpoint indexOf (array : list JSON.value) (text : string) : Z :=
  match array with
  | [] => -1
  | item :: rest =>
      if isText text item then 0
      else let i := indexOf rest text in if i =? -1 then -1 else i + 1
  end.

(** [array.splice(index, 1)] for an index of the array: the array without
    that item. *)
Definition splice1 (array : list JSON.value) (index : Z) : list JSON.value :=
  firstn (Z.to_nat index) array ++ skipn (S (Z.to_nat index)) array.

End Script.

Notation "'try!' x ':=' c1 'in' c2" := (Script.andThen c1 (fun x => c2))
  (at level 10, x name, c1 at level 100, c2 at level 200).

(** ** The favorites store (favorites.js) *)

Module FavoriteSets.
Import Js LocalStorage Script Favorites.

(** The object that [getFavorites] answers. *)
Record favorites : Type := {
  projects : list JSON.value;
  issues : list JSON.value
}.

(** [Array.isArray(x) ? x : []] *)
Definition arrayOrEmpty (x : option JSON.value) : list JSON.value :=
  match x with
  | Some (JSON.Arr items) => items
  | _ => []
  end.

(** Get all favorites from localStorage. *)
Definition getFavorites (st : gmap string string) : favorites :=
  let attempt :=
    let stored := getItem FAVORITES_KEY st in
    match stored with
    | Some text =>
        if LogCrud.truthyText stored then
          try! parsed := parse text in
          try! parsedProjects := get parsed "projects" in
          try! parsedIssues := get parsed "issues" in
          Value (Some {| projects := arrayOrEmpty parsedProjects;
                         issues := arrayOrEmpty parsedIssues |})
        else Value None
    | None => Value None
    end in
  match attempt with
  | Value (Some found) => found
  | Value None | Thrown _ => {| projects := []; issues := [] |}
  end.

(** The favorites object as [JSON.stringify] sees it. *)
Definition toValue (f : favorites) : JSON.value :=
  JSON.Obj [("projects", JSON.Arr (projects f)); ("issues", JSON.Arr (issues f))].

Definition isProjectFavorite (projectId : string) (st : gmap string string) : bool :=
  let favorites := getFavorites st in
  includes (projects favorites) projectId.

Definition isIssueFavorite (issueId : string) (st : gmap string string) : bool :=
  let favorites := getFavorites st in
  includes (issues favorites) issueId.

(** [toggleProjectFavorite(projectId)]: the new status and the storage. *)
Definition toggleProjectFavorite (projectId : string) (st : gmap string string)
  : bool * gmap string string :=
  let favorites := getFavorites st in
  let index := indexOf (projects favorites) projectId in
  if index =? -1 then
    (* Add to favorites *)
    let favorites := {| projects := projects favorites ++ [JSON.Str projectId];
                        issues := issues favorites |} in
    (true, saveFavorites (toValue favorites) st)
  else
    (* Remove from favorites *)
    let favorites := {| projects := splice1 (projects favorites) index;
                        issues := issues favorites |} in
    (false, saveFavorites (toValue favorites) st).

Definition toggleIssueFavorite (issueId : string) (st : gmap string string)
  : bool * gmap string string :=
  let favorites := getFavorites st in
  let index := indexOf (issues favorites) issueId in
  if index =? -1 then
    let favorites := {| projects := projects favorites;
                        issues := issues favorites ++ [JSON.Str issueId] |} in
    (true, saveFavorites (toValue favorites) st)
  else
    let favorites := {| projects := projects favorites;
                        issues := splice1 (issues favorites) index |} in
    (false, saveFavorites (toValue favorites) st).

Definition getFavoriteProjects (st : gmap string string) : list JSON.value :=
  projects (getFavorites st).

Definition getFavoriteIssues (st : gmap string string) : list JSON.value :=
  issues (getFavorites st).

Definition clearAllFavorites (st : gmap string string) : gmap string string :=
  removeItem FAVORITES_KEY st.

End FavoriteSets.

(** ** Reading the credentials (auth.js, gitlab.js, events.js) *)

Module Session.
Import Js LocalStorage Script Auth.

(** The object that [getStoredAuth] answers; a field is [None] when the
    stored record has no such member ([undefined]). *)
Record storedAuth : Type := {
  username : option JSON.value;
  token : option JSON.value;
  repository : option JSON.value
}.

(** [getStoredAuth()]: the answer ([None] for [null]) and the storage, from
    which the catch block removes a record that cannot be read. *)
Definition getStoredAuth (st : gmap string string)
  : option storedAuth * gmap string string :=
  let auth := getItem AUTH_STORAGE_KEY st in
  match auth with
  | Some text =>
      if LogCrud.truthyText auth then
        let attempt :=
          try! destructured := parse text in
          try! username := get destructured "username" in
          try! token := get destructured "token" in
          if truthy username && truthy token then
            try! parsed := parse text in
            try! parsedUsername := get parsed "username" in
            try! parsedToken := get parsed "token" in
            try! parsedRepository := get parsed "repository" in
            Value (Some {| username := parsedUsername;
                           token := parsedToken;
                           repository := parsedRepository |})
          else Value None in
        match attempt with
        | Value found => (found, st)
        | Thrown _ => (None, removeItem AUTH_STORAGE_KEY st)
        end
      else (None, st)
  | None => (None, st)
  end.

(** [checkAuth()] (app.js): whether the dashboard is shown. *)
Definition checkAuth (st : gmap string string) : bool * gmap string string :=
  let (auth, st) := getStoredAuth st in
  match auth with
  | Some _ => (true, st)
  | None => (false, st)
  end.

(** The member [name] of the stored record as [GitLabAPI.getToken] and
    [GitLabAPI.getUsername] read it: [Some JSON.Null] is [null], [None] is
    [undefined]. *)
Definition readAuthMember (name : string) (st : gmap string string) : option JSON.value :=
  let attempt :=
    let auth := getItem "userAuth" st in
    match auth with
    | Some text =>
        if LogCrud.truthyText auth then
          try! parsed := parse text in
          try! found := get parsed name in
          Value (Some found)
        else Value None
    | None => Value None
    end in
  match attempt with
  | Value (Some found) => found
  | Value None | Thrown _ => Some JSON.Null
  end.

Definition getToken (st : gmap string string) : option JSON.value :=
  readAuthMember "token" st.

Definition getUsername (st : gmap string string) : option JSON.value :=
  readAuthMember "username" st.

(** The guard that opens [graphql], [addSpentTime], [getProjectTimeLogs] and
    [search]: [if (!token) throw new Error(...)]; [true] when the request
    goes on. *)
Definition hasToken (st : gmap string string) : bool := truthy (getToken st).

(** [String.prototype.trim] removes white space and line terminators at both
    ends; among the code units below 256 these are tab, line feed, vertical
    tab, form feed, carriage return, space and the no-break space. *)
Definition isTrimmed (c : ascii) : bool :=
  let n := N_of_ascii c in
  ((9 <=? n)%N && (n <=? 13)%N) || (n =? 32)%N || (n =? 160)%N.

Fixpoint trimStart (s : string) : string :=
  match s with
  | String c rest => if isTrimmed c then trimStart rest else s
  | EmptyString => s
  end.

Fixpoint trimEnd (s : string) : string :=
  match s with
  | String c rest =>
      match trimEnd rest with
      | EmptyString => if isTrimmed c then EmptyString else String c EmptyString
      | kept => String c kept
      end
  | EmptyString => s
  end.

Definition trim (s : string) : string := trimEnd (trimStart s).

Definition isEmpty (s : string) : bool := String.eqb s EmptyString.

(** The submit handler of the login form, up to the calls that start the
    asynchronous loads: the message written to the error element ([None]
    when the login is accepted) and the storage.  [repositoryField] is
    [None] when the page has no repository input. *)
Definition submitLogin (usernameField tokenField : string) (repositoryField : option string)
    (timestamp : string) (st : gmap string string)
  : option string * gmap string string :=
  let username := trim usernameField in
  let token := trim tokenField in
  let repository :=
    match repositoryField with
    | Some field => trim field
    | None => EmptyString
    end in
  (* Basic validation *)
  if isEmpty username || isEmpty token || isEmpty repository then
    (Some "Please fill in all fields", st)
  else if Z.of_nat (String.length username) <? 3 then
    (Some "Username must be at least 3 characters", st)
  else if Z.of_nat (String.length token) <? 8 then
    (Some "Token must be at least 8 characters", st)
  else if (Z.of_nat (String.length repository) <? 5)
          || negb (String.prefix "http://" repository || String.prefix "https://" repository) then
    (Some "Repository must be a valid URL (include https://)", st)
  else
    (* Save credentials and show dashboard *)
    (None, saveCredentials username token repository timestamp st).

End Session.

(** ** Periods, their requests and their caches (app.js) *)

Module Navigation.
Import Js Time App.

Section Zone.

Variable tz : Z.

(** [new Date(year, month, date, hours, minutes, seconds, ms)]: local time.
    Years 0 to 99 mean 1900 to 1999. *)
Definition makeDateTime (year month date hours minutes seconds ms : Z) : Z :=
  let yr := if (0 <=? year) && (year <=? 99) then 1900 + year else year in
  makeDay yr month date * msPerDay
  + (hours * 3600000 + minutes * 60000 + seconds * 1000 + ms) - tz.

(** The range that [loadTimeLogs] requests for the period of [ref]. *)
Definition startDate (ref : Z) : Z :=
  makeDateTime (getFullYear tz ref) (getMonth tz ref) 1 0 0 0 0.

Definition endDate (ref : Z) : Z :=
  makeDateTime (getFullYear tz ref) (getMonth tz ref + 1) 0 23 59 59 999.

(** [changePeriod(offsetMonths)]: the new [currentPeriod], as the call of
    [loadTimeLogs(currentPeriod)] leaves it. *)
Definition changePeriod (offsetMonths : Z) (currentPeriod : Z) : Z :=
  let currentPeriod :=
    makeDate tz (getFullYear tz currentPeriod) (getMonth tz currentPeriod + offsetMonths) 1 in
  let ref := currentPeriod in
  (* Update currentPeriod to the ref *)
  makeDate tz (getFullYear tz ref) (getMonth tz ref) 1.

(** The entries that [loadTimeLogs(periodDate, force)] goes on to show, and
    the storage afterwards.  [response] is the [nodes] of the answer that a
    request would get, [None] when it fails; the entries are [None] when the
    catch block shows the error. *)
Definition fetchTimeLogs (ref : Z) (force : bool) (response : option JSON.value)
    (st : gmap string string) : option JSON.value * gmap string string :=
  let currentPeriod := makeDate tz (getFullYear tz ref) (getMonth tz ref) 1 in
  (* periodKey in format YYYY-MM for caching *)
  let periodKey := periodKey tz (Some currentPeriod) in
  (* Try cached unless force *)
  match (if negb force then Store.getTimeLogs periodKey st else Normal (JSON.Bool false)) with
  | Normal cached =>
      if JSON.truthy cached && JSON.isArray cached then (Some cached, st)
      else
        match response with
        | Some nodes =>
            let nodes := JSON.or_else nodes (JSON.Arr []) in
            (* Cache them *)
            (Some nodes, Store.storeTimeLogs periodKey nodes st)
        | None => (None, st)
        end
  | Throw _ => (None, st)
  end.

End Zone.

(** [cached.length > 0] for a value that is an array. *)
Definition nonEmptyArray (v : JSON.value) : bool :=
  match v with
  | JSON.Arr (_ :: _) => true
  | _ => false
  end.

(** The projects that [loadProjects(force)] goes on to show, and the storage
    afterwards; [response] as for [fetchTimeLogs]. *)
Definition fetchProjects (force : bool) (response : option JSON.value)
    (st : gmap string string) : option JSON.value * gmap string string :=
  (* Try cached projects unless force is true *)
  match (if negb force then Store.getProjects st else Normal (JSON.Bool false)) with
  | Normal cached =>
      if JSON.truthy cached && JSON.isArray cached && nonEmptyArray cached then (Some cached, st)
      else
        match response with
        | Some nodes =>
            let nodes := JSON.or_else nodes (JSON.Arr []) in
            (* Cache them *)
            (Some nodes, Store.storeProjects nodes st)
        | None => (None, st)
        end
  | Throw _ => (None, st)
  end.

End Navigation.

(** ** What the track tab renders (app.js) *)

Module Render.
Import Time App.

Section Zone.

Variable tz : Z.

(** [createWeekContainer]: the last day of the week and the test that
    labels the week as This Week. *)
Definition weekEnd (weekStart : Z) : Z :=
  let weekEnd := weekStart in
  setDate tz weekEnd (getDate tz weekEnd + 6).

Definition isCurrentWeek (weekStart clock : Z) : bool :=
  let now := setHoursZero tz clock in
  (weekStart <=? now) && (now <=? weekEnd weekStart).

(** [populateTrackCalendar]: the cells of the month grid, seven to a row.
    A day cell carries its number and whether it is marked as today; the
    colour that the hours of the day give it is not modelled. *)
Inductive cell : Type :=
| EmptyCell
| DayCell (day : Z) (isToday : bool).

Definition daysInMonth (ref : Z) : Z :=
  let lastDay := makeDate tz (getFullYear tz ref) (getMonth tz ref + 1) 0 in
  getDate tz lastDay.

(** Monday = 0, Sunday = 6 *)
Definition startingDayOfWeek (ref : Z) : Z :=
  let firstDay := makeDate tz (getFullYear tz ref) (getMonth tz ref) 1 in
  let startingDayOfWeek := getDay tz firstDay in
  if startingDayOfWeek =? 0 then 6 else startingDayOfWeek - 1.

Definition calendarCells (ref today : Z) : list cell :=
  let currentMonth := getMonth tz ref in
  let currentYear := getFullYear tz ref in
  (* Add empty cells for days before month starts *)
  repeat EmptyCell (Z.to_nat (startingDayOfWeek ref))
  (* Add days of the month *)
  ++ map (fun day =>
            let isToday :=
              (getDate tz today =? day) && (getMonth tz today =? currentMonth)
              && (getFullYear tz today =? currentYear) in
            DayCell day isToday)
         (seqZ 1 (daysInMonth ref)).

End Zone.

End Render.

(** ** Opening the time-log modal (log-crud.js) *)

Module Modal.
Import Time LogCrud.

Section Zone.

Variable tz : Z.

(** [showNewLogModal()], as far as the state of the add flow goes: the date
    input gets today's local date; [clock] is the time value of
    [new Date()]. *)
Definition showNewLogModal (clock : Z) (s : state) : state :=
  let today := clock in
  {| newLogDate :=
       match newLogDate s with
       | Some _ => Some (localDateString tz today)
       | None => None
       end;
     currentTimelogId := currentTimelogId s;
     storage := storage s |}.

End Zone.

End Modal.

(** ** Favorites first (app.js, log-crud.js) *)

Module Listing.
Import Script.

Section FavoritesFirst.

(** The nodes of a list, projects or issues, with their [id], a string. *)
Context {A : Type}.

Variable id : A -> string.

(** [favorites.getFavoriteProjects()] or [favorites.getFavoriteIssues()] *)
Variable favoriteIds : list JSON.value.

(** The comparison that [loadProjects], [loadIssues], [populateNewLogProjects]
    and [populateNewLogIssues] sort with. *)
Definition favoritesFirst (a b : A) : Z :=
  let aIsFav := includes favoriteIds (id a) in
  let bIsFav := includes favoriteIds (id b) in
  if aIsFav && negb bIsFav then -1
  else if negb aIsFav && bIsFav then 1
  else 0.

(** Sort: favorites first *)
Definition sortFavoritesFirst (nodes : list A) : list A :=
  Arr.sort favoritesFirst nodes.

End FavoritesFirst.

End Listing.

(** ** Date labels (utils.js) *)

Module Utils.
Import Time.

(** [text.replace(/pattern/g, replacement)] for a pattern of plain
    characters and a replacement without dollar signs: every occurrence,
    from the left and without overlap, is replaced.  [skip] counts the
    characters of an occurrence that are still to be passed over. *)
Fixpoint replaceFrom (pattern replacement text : string) (skip : nat) : string :=
  match text with
  | EmptyString => EmptyString
  | String c rest =>
      match skip with
      | S k => replaceFrom pattern replacement rest k
      | O =>
          if String.prefix pattern text
          then replacement +:+ replaceFrom pattern replacement rest (String.length pattern - 1)
          else String c (replaceFrom pattern replacement rest O)
      end
  end.

Definition replaceAll (pattern replacement text : string) : string :=
  replaceFrom pattern replacement text O.

Section Zone.

Variable tz : Z.

Definition getHours (t : Z) : Z := timeInDay tz t / 3600000.

Definition getMinutes (t : Z) : Z := timeInDay tz t / 60000 mod 60.

(** [formatDate(dateString, readable, format)]: [date] is the time value of
    [new Date(dateString)], [None] for an Invalid Date; [format] is [None]
    for [null]; [now] is the time value of [new Date()].  On time values
    [Math.floor] of the quotient by the milliseconds of a day is the integer
    quotient. *)
Definition formatDate (date : option Z) (readable : bool) (format : option string)
    (now : Z) : string :=
  match date with
  | None => EmptyString
  | Some date =>
      if negb readable then
        let day := padStart 2 "0" (numToString (getDate tz date)) in
        let month := padStart 2 "0" (numToString (getMonth tz date + 1)) in
        let year := getFullYear tz date in
        let hours := padStart 2 "0" (numToString (getHours date)) in
        let minutes := padStart 2 "0" (numToString (getMinutes date)) in
        match format with
        | Some text =>
            if negb (String.eqb text EmptyString) then
              let out := text in
              let out := replaceAll "yyyy" (numToString year) out in
              let out := replaceAll "dd" day out in
              let out := replaceAll "mm" month out in
              let out := replaceAll "HH" hours out in
              let out := replaceAll "MM" minutes out in
              out
            else day +:+ "/" +:+ month +:+ "/" +:+ numToString year +:+ " " +:+
                 hours +:+ ":" +:+ minutes
        | None =>
            (* Default (legacy) behaviour: include date and time *)
            day +:+ "/" +:+ month +:+ "/" +:+ numToString year +:+ " " +:+
            hours +:+ ":" +:+ minutes
        end
      else
        let diffTime := Z.abs (now - date) in
        let diffDays := diffTime / (1000 * 60 * 60 * 24) in
        if diffDays =? 0 then "today"
        else if diffDays =? 1 then "yesterday"
        else if diffDays <? 7 then numToString diffDays +:+ " days ago"
        else if diffDays <? 30 then numToString (diffDays / 7) +:+ " weeks ago"
        else if diffDays <? 365 then numToString (diffDays / 30) +:+ " months ago"
        else numToString (diffDays / 365) +:+ " years ago"
  end.

End Zone.

End Utils.

(** ** Vocabulary of the statements *)

Module FavoriteSpec.
Import Script FavoriteSets.

Definition noFavorites : favorites := {| projects := []; issues := [] |}.

(** What [getFavorites] reads out of a stored text. *)
Definition readFavorites (text : string) : favorites :=
  match JSON.parseText text with
  | Some (JSON.Obj members) =>
      {| projects := arrayOrEmpty (member "projects" members);
         issues := arrayOrEmpty (member "issues" members) |}
  | _ => noFavorites
  end.

(** The number of times that [text] occurs in [array]. *)
Definition occurrences (text : string) (array : list JSON.value) : nat :=
  length (List.filter (isText text) array).

End FavoriteSpec.

Module SessionSpec.
Import Script Session.

(** What [getStoredAuth] makes of the members of a stored object. *)
Definition recognise (members : list (string * JSON.value)) : option storedAuth :=
  if truthy (member "username" members) && truthy (member "token" members)
  then Some {| username := member "username" members;
               token := member "token" members;
               repository := member "repository" members |}
  else None.

End SessionSpec.

Module MonthSpec.
Import Time Calendar.

(** The day of the era on which year [yoe] of the era ends. *)
Definition yearEnd (yoe : Z) : Z :=
  if yoe =? 399 then 146097 else yearStart (yoe + 1).

(** The day number of the first day of the month after [y]-[m]. *)
Definition firstOfNext (y m : Z) : Z :=
  if m =? 12 then daysFromCivil (y + 1) 1 1 else daysFromCivil y (m + 1) 1.

(** The year and the month, from 1, that [MakeDay] reaches. *)
Definition carriedYear (year month : Z) : Z := year + month / 12.
Definition carriedMonth (month : Z) : Z := month mod 12 + 1.

(** A check of [f] on [fuel] consecutive numbers from [k]. *)
Fixpoint allFrom (fuel : nat) (k : Z) (f : Z -> bool) : bool :=
  match fuel with
  | O => true
  | S n => f k && allFrom n (k + 1) f
  end.

Section Zone.

Variable tz : Z.

(** Counting months: twelve to the year. *)
Definition monthIndex (t : Z) : Z := 12 * getFullYear tz t + getMonth tz t.

(** The local midnight that opens month number [index]. *)
Definition monthOpening (index : Z) : Z :=
  makeDay (index / 12) (index mod 12) 1 * msPerDay - tz.

End Zone.

End MonthSpec.

Module TotalSpec.
Import App WeekSpec.

Definition sumSeconds (days : list dayGroup) : Z :=
  fold_right Z.add 0 (map dayTotalSeconds days).

(** A day group is well formed: it opens with the entry that gave it its
    date, and its total is the total of its entries. *)
Definition wellFormedDay (d : dayGroup) : Prop :=
  dayTotalSeconds d = secondsOf (dayLogs d) /\
  exists log rest, dayLogs d = log :: rest /\ date d = spentAt log.

End TotalSpec.
(** * Facts about the platform model *)

(** ** JSON: reading back what [JSON.stringify] wrote *)

Module JSONFacts.
Import JSON.

Lemma app_cons c s r : String c s +:+ r = String c (s +:+ r).
Proof. reflexivity. Qed.

Lemma app_empty s : EmptyString +:+ s = s.
Proof. reflexivity. Qed.

Lemma app_assoc (a b c : string) : (a +:+ b) +:+ c = a +:+ (b +:+ c).
Proof. induction a as [|x a IH]; [reflexivity|]. rewrite !app_cons, IH. reflexivity. Qed.

Lemma length_app (a b : string) :
  String.length (a +:+ b) = (String.length a + String.length b)%nat.
Proof. induction a as [|x a IH]; [reflexivity|]. rewrite app_cons. simpl. rewrite IH. reflexivity. Qed.

Lemma spanDigits_app ds rest :
  allDigits ds -> tailOk rest -> spanDigits (ds +:+ rest) = (ds, rest).
Proof.
  induction ds as [|c ds IH]; intros Hd Ht.
  - rewrite app_empty. destruct rest as [|c r]; [reflexivity|].
    simpl in *. rewrite Ht. reflexivity.
  - destruct Hd as [Hc Hd]. rewrite app_cons. simpl. rewrite Hc, IH by assumption. reflexivity.
Qed.

Lemma allDigits_uint u : allDigits (NilEmpty.string_of_uint u).
Proof. induction u; simpl; auto. Qed.

Lemma allDigits_uint0 u : allDigits (NilZero.string_of_uint u).
Proof. destruct u; try apply (allDigits_uint (_ _)); simpl; auto. Qed.

Lemma numToString_pos p :
  numToString (Z.pos p) = NilZero.string_of_uint (Pos.to_uint p).
Proof. reflexivity. Qed.

Lemma numToString_neg p :
  numToString (Z.neg p) = String "-" (NilZero.string_of_uint (Pos.to_uint p)).
Proof. reflexivity. Qed.

Lemma parseDigits_pos p :
  NilZero.uint_of_string (NilZero.string_of_uint (Pos.to_uint p)) = Some (Pos.to_uint p).
Proof. apply NilZero.usu. apply DecimalPos.Unsigned.to_uint_nonnil. Qed.

Lemma of_uint_pos p : Z.of_uint (Pos.to_uint p) = Z.pos p.
Proof.
  unfold Z.of_uint. rewrite DecimalPos.Unsigned.of_to. reflexivity.
Qed.

Lemma string_of_uint_nonempty u :
  u <> Decimal.Nil -> exists c ds, NilZero.string_of_uint u = String c ds.
Proof. destruct u; intros H; try congruence; simpl; eauto. Qed.

Lemma digit_not_minus c : isDigit c = true -> Ascii.eqb c "-" = false.
Proof.
  intros H. destruct (Ascii.eqb_spec c "-") as [->|]; [discriminate H|reflexivity].
Qed.

Lemma parseNumber_digits p rest :
  tailOk rest ->
  parseNumber (NilZero.string_of_uint (Pos.to_uint p) +:+ rest) = Some (Z.pos p, rest).
Proof.
  intros Ht. unfold parseNumber.
  destruct (string_of_uint_nonempty (Pos.to_uint p)) as (c & ds & E).
  { apply DecimalPos.Unsigned.to_uint_nonnil. }
  pose proof (allDigits_uint0 (Pos.to_uint p)) as Hd.
  pose proof (parseDigits_pos p) as Hp.
  rewrite E in Hd |- *. rewrite app_cons.
  rewrite (digit_not_minus c) by apply Hd.
  rewrite <- app_cons, spanDigits_app by assumption.
  rewrite <- E, Hp, of_uint_pos, numToString_pos, String.eqb_refl.
  reflexivity.
Qed.

Lemma parseNumber_stringify n rest :
  tailOk rest -> parseNumber (numToString n +:+ rest) = Some (n, rest).
Proof.
  intros Ht. destruct n as [|p|p].
  - change (numToString 0) with "0". rewrite app_cons, app_empty.
    unfold parseNumber. change (Ascii.eqb "0" "-") with false. cbv iota.
    change (String "0" rest) with ("0" +:+ rest).
    rewrite spanDigits_app; [reflexivity|simpl; auto|assumption].
  - rewrite numToString_pos. apply parseNumber_digits, Ht.
  - rewrite numToString_neg, app_cons.
    pose proof (parseNumber_digits p rest Ht) as H. unfold parseNumber in *.
    change (Ascii.eqb "-" "-") with true. cbv iota.
    destruct (string_of_uint_nonempty (Pos.to_uint p)) as (c & ds & E).
    { apply DecimalPos.Unsigned.to_uint_nonnil. }
    pose proof (allDigits_uint0 (Pos.to_uint p)) as Hd.
    rewrite E in Hd, H |- *. rewrite app_cons in H |- *.
    rewrite (digit_not_minus c) in H by apply Hd.
    destruct (spanDigits (String c (ds +:+ rest))) as [ds' r'].
    destruct (NilZero.uint_of_string ds'); [|discriminate].
    destruct (String.eqb _ ds'); [|discriminate].
    injection H as -> ->. reflexivity.
Qed.

Lemma numToString_head n :
  exists c s, numToString n = String c s /\ isWhitespace c = false /\
    (isDigit c = true \/ c = "-"%char).
Proof.
  destruct n as [|p|p].
  - exists "0"%char, EmptyString. repeat split. left. reflexivity.
  - rewrite numToString_pos.
    destruct (string_of_uint_nonempty (Pos.to_uint p)) as (c & ds & E).
    { apply DecimalPos.Unsigned.to_uint_nonnil. }
    pose proof (allDigits_uint0 (Pos.to_uint p)) as Hd. rewrite E in Hd |- *.
    destruct Hd as [Hc _]. exists c, ds. split; [reflexivity|]. split; [|auto].
    unfold isWhitespace.
    destruct (Ascii.eqb_spec c " ") as [->|]; [discriminate Hc|].
    destruct (Ascii.eqb_spec c "009") as [->|]; [discriminate Hc|].
    destruct (Ascii.eqb_spec c "010") as [->|]; [discriminate Hc|].
    destruct (Ascii.eqb_spec c "013") as [->|]; [discriminate Hc|].
    reflexivity.
  - rewrite numToString_neg. exists "-"%char. eexists. repeat split. auto.
Qed.

(** Strings *)

Lemma unicodeEscape_hex c :
  (N_of_ascii c <? 32)%N = true ->
  unicodeEscape "0" "0" (hexDigit (N_of_ascii c / 16)) (hexDigit (N_of_ascii c mod 16)) = Some c.
Proof.
  destruct c as [[] [] [] [] [] [] [] []]; intros H; try discriminate H; reflexivity.
Qed.

Lemma parseChars_escapeChar c s :
  parseChars (escapeChar c +:+ s) =
  match parseChars s with
  | Some (str, r) => Some (String c str, r)
  | None => None
  end.
Proof.
  unfold escapeChar.
  destruct (Ascii.eqb_spec c dquote) as [->|Hq]; [reflexivity|].
  destruct (Ascii.eqb_spec c backslash) as [->|Hb]; [reflexivity|].
  destruct (Ascii.eqb_spec c "008") as [->|]; [reflexivity|].
  destruct (Ascii.eqb_spec c "009") as [->|]; [reflexivity|].
  destruct (Ascii.eqb_spec c "010") as [->|]; [reflexivity|].
  destruct (Ascii.eqb_spec c "012") as [->|]; [reflexivity|].
  destruct (Ascii.eqb_spec c "013") as [->|]; [reflexivity|].
  destruct (N_of_ascii c <? 32)%N eqn:Hc.
  - rewrite !app_cons, app_empty.
    cbn [parseChars]. change (Ascii.eqb backslash dquote) with false.
    change (Ascii.eqb backslash backslash) with true.
    change (Ascii.eqb "u" "u") with true. cbv iota.
    rewrite unicodeEscape_hex by assumption. reflexivity.
  - rewrite app_cons, app_empty. cbn [parseChars].
    apply Ascii.eqb_neq in Hq, Hb. rewrite Hq, Hb, Hc. reflexivity.
Qed.

Lemma parseChars_escape s rest :
  parseChars (escape s +:+ String dquote rest) = Some (s, rest).
Proof.
  induction s as [|c s IH].
  - reflexivity.
  - cbn [escape]. rewrite app_assoc, parseChars_escapeChar, IH. reflexivity.
Qed.

Lemma parseChars_quote s rest :
  exists body, quote s +:+ rest = String dquote body /\ parseChars body = Some (s, rest).
Proof.
  unfold quote. rewrite app_cons, app_assoc, app_cons, app_empty.
  eexists. split; [reflexivity|]. apply parseChars_escape.
Qed.

(** Values *)

Lemma skipWhitespace_head c s :
  isWhitespace c = false -> skipWhitespace (String c s) = String c s.
Proof. intros H. simpl. rewrite H. reflexivity. Qed.

Lemma stringify_head v r :
  exists c s, stringify v +:+ r = String c s /\ isWhitespace c = false /\
    Ascii.eqb c "]" = false.
Proof.
  destruct v as [|[]|n|str|items|members]; try (do 2 eexists; repeat split; fail).
  destruct (numToString_head n) as (c & s & E & Hw & Hc).
  exists c, (s +:+ r). cbn [stringify]. rewrite E. repeat split; [assumption|].
  destruct Hc as [Hc| ->]; [|reflexivity].
  destruct (Ascii.eqb_spec c "]") as [->|]; [discriminate Hc|reflexivity].
Qed.

Lemma tailOk_comma r : tailOk (String "," r).
Proof. reflexivity. Qed.

Lemma tailOk_bracket r : tailOk (String "]" r).
Proof. reflexivity. Qed.

Lemma tailOk_brace r : tailOk (String "}" r).
Proof. reflexivity. Qed.

Lemma parseValue_Num f n rest :
  tailOk rest -> parseValue (S f) (numToString n +:+ rest) = Some (Num n, rest).
Proof.
  intros Ht. pose proof (parseNumber_stringify n rest Ht) as Hn.
  destruct (numToString_head n) as (c & s & E & Hw & Hc).
  rewrite E in Hn |- *. rewrite app_cons in Hn |- *.
  cbn [parseValue]. rewrite skipWhitespace_head by assumption.
  assert (Hne : forall x, isDigit x = false -> x <> "-"%char -> Ascii.eqb c x = false).
  { intros x Hx Hm. destruct (Ascii.eqb_spec c x) as [->|]; [|reflexivity].
    destruct Hc; congruence. }
  rewrite !Hne by (reflexivity || discriminate). rewrite Hn. reflexivity.
Qed.

Lemma join_cons2 sep a b l :
  join sep (a :: b :: l) = a +:+ sep +:+ join sep (b :: l).
Proof. reflexivity. Qed.

Lemma stringify_Arr items :
  stringify (Arr items) = String "[" (join "," (map stringify items) +:+ "]").
Proof. reflexivity. Qed.

Lemma stringify_Obj members :
  stringify (Obj members) = String "{" (join "," (map member members) +:+ "}").
Proof. reflexivity. Qed.

Lemma stringify_Str s : stringify (Str s) = quote s.
Proof. reflexivity. Qed.

Lemma size_Arr items : size (Arr items) = S (sizeItems items).
Proof. reflexivity. Qed.

Lemma size_Obj members : size (Obj members) = S (sizeMembers members).
Proof. reflexivity. Qed.

Lemma sizeItems_cons v items :
  sizeItems (v :: items) = (S (size v) + sizeItems items)%nat.
Proof. reflexivity. Qed.

Lemma sizeMembers_cons kv members :
  sizeMembers (kv :: members) = (S (size (snd kv)) + sizeMembers members)%nat.
Proof. reflexivity. Qed.

Lemma roundtrip_fuel (fuel : nat) :
  (forall v rest, (size v <= fuel)%nat -> tailOk rest ->
     parseValue fuel (stringify v +:+ rest) = Some (v, rest)) /\
  (forall v items rest, (S (size v) + sizeItems items <= fuel)%nat ->
     parseElements fuel (join "," (map stringify (v :: items)) +:+ String "]" rest)
     = Some (v :: items, rest)) /\
  (forall kv members rest, (S (size (snd kv)) + sizeMembers members <= fuel)%nat ->
     parseMembers fuel (join "," (map member (kv :: members)) +:+ String "}" rest)
     = Some (kv :: members, rest)).
Proof.
  induction fuel as [|f (IHv & IHe & IHm)].
  { split; [|split]; intros; try lia. destruct v; simpl in *; lia. }
  split; [|split].
  - intros v rest Hsz Ht.
    destruct v as [|[]|n|str|items|members]; try reflexivity.
    + apply parseValue_Num, Ht.
    + rewrite stringify_Str.
      destruct (parseChars_quote str rest) as (body & -> & Hb).
      cbn. rewrite Hb. reflexivity.
    + destruct items as [|v items]; [reflexivity|].
      rewrite stringify_Arr, app_cons, app_assoc.
      change ("]" +:+ rest) with (String "]" rest).
      cbn [parseValue]. rewrite skipWhitespace_head by reflexivity.
      change (Ascii.eqb "[" "n") with false. change (Ascii.eqb "[" "t") with false.
      change (Ascii.eqb "[" "f") with false. change (Ascii.eqb "[" dquote) with false.
      change (Ascii.eqb "[" "[") with true. cbv iota.
      rewrite size_Arr, sizeItems_cons in Hsz.
      rewrite IHe by lia.
      destruct items as [|v' items].
      * cbn [map join].
        destruct (stringify_head v (String "]" rest)) as (c & s & -> & Hw & Hc).
        rewrite skipWhitespace_head, Hc by assumption. reflexivity.
      * cbn [map]. rewrite join_cons2, app_assoc.
        destruct (stringify_head v ("," +:+ join "," (stringify v' :: map stringify items)
                                      +:+ String "]" rest)) as (c & s & E & Hw & Hc).
        rewrite app_assoc. rewrite E.
        rewrite skipWhitespace_head, Hc by assumption. reflexivity.
    + destruct members as [|kv members]; [reflexivity|].
      rewrite stringify_Obj, app_cons, app_assoc.
      change ("}" +:+ rest) with (String "}" rest).
      cbn [parseValue]. rewrite skipWhitespace_head by reflexivity.
      change (Ascii.eqb "{" "n") with false. change (Ascii.eqb "{" "t") with false.
      change (Ascii.eqb "{" "f") with false. change (Ascii.eqb "{" dquote) with false.
      change (Ascii.eqb "{" "[") with false. change (Ascii.eqb "{" "{") with true.
      cbv iota.
      rewrite size_Obj, sizeMembers_cons in Hsz.
      rewrite IHm by lia.
      assert (E : exists s, join "," (map member (kv :: members)) +:+ String "}" rest
                            = String dquote s).
      { destruct members; cbn [map join]; unfold member at 1, quote;
          rewrite ?app_assoc, app_cons; eauto. }
      destruct E as (s & ->). rewrite skipWhitespace_head by reflexivity. reflexivity.
  - intros v items rest Hsz.
    cbn [parseElements].
    destruct items as [|v' items].
    + cbn [map join]. rewrite IHv; [reflexivity| lia | apply tailOk_bracket].
    + cbn [map]. rewrite join_cons2, !app_assoc.
      change ("," +:+ join "," (stringify v' :: map stringify items) +:+ String "]" rest)
        with (String "," (join "," (map stringify (v' :: items)) +:+ String "]" rest)).
      rewrite sizeItems_cons in Hsz.
      rewrite IHv; [|lia|apply tailOk_comma].
      rewrite skipWhitespace_head by reflexivity.
      change (Ascii.eqb "," ",") with true. cbv iota.
      rewrite IHe by lia. reflexivity.
  - intros [key v] members rest Hsz.
    cbn [parseMembers]. cbn [snd] in Hsz.
    assert (Hstep : forall tail, tailOk tail ->
      exists body, member (key, v) +:+ tail = String dquote body /\
        parseChars body = Some (key, String ":" (stringify v +:+ tail))).
    { intros tail _. unfold member. cbn [fst snd]. rewrite app_assoc.
      destruct (parseChars_quote key (":" +:+ stringify v +:+ tail)) as (body & E & Hb).
      exists body. rewrite app_assoc. split; [exact E|]. rewrite Hb. reflexivity. }
    destruct members as [|kv' members].
    + cbn [map join].
      destruct (Hstep (String "}" rest) (tailOk_brace _)) as (body & -> & Hb).
      rewrite skipWhitespace_head by reflexivity.
      change (Ascii.eqb dquote dquote) with true. cbv iota. rewrite Hb.
      rewrite skipWhitespace_head by reflexivity.
      change (Ascii.eqb ":" ":") with true. cbv iota.
      rewrite IHv; [reflexivity|lia|apply tailOk_brace].
    + cbn [map]. rewrite join_cons2, !app_assoc.
      change ("," +:+ join "," (member kv' :: map member members) +:+ String "}" rest)
        with (String "," (join "," (map member (kv' :: members)) +:+ String "}" rest)).
      destruct (Hstep (String "," (join "," (map member (kv' :: members)) +:+ String "}" rest))
                  (tailOk_comma _)) as (body & -> & Hb).
      rewrite skipWhitespace_head by reflexivity.
      change (Ascii.eqb dquote dquote) with true. cbv iota. rewrite Hb.
      rewrite skipWhitespace_head by reflexivity.
      change (Ascii.eqb ":" ":") with true. cbv iota.
      rewrite sizeMembers_cons in Hsz.
      rewrite IHv; [|lia|apply tailOk_comma].
      rewrite skipWhitespace_head by reflexivity.
      change (Ascii.eqb "," ",") with true. cbv iota.
      rewrite IHm by lia. reflexivity.
Qed.

Lemma app_empty_r (s : string) : s +:+ EmptyString = s.
Proof. induction s as [|c s IH]; [reflexivity|]. rewrite app_cons, IH. reflexivity. Qed.

Lemma size_le_length v : (size v <= String.length (stringify v))%nat.
Proof.
  induction v as [| [] | n | s | items IH | members IH] using value_nested_ind;
    try (cbn; lia).
  - destruct (numToString_head n) as (c & s & E & _). cbn [stringify size].
    rewrite E. cbn. lia.
  - rewrite size_Arr, stringify_Arr. cbn [String.length]. rewrite length_app.
    cbn [String.length].
    enough (sizeItems items <= S (String.length (join "," (map stringify items))))%nat by lia.
    induction IH as [|v items Hv _ IHitems]; [cbn; lia|].
    rewrite sizeItems_cons. destruct items as [|v' items].
    + cbn [map join]. cbn. lia.
    + cbn [map]. rewrite join_cons2, !length_app. cbn [map] in IHitems.
      cbn [String.length]. lia.
  - rewrite size_Obj, stringify_Obj. cbn [String.length]. rewrite length_app.
    cbn [String.length].
    enough (sizeMembers members <= S (String.length (join "," (map member members))))%nat by lia.
    assert (Hm : forall kv, (size (snd kv) <= String.length (stringify (snd kv)))%nat ->
                            (size (snd kv) <= String.length (member kv))%nat).
    { intros kv H. unfold member. rewrite !length_app. lia. }
    induction IH as [|kv members Hv _ IHmembers]; [cbn; lia|].
    rewrite sizeMembers_cons. apply Hm in Hv. destruct members as [|kv' members].
    + cbn [map join]. cbn. lia.
    + cbn [map]. rewrite join_cons2, !length_app. cbn [map] in IHmembers.
      cbn [String.length]. lia.
Qed.

(** [JSON.parse(JSON.stringify(v))] gives [v] back. *)
Lemma parseText_stringify v : parseText (stringify v) = Some v.
Proof.
  unfold parseText.
  pose proof (proj1 (roundtrip_fuel (S (String.length (stringify v)))) v EmptyString) as H.
  rewrite app_empty_r in H. rewrite H; [reflexivity| |exact I].
  pose proof (size_le_length v). lia.
Qed.
End JSONFacts.

(** * The cache store and the credential store *)

Module StoreFacts.
Import Js LocalStorage Store Spec.

Lemma prefix_app (p s : string) : String.prefix p (p +:+ s) = true.
Proof.
  induction p as [|c p IH]; [destruct s; reflexivity|].
  rewrite JSONFacts.app_cons. cbn [String.prefix].
  destruct (ascii_dec c c); [exact IH|congruence].
Qed.

Lemma isCacheKey_prefix (k : string) : isCacheKey k = String.prefix PREFIX k.
Proof. unfold isCacheKey. destruct k; reflexivity. Qed.

Lemma isCacheKey_keyFor (x : string) : isCacheKey (keyFor x) = true.
Proof. rewrite isCacheKey_prefix. apply prefix_app. Qed.

Lemma keyFor_inj (a b : string) : keyFor a = keyFor b -> a = b.
Proof. unfold keyFor. apply String.app_inj. Qed.

Lemma issuesKey_inj (p q : string) : issuesKey p = issuesKey q -> p = q.
Proof. intros H. apply keyFor_inj in H. revert H. apply String.app_inj. Qed.

Lemma timelogsKey_inj (p q : string) : timelogsKey p = timelogsKey q -> p = q.
Proof. intros H. apply keyFor_inj in H. revert H. apply String.app_inj. Qed.

Lemma issuesKey_not_projects (p : string) : issuesKey p <> keyFor "projects".
Proof. intros H. apply keyFor_inj in H. discriminate H. Qed.

Lemma issuesKey_not_timelogs (p m : string) : issuesKey p <> timelogsKey m.
Proof. intros H. apply keyFor_inj in H. discriminate H. Qed.

Lemma timelogsKey_not_projects (m : string) : timelogsKey m <> keyFor "projects".
Proof. intros H. apply keyFor_inj in H. discriminate H. Qed.

(** The loop of [clearAll], over any list of keys. *)
Lemma clear_loop_lookup (ks : list string) (m : gmap string string) (k : string) :
  fold_left (fun acc k0 => if isCacheKey k0 then removeItem k0 acc else acc) ks m !! k
  = if isCacheKey k && bool_decide (k ∈ ks) then None else m !! k.
Proof.
  revert m. induction ks as [|k0 ks IH]; intros m; cbn [fold_left].
  - rewrite bool_decide_eq_false_2 by apply not_elem_of_nil.
    rewrite andb_false_r. reflexivity.
  - rewrite IH. destruct (isCacheKey k) eqn:Hk; cbn [andb]; [|
      destruct (isCacheKey k0) eqn:Hk0; [|reflexivity];
      unfold removeItem; rewrite lookup_delete_ne; [reflexivity|congruence]].
    destruct (decide (k = k0)) as [->|Hne].
    + rewrite (bool_decide_eq_true_2 (k0 ∈ k0 :: ks)) by (apply elem_of_cons; left; reflexivity).
      rewrite Hk. unfold removeItem. rewrite lookup_delete_eq.
      destruct (bool_decide (k0 ∈ ks)); reflexivity.
    + assert (E : bool_decide (k ∈ k0 :: ks) = bool_decide (k ∈ ks)).
      { apply bool_decide_ext. rewrite elem_of_cons. tauto. }
      rewrite E. destruct (bool_decide (k ∈ ks)); [reflexivity|].
      destruct (isCacheKey k0); [|reflexivity].
      unfold removeItem. rewrite lookup_delete_ne by congruence. reflexivity.
Qed.

Lemma clearAll_lookup (st : gmap string string) (k : string) :
  clearAll st !! k = if isCacheKey k then None else st !! k.
Proof.
  unfold clearAll. rewrite clear_loop_lookup.
  destruct (isCacheKey k); [|reflexivity]. cbn [andb].
  destruct (bool_decide (k ∈ keys st)) eqn:E; [reflexivity|].
  apply bool_decide_eq_false_1 in E.
  destruct (st !! k) as [v|] eqn:Hk; [|reflexivity].
  exfalso. apply E. unfold keys. apply list_elem_of_fmap.
  exists (k, v). split; [reflexivity|]. apply elem_of_map_to_list. exact Hk.
Qed.

(** The three getters read [cached] under their key and never throw. *)
Lemma read_cached (key : string) (st : gmap string string) :
  tryCatch
    (let v := getItem key st in
     let! parsed := safeParse v in
     Normal (JSON.or_else parsed JSON.Null))
    (fun _ => Normal JSON.Null)
  = Normal (cached key st).
Proof.
  unfold cached, getItem, safeParse, JSON_parse.
  destruct (st !! key) as [text|]; cbn.
  - destruct (JSON.parseText text); reflexivity.
  - reflexivity.
Qed.

Lemma getProjects_cached st : getProjects st = Normal (cached (keyFor "projects") st).
Proof. apply read_cached. Qed.

Lemma getIssues_cached p st : getIssues p st = Normal (cached (issuesKey p) st).
Proof. apply read_cached. Qed.

Lemma getTimeLogs_cached m st : getTimeLogs m st = Normal (cached (timelogsKey m) st).
Proof. apply read_cached. Qed.

Lemma cached_ext key st st' : st !! key = st' !! key -> cached key st = cached key st'.
Proof. unfold cached. intros ->. reflexivity. Qed.

Lemma cached_absent key st : st !! key = None -> cached key st = JSON.Null.
Proof. unfold cached. intros ->. reflexivity. Qed.

Lemma cached_unreadable key st : unreadable key st -> cached key st = JSON.Null.
Proof.
  unfold cached. intros [->|(text & -> & ->)]; reflexivity.
Qed.

Lemma cached_stored key (items : list JSON.value) st :
  cached key (setItem key (JSON.stringify (JSON.or_else (JSON.Arr items) (JSON.Arr []))) st)
  = JSON.Arr items.
Proof.
  unfold cached, setItem. rewrite lookup_insert_eq.
  change (JSON.or_else (JSON.Arr items) (JSON.Arr [])) with (JSON.Arr items).
  rewrite JSONFacts.parseText_stringify. reflexivity.
Qed.

Lemma cached_clearAll key st :
  isCacheKey key = true -> cached key (clearAll st) = JSON.Null.
Proof. intros H. apply cached_absent. rewrite clearAll_lookup, H. reflexivity. Qed.

End StoreFacts.

(** * Date texts name their day *)

Module IsoFacts.
Import Time Calendar JSONFacts.

(** Two texts with equally long tails are equal part by part. *)
Lemma app_inj_tail (a a' b b' : string) :
  String.length b = String.length b' -> a +:+ b = a' +:+ b' -> a = a' /\ b = b'.
Proof.
  intros Hlen. revert a'. induction a as [|c a IH]; intros [|c' a'] E.
  - rewrite !app_empty in E. auto.
  - exfalso. apply (f_equal String.length) in E.
    rewrite app_empty, app_cons in E. cbn [String.length] in E.
    rewrite length_app in E. lia.
  - exfalso. apply (f_equal String.length) in E.
    rewrite app_empty, app_cons in E. cbn [String.length] in E.
    rewrite length_app in E. lia.
  - rewrite !app_cons in E. injection E as -> E.
    destruct (IH a' E) as [-> ->]. auto.
Qed.

(** Leading zeros do not change the value of a run of digits. *)
Lemma digitsValue_zeros (n : nat) (s : string) (v : Z) :
  digitsValue s = Some v -> digitsValue (repeatChar n "0" +:+ s) = Some v.
Proof.
  intros H. induction n as [|n IH]; [exact H|].
  cbn [repeatChar]. rewrite app_cons.
  unfold digitsValue in IH |- *. cbn [NilEmpty.uint_of_string].
  destruct (repeatChar n "0" +:+ s) as [|c r] eqn:E; [discriminate IH|].
  destruct (NilEmpty.uint_of_string (String c r)) as [u|]; [|discriminate IH].
  cbn in IH |- *. exact IH.
Qed.

Lemma numToString_nonneg_head (n : Z) :
  0 <= n -> exists c s, numToString n = String c s /\ JSON.isDigit c = true.
Proof.
  intros Hn. destruct n as [|p|p]; [exists "0"%char, EmptyString; auto| |lia].
  rewrite numToString_pos.
  destruct (string_of_uint_nonempty (Pos.to_uint p)) as (c & ds & E).
  { apply DecimalPos.Unsigned.to_uint_nonnil. }
  pose proof (allDigits_uint0 (Pos.to_uint p)) as Hd. rewrite E in Hd |- *.
  exists c, ds. split; [reflexivity|apply Hd].
Qed.

Lemma digitsValue_numToString (n : Z) : 0 <= n -> digitsValue (numToString n) = Some n.
Proof.
  intros Hn. destruct n as [|p|p]; [reflexivity| |lia].
  pose proof (parseDigits_pos p) as Hp. rewrite numToString_pos.
  unfold digitsValue, NilZero.uint_of_string in *.
  destruct (NilZero.string_of_uint (Pos.to_uint p)); [discriminate Hp|].
  rewrite Hp. cbn [option_map]. rewrite of_uint_pos. reflexivity.
Qed.

Lemma digitsValue_padStart (k : nat) (n : Z) :
  0 <= n -> digitsValue (padStart k "0" (numToString n)) = Some n.
Proof. intros Hn. apply digitsValue_zeros, digitsValue_numToString, Hn. Qed.

Lemma padStart_head (k : nat) (n : Z) :
  0 <= n ->
  exists c s, padStart k "0" (numToString n) = String c s /\ JSON.isDigit c = true.
Proof.
  intros Hn. unfold padStart.
  destruct (k - String.length (numToString n))%nat as [|j].
  - apply numToString_nonneg_head, Hn.
  - cbn [repeatChar]. rewrite app_cons. eauto.
Qed.

(** Reading a year back. *)
Lemma isoYear_value (y : Z) :
  match isoYear y with
  | String c r =>
      if Ascii.eqb c "-" then option_map Z.opp (digitsValue r)
      else if Ascii.eqb c "+" then digitsValue r
      else digitsValue (String c r)
  | EmptyString => None
  end = Some y.
Proof.
  unfold isoYear. destruct (Z.leb_spec 0 y) as [H0|H0]; cbn [andb].
  - destruct (Z.leb_spec y 9999) as [H1|H1].
    + destruct (padStart_head 4 y H0) as (c & s & E & Hc).
      pose proof (digitsValue_padStart 4 y H0) as Hv. rewrite E in Hv |- *.
      destruct (Ascii.eqb_spec c "-") as [->|]; [discriminate Hc|].
      destruct (Ascii.eqb_spec c "+") as [->|]; [discriminate Hc|]. exact Hv.
    + destruct (Z.ltb_spec y 0); [lia|].
      change (Ascii.eqb "+" "-") with false. change (Ascii.eqb "+" "+") with true.
      cbv iota. apply digitsValue_padStart, H0.
  - destruct (Z.ltb_spec y 0); [|lia].
    change (Ascii.eqb "-" "-") with true. cbv iota.
    rewrite digitsValue_padStart by lia. cbn [option_map]. f_equal. lia.
Qed.

Lemma isoYear_inj (y y' : Z) : isoYear y = isoYear y' -> y = y'.
Proof.
  intros E. pose proof (isoYear_value y) as H. rewrite E, isoYear_value in H.
  congruence.
Qed.

(** A number below 100 padded to two digits. *)
Definition twoDigits (n : Z) : string := padStart 2 "0" (numToString n).

Lemma below (f : Z -> bool) (bound : nat) :
  forallb (fun k => f (Z.of_nat k)) (seq 0 bound) = true ->
  forall n, 0 <= n < Z.of_nat bound -> f n = true.
Proof.
  intros H n Hn. rewrite forallb_forall in H.
  specialize (H (Z.to_nat n)). rewrite Z2Nat.id in H by lia.
  apply H, in_seq. lia.
Qed.

Lemma twoDigits_length (n : Z) : 0 <= n < 100 -> String.length (twoDigits n) = 2%nat.
Proof.
  intros Hn. apply Nat.eqb_eq.
  apply (below (fun n => Nat.eqb (String.length (twoDigits n)) 2) 100); [|exact Hn].
  vm_compute. reflexivity.
Qed.

Lemma twoDigits_inj (n n' : Z) : 0 <= n -> 0 <= n' -> twoDigits n = twoDigits n' -> n = n'.
Proof.
  intros Hn Hn' E. pose proof (digitsValue_padStart 2 n Hn) as H.
  fold (twoDigits n) in H. rewrite E in H. unfold twoDigits in H.
  rewrite digitsValue_padStart in H by exact Hn'. congruence.
Qed.

(** The text of a day names that day and no other. *)
Lemma isoDateText_inj (a b : Z) : isoDateText a = isoDateText b -> a = b.
Proof.
  unfold isoDateText. intros E. apply civilFromDays_inj.
  pose proof (civilFromDays_range a) as [Hma Hda].
  pose proof (civilFromDays_range b) as [Hmb Hdb].
  destruct (civilFromDays a) as [[y m] d]. destruct (civilFromDays b) as [[y' m'] d'].
  cbn [fst snd] in *. fold (twoDigits m) (twoDigits d) (twoDigits m') (twoDigits d') in E.
  assert (Hlen : forall u v : Z, 0 <= u < 100 -> 0 <= v < 100 ->
            String.length ("-" +:+ twoDigits u +:+ "-" +:+ twoDigits v) = 6%nat).
  { intros u v Hu Hv. rewrite app_cons, app_empty. cbn [String.length].
    rewrite length_app, app_cons, app_empty. cbn [String.length].
    rewrite !twoDigits_length by assumption. reflexivity. }
  apply app_inj_tail in E as [Ey E]; [|rewrite !Hlen by lia; reflexivity].
  apply isoYear_inj in Ey. rewrite !app_cons, !app_empty in E. injection E as E.
  apply app_inj_tail in E as [Em E];
    [|cbn [String.length]; rewrite !twoDigits_length by lia; reflexivity].
  injection E as E. apply twoDigits_inj in Em, E; try lia. congruence.
Qed.

Lemma toISODate_inj (a b : Z) :
  toISODate a = toISODate b -> a / msPerDay = b / msPerDay.
Proof. apply isoDateText_inj. Qed.

End IsoFacts.

(** * Dates and weeks *)

Module TimeFacts.
Import Time Calendar App WeekSpec IsoFacts.

Lemma msPerDay_pos : 0 < msPerDay.
Proof. reflexivity. Qed.

Ltac days := unfold addDays, setHoursZero, localDay, utcDay, midnight, getDay,
  msPerDay in *; Z.to_euclidean_division_equations; lia.

Section Zone.

Variable tz : Z.

(** The two date steps of the code, as day arithmetic. *)
Lemma setDate_back (t k : Z) : setDate tz t (getDate tz t - k) = addDays t (- k).
Proof.
  replace (getDate tz t - k) with (getDate tz t + - k) by lia.
  apply setDate_getDate.
Qed.

Lemma setDate_week (t : Z) : setDate tz t (getDate tz t + 7) = addDays t 7.
Proof. apply setDate_getDate. Qed.

Lemma localDay_setHoursZero t : localDay tz (setHoursZero tz t) = localDay tz t.
Proof. days. Qed.

Lemma setHoursZero_bounds t : setHoursZero tz t <= t < setHoursZero tz t + msPerDay.
Proof. days. Qed.

Lemma midnight_setHoursZero t : midnight tz (setHoursZero tz t).
Proof. days. Qed.

Lemma midnight_addDays t k : midnight tz t -> midnight tz (addDays t k).
Proof.
  unfold midnight, addDays. intros H.
  replace (t + k * msPerDay + tz) with (t + tz + k * msPerDay) by lia.
  rewrite Z.mod_add by (unfold msPerDay; lia). exact H.
Qed.

Lemma localDay_addDays t k : localDay tz (addDays t k) = localDay tz t + k.
Proof.
  unfold localDay, addDays.
  replace (t + k * msPerDay + tz) with (t + tz + k * msPerDay) by lia.
  apply Z.div_add. unfold msPerDay; lia.
Qed.

Lemma utcDay_addDays t k : utcDay (addDays t k) = utcDay t + k.
Proof. unfold utcDay, addDays. apply Z.div_add. unfold msPerDay; lia. Qed.

Lemma midnight_eq t : midnight tz t -> t = localDay tz t * msPerDay - tz.
Proof. days. Qed.

Lemma setHoursZero_midnight t : midnight tz t -> setHoursZero tz t = t.
Proof. days. Qed.

Lemma getDay_range t : 0 <= getDay tz t < 7.
Proof. unfold getDay. apply Z.mod_pos_bound. lia. Qed.

Lemma midnight_makeDate y m d : midnight tz (makeDate tz y m d).
Proof.
  unfold midnight, makeDate.
  match goal with |- (?a * msPerDay - tz + tz) mod _ = 0 =>
    replace (a * msPerDay - tz + tz) with (a * msPerDay) by lia end.
  apply Z.mod_mul. unfold msPerDay; lia.
Qed.

Lemma toISODate_utcDay a b : toISODate a = toISODate b <-> utcDay a = utcDay b.
Proof.
  split; [apply toISODate_inj|]. unfold toISODate, utcDay. intros ->. reflexivity.
Qed.

(** Two local midnights with the same date text are the same instant. *)
Lemma toISODate_midnight_inj a b :
  midnight tz a -> midnight tz b -> toISODate a = toISODate b -> a = b.
Proof. intros Ha Hb E. apply toISODate_utcDay in E. days. Qed.

(** The code goes back to Monday by as many days as [mondayOf]. *)
Lemma monday_steps t :
  addDays (setHoursZero tz t)
    (- (if getDay tz (setHoursZero tz t) =? 0 then 6
        else getDay tz (setHoursZero tz t) - 1))
  = mondayOf tz t.
Proof.
  unfold mondayOf, getDay. rewrite localDay_setHoursZero.
  unfold addDays, setHoursZero.
  assert (E : (if (localDay tz t + 4) mod 7 =? 0 then 6 else (localDay tz t + 4) mod 7 - 1)
              = (localDay tz t + 3) mod 7).
  { destruct (Z.eqb_spec ((localDay tz t + 4) mod 7) 0);
      Z.to_euclidean_division_equations; lia. }
  rewrite E. lia.
Qed.

Lemma getWeekKey_mondayOf t : getWeekKey tz t = toISODate (mondayOf tz t).
Proof. unfold getWeekKey. rewrite setDate_back, monday_steps. reflexivity. Qed.

Lemma mondayOf_aligned t : mondayAligned tz (mondayOf tz t).
Proof.
  unfold mondayAligned, mondayOf, midnight, getDay, localDay. split.
  - match goal with |- (?a * msPerDay - tz + tz) mod _ = 0 =>
      replace (a * msPerDay - tz + tz) with (a * msPerDay) by lia end.
    apply Z.mod_mul. unfold msPerDay; lia.
  - match goal with |- ((?a * msPerDay - tz + tz) / _ + 4) mod 7 = 1 =>
      replace (a * msPerDay - tz + tz) with (a * msPerDay) by lia end.
    rewrite Z.div_mul by (unfold msPerDay; lia).
    Z.to_euclidean_division_equations; lia.
Qed.

Lemma mondayOf_bounds t : mondayOf tz t <= t < mondayOf tz t + 7 * msPerDay.
Proof.
  unfold mondayOf. pose proof (Z.mod_pos_bound (localDay tz t + 3) 7 ltac:(lia)) as Hr.
  pose proof (setHoursZero_bounds t) as Hb. unfold setHoursZero in Hb.
  unfold msPerDay in *. lia.
Qed.

Lemma aligned_grid x y :
  (x + 4) mod 7 = 1 -> (y + 4) mod 7 = 1 -> y <= x + 6 ->
  exists i, 0 <= i /\ x = y + 7 * i.
Proof.
  intros Hx Hy Hxy. exists ((x - y) / 7).
  Z.to_euclidean_division_equations; lia.
Qed.

Lemma midnight_le a b :
  midnight tz a -> midnight tz b -> (a <= b <-> localDay tz a <= localDay tz b).
Proof.
  intros Ha Hb. apply midnight_eq in Ha, Hb.
  rewrite Ha at 1. rewrite Hb at 1. unfold msPerDay. lia.
Qed.

(** The week of [t] has one Monday-aligned start. *)
Lemma mondayOf_unique w t :
  mondayAligned tz w -> w <= t < w + 7 * msPerDay -> mondayOf tz t = w.
Proof.
  intros [Hm Hd] Hw.
  destruct (mondayOf_aligned t) as [Hm' Hd'].
  pose proof (mondayOf_bounds t) as Hb.
  pose proof (midnight_eq _ Hm) as Ew. pose proof (midnight_eq _ Hm') as EM.
  assert (H1 : localDay tz w <= localDay tz (mondayOf tz t) + 6)
    by (unfold msPerDay in *; lia).
  assert (H2 : localDay tz (mondayOf tz t) <= localDay tz w + 6)
    by (unfold msPerDay in *; lia).
  destruct (aligned_grid _ _ Hd Hd' H2) as (i & Hi & Ei).
  destruct (aligned_grid _ _ Hd' Hd H1) as (j & Hj & Ej).
  rewrite Ew, EM. f_equal. f_equal. lia.
Qed.

End Zone.

End TimeFacts.

Module ObjFacts.

Section Obj.

Context {V : Type}.

Implicit Types (o : list (string * V)) (k : string) (v : V).

Lemma get_None o k : Obj.get o k = None <-> ~ In k (Obj.keys o).
Proof.
  induction o as [|[k' v'] o IH]; cbn; [tauto|].
  destruct (String.eqb_spec k' k); [split; [discriminate|tauto]|].
  rewrite IH. tauto.
Qed.

Lemma get_Some_In o k v : Obj.get o k = Some v -> In (k, v) o.
Proof.
  induction o as [|[k' v'] o IH]; cbn; [discriminate|].
  destruct (String.eqb_spec k' k) as [->|]; [intros [= ->]; auto|auto].
Qed.

Lemma In_get o k v : NoDup (Obj.keys o) -> In (k, v) o -> Obj.get o k = Some v.
Proof.
  induction o as [|[k' v'] o IH]; cbn; [tauto|].
  intros Hnd. apply NoDup_cons in Hnd as [Hk Hnd]. intros [[= -> ->]|Hin].
  - rewrite String.eqb_refl. reflexivity.
  - destruct (String.eqb_spec k' k) as [->|]; [|auto].
    exfalso. apply Hk. apply list_elem_of_In. apply (in_map fst) in Hin. exact Hin.
Qed.

Lemma get_set_eq o k v : Obj.get (Obj.set o k v) k = Some v.
Proof.
  induction o as [|[k' v'] o IH]; cbn; [rewrite String.eqb_refl; reflexivity|].
  destruct (String.eqb_spec k' k) as [->|Hne]; cbn.
  - rewrite String.eqb_refl. reflexivity.
  - destruct (String.eqb_spec k' k); [contradiction|exact IH].
Qed.

Lemma set_set o k v1 v2 : Obj.set (Obj.set o k v1) k v2 = Obj.set o k v2.
Proof.
  induction o as [|[k' v'] o IH]; cbn; [rewrite String.eqb_refl; reflexivity|].
  destruct (String.eqb_spec k' k) as [->|Hne]; cbn.
  - rewrite String.eqb_refl. reflexivity.
  - destruct (String.eqb_spec k' k); [contradiction|]. rewrite IH. reflexivity.
Qed.

(** Assigning a new property appends it. *)
Lemma set_absent o k v : ~ In k (Obj.keys o) -> Obj.set o k v = o ++ [(k, v)].
Proof.
  induction o as [|[k' v'] o IH]; cbn; [reflexivity|]. intros Hk.
  destruct (String.eqb_spec k' k) as [->|Hne]; [tauto|].
  rewrite IH by tauto. reflexivity.
Qed.

(** Assigning an existing property rewrites it where it stands. *)
Lemma set_present o k v :
  NoDup (Obj.keys o) -> In k (Obj.keys o) ->
  Obj.set o k v = map (fun kv => if String.eqb (fst kv) k then (k, v) else kv) o.
Proof.
  induction o as [|[k' v'] o IH]; cbn; [tauto|].
  intros Hnd. apply NoDup_cons in Hnd as [Hk Hnd]. intros Hin.
  destruct (String.eqb_spec k' k) as [->|Hne].
  - f_equal. rewrite <- (map_id o) at 1. apply map_ext_in.
    intros [k0 v0] H0. cbn. destruct (String.eqb_spec k0 k) as [->|]; [|reflexivity].
    exfalso. apply Hk. apply list_elem_of_In. apply (in_map fst) in H0. exact H0.
  - f_equal. apply IH; [exact Hnd|]. destruct Hin; [congruence|assumption].
Qed.

Lemma keys_set_absent o k v :
  ~ In k (Obj.keys o) -> Obj.keys (Obj.set o k v) = Obj.keys o ++ [k].
Proof.
  intros H. rewrite set_absent by exact H. unfold Obj.keys. rewrite map_app. reflexivity.
Qed.

Lemma keys_set_present o k v :
  In k (Obj.keys o) -> Obj.keys (Obj.set o k v) = Obj.keys o.
Proof.
  induction o as [|[k' v'] o IH]; cbn; [tauto|].
  destruct (String.eqb_spec k' k) as [->|Hne]; cbn; [reflexivity|].
  intros [?|Hin]; [contradiction|]. f_equal. apply IH, Hin.
Qed.

Lemma NoDup_keys_set o k v : NoDup (Obj.keys o) -> NoDup (Obj.keys (Obj.set o k v)).
Proof.
  intros Hnd. destruct (in_dec string_dec k (Obj.keys o)) as [Hin|Hin].
  - rewrite keys_set_present by exact Hin. exact Hnd.
  - rewrite keys_set_absent by exact Hin.
    apply NoDup_ListNoDup, List.NoDup_app; repeat split.
    + apply NoDup_ListNoDup, Hnd.
    + repeat constructor. intros [].
    + intros x Hx [<-|[]]. contradiction.
Qed.

Lemma In_set o k v k' v' :
  NoDup (Obj.keys o) ->
  In (k', v') (Obj.set o k v) <-> (k' = k /\ v' = v) \/ (k' <> k /\ In (k', v') o).
Proof.
  intros Hnd.
  destruct (in_dec string_dec k (Obj.keys o)) as [Hin|Hin].
  - rewrite set_present by assumption. rewrite in_map_iff. split.
    + intros ([k0 v0] & E & H0). cbn in E.
      destruct (String.eqb_spec k0 k) as [->|Hne]; injection E as <- <-; auto.
    + intros [[-> ->]|[Hne H0]].
      * apply in_map_iff in Hin as ([k0 v0] & E & H0). cbn in E. subst k0.
        exists (k, v0). cbn. rewrite String.eqb_refl. auto.
      * exists (k', v'). cbn. destruct (String.eqb_spec k' k); [contradiction|auto].
  - rewrite set_absent by assumption. rewrite in_app_iff. cbn. split.
    + intros [H0|[[= <- <-]|[]]]; [|auto]. right. split; [|exact H0].
      intros ->. apply Hin. apply (in_map fst) in H0. exact H0.
    + intros [[-> ->]|[_ H0]]; auto.
Qed.

Lemma values_In o v : In v (Obj.values o) <-> exists k, In (k, v) o.
Proof.
  unfold Obj.values. rewrite in_map_iff. split.
  - intros ([k v'] & <- & H). eauto.
  - intros (k & H). exists (k, v). auto.
Qed.

End Obj.

End ObjFacts.

Module SortFacts.

Section Sort.

Context {A : Type}.

Variable compareFn : A -> A -> Z.

(** The comparison orders the elements by an integer rank. *)
Variable rank : A -> Z.

Hypothesis compare_rank : forall a b, compareFn a b <= 0 <-> rank a <= rank b.

Lemma insert_perm x l : Permutation (Arr.insert compareFn x l) (x :: l).
Proof.
  induction l as [|y l IH]; cbn; [reflexivity|].
  destruct (compareFn x y <=? 0); [reflexivity|].
  rewrite IH. apply perm_swap.
Qed.

Lemma sort_perm l : Permutation (Arr.sort compareFn l) l.
Proof.
  induction l as [|x l IH]; cbn; [reflexivity|].
  unfold Arr.sort in IH. rewrite insert_perm, IH. reflexivity.
Qed.

Lemma sort_In x l : In x (Arr.sort compareFn l) <-> In x l.
Proof.
  split; intros H; apply list_elem_of_In; apply list_elem_of_In in H;
    [rewrite <- sort_perm|rewrite sort_perm]; exact H.
Qed.

Lemma insert_sorted x l :
  StronglySorted (fun a b => rank a <= rank b) l ->
  StronglySorted (fun a b => rank a <= rank b) (Arr.insert compareFn x l).
Proof.
  induction 1 as [|y l Hs IH Hy]; cbn; [repeat constructor|].
  destruct (Z.leb_spec (compareFn x y) 0) as [Hle|Hgt].
  - apply compare_rank in Hle. constructor; [constructor; assumption|].
    constructor; [exact Hle|]. rewrite List.Forall_forall in Hy |- *.
    intros z Hz. specialize (Hy z Hz). lia.
  - assert (Hyx : rank y <= rank x).
    { destruct (Z.le_gt_cases (rank x) (rank y)) as [H|H]; [|lia].
      apply compare_rank in H. lia. }
    constructor; [exact IH|]. rewrite List.Forall_forall in Hy |- *.
    intros z Hz. apply list_elem_of_In in Hz. rewrite insert_perm in Hz.
    apply list_elem_of_In in Hz. destruct Hz as [<-|Hz]; auto.
Qed.

Lemma sort_sorted l :
  StronglySorted (fun a b => rank a <= rank b) (Arr.sort compareFn l).
Proof.
  induction l as [|x l IH]; cbn; [constructor|]. apply insert_sorted, IH.
Qed.

End Sort.

End SortFacts.

(** * The week buckets *)

Module AppFacts.
Import Time Calendar App WeekSpec IsoFacts TimeFacts ObjFacts.

(** ** The generated week starts *)

Lemma weekStartsUpTo_stop bound c : bound < c -> weekStartsUpTo bound c = [].
Proof.
  intros H. unfold weekStartsUpTo. destruct (Z.leb_spec c bound); [lia|reflexivity].
Qed.

Lemma weekStartsUpTo_step bound c :
  c <= bound -> weekStartsUpTo bound c = c :: weekStartsUpTo bound (addDays c 7).
Proof.
  intros H. unfold weekStartsUpTo at 1. destruct (Z.leb_spec c bound); [|lia].
  assert (E : weeksLeft bound c
              = S (if addDays c 7 <=? bound then weeksLeft bound (addDays c 7) else O)).
  { unfold weeksLeft, addDays, msPerDay.
    destruct (Z.leb_spec (c + 7 * 86400000) bound).
    - rewrite <- Z2Nat.inj_succ by (Z.to_euclidean_division_equations; lia).
      f_equal. Z.to_euclidean_division_equations; lia.
    - change 1%nat with (Z.to_nat 1). f_equal.
      Z.to_euclidean_division_equations; lia. }
  rewrite E. reflexivity.
Qed.

Lemma weeksFrom_In n c w :
  In w (weeksFrom n c) <-> exists i, (i < n)%nat /\ w = addDays c (7 * Z.of_nat i).
Proof.
  revert c. induction n as [|n IH]; intros c; cbn.
  - split; [tauto|]. intros (i & Hi & _). lia.
  - rewrite IH. split.
    + intros [<-|(i & Hi & ->)].
      * exists O. split; [lia|]. unfold addDays. lia.
      * exists (S i). split; [lia|]. unfold addDays. lia.
    + intros ([|i] & Hi & ->).
      * left. unfold addDays. lia.
      * right. exists i. split; [lia|]. unfold addDays. lia.
Qed.

Lemma weekStartsUpTo_In bound c w :
  In w (weekStartsUpTo bound c)
  <-> w <= bound /\ exists i, 0 <= i /\ w = addDays c (7 * i).
Proof.
  unfold weekStartsUpTo. rewrite weeksFrom_In.
  destruct (Z.leb_spec c bound) as [Hle|Hgt].
  - split.
    + intros (i & Hi & ->). split; [|exists (Z.of_nat i); split; [lia|reflexivity]].
      unfold weeksLeft, addDays, msPerDay in *.
      apply Nat2Z.inj_lt in Hi. rewrite Z2Nat.id in Hi
        by (Z.to_euclidean_division_equations; lia).
      Z.to_euclidean_division_equations; lia.
    + intros (Hw & i & Hi & ->). exists (Z.to_nat i). rewrite Z2Nat.id by lia.
      split; [|reflexivity]. unfold weeksLeft, addDays, msPerDay in *.
      apply Nat2Z.inj_lt. rewrite !Z2Nat.id
        by (Z.to_euclidean_division_equations; lia).
      Z.to_euclidean_division_equations; lia.
  - split; [intros (i & Hi & _); lia|].
    intros (Hw & i & Hi & ->). unfold addDays, msPerDay in *. lia.
Qed.

Lemma weeksFrom_sorted n c : StronglySorted Z.lt (weeksFrom n c).
Proof.
  revert c. induction n as [|n IH]; intros c; cbn; constructor; [apply IH|].
  apply List.Forall_forall. intros w Hw. apply weeksFrom_In in Hw as (i & _ & ->).
  unfold addDays, msPerDay. lia.
Qed.

Lemma sorted_lt_NoDup (l : list Z) : StronglySorted Z.lt l -> NoDup l.
Proof.
  induction 1 as [|x l Hs IH Hx]; constructor; [|exact IH].
  intros Hin. apply list_elem_of_In in Hin.
  rewrite List.Forall_forall in Hx. specialize (Hx x Hin). lia.
Qed.

(** The keys of the generated weeks are the texts of increasing days. *)
Lemma weeksFrom_days_sorted n c : StronglySorted Z.lt (map utcDay (weeksFrom n c)).
Proof.
  revert c. induction n as [|n IH]; intros c; cbn; constructor; [apply IH|].
  apply List.Forall_forall. intros k Hk. apply in_map_iff in Hk as (w & <- & Hw).
  apply weeksFrom_In in Hw as (i & _ & ->).
  rewrite !utcDay_addDays. lia.
Qed.

Lemma NoDup_texts (l : list Z) : NoDup (map utcDay l) -> NoDup (map toISODate l).
Proof.
  induction l as [|w l IH]; cbn [map]; intros H; [constructor|].
  apply NoDup_cons in H as [Hw Hl]. constructor; [|apply IH, Hl].
  intros Hin. apply Hw. apply list_elem_of_In in Hin.
  apply in_map_iff in Hin as (w' & E & Hw').
  apply toISODate_utcDay in E. rewrite <- E.
  apply list_elem_of_In, in_map, Hw'.
Qed.

Lemma weeksFrom_keys n c : NoDup (map toISODate (weeksFrom n c)).
Proof. apply NoDup_texts, sorted_lt_NoDup, weeksFrom_days_sorted. Qed.

(** ** The seeding loop *)

Section WeekLoop.

Variable nextWeek : Z -> Z.

Hypothesis nextWeek_days : forall c, nextWeek c = c + 7 * msPerDay.

Lemma seedWeeksBy_spec lastDay now c weeks :
  (forall k, In k (Obj.keys weeks) -> exists t, k = toISODate t /\ utcDay t < utcDay c) ->
  seedWeeksBy nextWeek nextWeek_days lastDay now c weeks
  = weeks ++ map emptyWeek (weekStartsUpTo (Z.min lastDay now) c).
Proof.
  funelim (seedWeeksBy nextWeek nextWeek_days lastDay now c weeks); intros Hkeys.
  - rewrite weekStartsUpTo_step by lia. cbn [map].
    assert (Hfresh : ~ In (toISODate currentWeekStart) (Obj.keys weeks)).
    { intros Hin. apply Hkeys in Hin as (t & E & Ht).
      apply toISODate_utcDay in E. lia. }
    rewrite set_absent in * by exact Hfresh.
    assert (Enext : nextWeek currentWeekStart = addDays currentWeekStart 7)
      by apply nextWeek_days.
    rewrite Enext in *.
    match goal with IH : _ -> seedWeeksBy _ _ _ _ _ _ = _ |- _ => rewrite IH end.
    + rewrite <- app_assoc. reflexivity.
    + intros k Hk. unfold Obj.keys in Hk. rewrite map_app, in_app_iff in Hk.
      rewrite utcDay_addDays. destruct Hk as [Hk|[<-|[]]].
      * apply Hkeys in Hk as (t & E & Ht). exists t. split; [exact E|lia].
      * exists currentWeekStart. split; [reflexivity|lia].
  - rewrite weekStartsUpTo_stop by lia. rewrite app_nil_r. reflexivity.
Qed.

End WeekLoop.

Section Zone.

Variable tz : Z.

Lemma midnight_firstDayOfMonth ref : midnight tz (firstDayOfMonth tz ref).
Proof. apply midnight_makeDate. Qed.

Lemma firstWeekStart_mondayOf ref :
  firstWeekStart tz ref = mondayOf tz (firstDayOfMonth tz ref).
Proof.
  unfold firstWeekStart. pose proof (midnight_firstDayOfMonth ref) as HF.
  generalize dependent (firstDayOfMonth tz ref). intros F HF.
  rewrite setDate_back, <- monday_steps, (setHoursZero_midnight tz F HF). reflexivity.
Qed.

Lemma getDay_addWeeks t i : getDay tz (addDays t (7 * i)) = getDay tz t.
Proof.
  unfold getDay. rewrite localDay_addDays.
  replace (localDay tz t + 7 * i + 4) with (localDay tz t + 4 + i * 7) by lia.
  apply Z.mod_add. lia.
Qed.

(** The generated week starts are the Monday-aligned starts of the weeks that
    reach into the month and have begun: the week ends on or after the first
    day, and it starts on or before the last day and on or before today. *)
Lemma generatedWeeks_In ref clock w :
  In w (generatedWeeks tz ref clock)
  <-> mondayAligned tz w /\
      firstDayOfMonth tz ref <= addDays w 6 /\
      w <= lastDayOfMonth tz ref /\
      w <= setHoursZero tz clock.
Proof.
  unfold generatedWeeks. rewrite weekStartsUpTo_In, firstWeekStart_mondayOf.
  generalize (lastDayOfMonth tz ref) (setHoursZero tz clock). intros L today.
  pose proof (midnight_firstDayOfMonth ref) as HF.
  generalize dependent (firstDayOfMonth tz ref). intros F HF.
  destruct (mondayOf_aligned tz F) as [Hm0 Hd0].
  pose proof (mondayOf_bounds tz F) as Hb0.
  generalize dependent (mondayOf tz F). intros W0 Hm0 Hd0 Hb0.
  split.
  - intros (Hle & i & Hi & ->). split; [split|].
    + apply midnight_addDays, Hm0.
    + rewrite getDay_addWeeks. exact Hd0.
    + split; [|lia].
      assert (HFW : F <= addDays W0 6).
      { apply (midnight_le _ _ _ HF (midnight_addDays _ _ 6 Hm0)).
        rewrite localDay_addDays.
        assert (F < addDays W0 7) by (unfold addDays; lia).
        enough (~ localDay tz W0 + 7 <= localDay tz F) by lia. intros Hc.
        rewrite <- (localDay_addDays tz W0 7) in Hc.
        apply (midnight_le _ _ _ (midnight_addDays _ _ 7 Hm0) HF) in Hc. lia. }
      unfold addDays in *. unfold msPerDay in *. lia.
  - intros ([Hm Hd] & HFw & HL & Hnow). split; [lia|].
    assert (Hxy : localDay tz W0 <= localDay tz w + 6).
    { rewrite <- localDay_addDays.
      apply (midnight_le _ _ _ Hm0 (midnight_addDays _ _ 6 Hm)). lia. }
    destruct (aligned_grid _ _ Hd Hd0 Hxy) as (i & Hi & E).
    exists i. split; [exact Hi|].
    apply midnight_eq in Hm, Hm0. rewrite Hm, Hm0 at 1. rewrite E.
    unfold addDays. lia.
Qed.

Lemma seededWeeks_spec ref clock :
  seededWeeks tz ref clock = map emptyWeek (generatedWeeks tz ref clock).
Proof.
  unfold seededWeeks, seedWeeks, generatedWeeks.
  rewrite seedWeeksBy_spec by (intros k []). apply app_nil_l.
Qed.

Lemma generatedWeeks_sorted ref clock : StronglySorted Z.lt (generatedWeeks tz ref clock).
Proof. unfold generatedWeeks, weekStartsUpTo. apply weeksFrom_sorted. Qed.

Lemma generatedWeeks_keys ref clock :
  NoDup (map toISODate (generatedWeeks tz ref clock)).
Proof. unfold generatedWeeks, weekStartsUpTo. apply weeksFrom_keys. Qed.

Lemma keys_emptyWeek (l : list Z) : Obj.keys (map emptyWeek l) = map toISODate l.
Proof. unfold Obj.keys. rewrite map_map. reflexivity. Qed.

Lemma seededWeeks_NoDup ref clock : NoDup (Obj.keys (seededWeeks tz ref clock)).
Proof. rewrite seededWeeks_spec, keys_emptyWeek. apply generatedWeeks_keys. Qed.

(** ** Assigning the entries *)

#[local] Opaque getWeekKey toISODate.

Lemma fold_left_cons {A B} (f : A -> B -> A) x l a :
  fold_left f (x :: l) a = fold_left f l (f a x).
Proof. reflexivity. Qed.

Lemma secondsOf_app l1 l2 : secondsOf (l1 ++ l2) = secondsOf l1 + secondsOf l2.
Proof.
  unfold secondsOf. induction l1 as [|x l1 IH]; cbn [app map fold_right]; lia.
Qed.

Lemma logsOfWeek_cons key log timeLogs :
  logsOfWeek tz key (log :: timeLogs) = logsOfWeek tz key [log] ++ logsOfWeek tz key timeLogs.
Proof. apply (List.filter_app _ [log] timeLogs). Qed.

Lemma offer_one key log w :
  offer tz key w log
  = {| weekStart := weekStart w;
       logs := logs w ++ logsOfWeek tz key [log];
       totalSeconds := totalSeconds w + secondsOf (logsOfWeek tz key [log]) |}.
Proof.
  unfold offer, logsOfWeek, secondsOf. cbn [List.filter].
  destruct (String.eqb (getWeekKey tz (spentAt log)) key).
  - cbn [map fold_right]. rewrite Z.add_0_r. reflexivity.
  - destruct w. cbn [weekStart logs totalSeconds map fold_right].
    rewrite app_nil_r, Z.add_0_r. reflexivity.
Qed.

Lemma offer_other key log w :
  getWeekKey tz (spentAt log) <> key -> offer tz key w log = w.
Proof.
  intros Hne. unfold offer.
  destruct (String.eqb_spec (getWeekKey tz (spentAt log)) key) as [E|_];
    [destruct (Hne E)|reflexivity].
Qed.

Lemma fold_offer key timeLogs w :
  fold_left (offer tz key) timeLogs w
  = {| weekStart := weekStart w;
       logs := logs w ++ logsOfWeek tz key timeLogs;
       totalSeconds := totalSeconds w + secondsOf (logsOfWeek tz key timeLogs) |}.
Proof.
  revert w. induction timeLogs as [|log timeLogs IH]; intros w.
  - destruct w. unfold logsOfWeek, secondsOf.
    cbn [fold_left weekStart logs totalSeconds List.filter map fold_right].
    rewrite app_nil_r, Z.add_0_r. reflexivity.
  - rewrite fold_left_cons, IH, offer_one, (logsOfWeek_cons key log timeLogs), secondsOf_app.
    cbn [weekStart logs totalSeconds]. rewrite <- app_assoc, Z.add_assoc. reflexivity.
Qed.

Lemma kept_cons weeks log timeLogs :
  kept tz weeks (log :: timeLogs) = kept tz weeks [log] ++ kept tz weeks timeLogs.
Proof. apply (List.filter_app _ [log] timeLogs). Qed.

Lemma kept_one_in weeks log :
  In (getWeekKey tz (spentAt log)) (Obj.keys weeks) -> kept tz weeks [log] = [log].
Proof.
  intros Hin. unfold kept. cbn [List.filter].
  rewrite bool_decide_eq_true_2 by (apply list_elem_of_In; exact Hin). reflexivity.
Qed.

Lemma kept_one_out weeks log :
  ~ In (getWeekKey tz (spentAt log)) (Obj.keys weeks) -> kept tz weeks [log] = [].
Proof.
  intros Hin. unfold kept. cbn [List.filter].
  rewrite bool_decide_eq_false_2 by (rewrite list_elem_of_In; exact Hin). reflexivity.
Qed.

Lemma addLog_spec weeks total log :
  NoDup (Obj.keys weeks) ->
  addLog tz (weeks, total) log
  = (map (fun kw => (fst kw, offer tz (fst kw) (snd kw) log)) weeks,
     total + Z.of_nat (length (kept tz weeks [log]))).
Proof.
  intros Hnd. unfold addLog.
  destruct (Obj.get weeks (getWeekKey tz (spentAt log))) as [w|] eqn:Hget.
  - assert (Hin : In (getWeekKey tz (spentAt log)) (Obj.keys weeks)).
    { apply get_Some_In in Hget. apply (in_map fst) in Hget. exact Hget. }
    rewrite (kept_one_in _ _ Hin).
    rewrite set_present by assumption. f_equal. apply map_ext_in.
    intros [k b] Hkb. cbn [fst snd].
    destruct (String.eqb_spec k (getWeekKey tz (spentAt log))) as [->|Hne].
    + apply (In_get _ _ _ Hnd) in Hkb. rewrite Hget in Hkb. injection Hkb as ->.
      unfold offer. rewrite String.eqb_refl. reflexivity.
    + rewrite offer_other by (intros E; apply Hne; symmetry; exact E). reflexivity.
  - apply get_None in Hget.
    rewrite (kept_one_out _ _ Hget).
    cbn [length]. rewrite Z.add_0_r. f_equal.
    rewrite <- (map_id weeks) at 1. apply map_ext_in.
    intros [k b] Hkb. cbn [fst snd].
    rewrite offer_other; [reflexivity|].
    intros E. apply Hget. rewrite E. apply (in_map fst) in Hkb. exact Hkb.
Qed.

Lemma fold_addLog timeLogs weeks total :
  NoDup (Obj.keys weeks) ->
  fold_left (addLog tz) timeLogs (weeks, total)
  = (map (fill tz timeLogs) weeks, total + Z.of_nat (length (kept tz weeks timeLogs))).
Proof.
  revert weeks total. induction timeLogs as [|log timeLogs IH]; intros weeks total Hnd.
  - unfold kept, fill. cbn [fold_left List.filter length Z.of_nat].
    rewrite Z.add_0_r. f_equal. rewrite <- (map_id weeks) at 1.
    apply map_ext. intros [k b]. reflexivity.
  - rewrite fold_left_cons, addLog_spec by exact Hnd.
    assert (Hkeys : Obj.keys (map (fun kw => (fst kw, offer tz (fst kw) (snd kw) log)) weeks)
                    = Obj.keys weeks).
    { unfold Obj.keys. rewrite map_map. reflexivity. }
    rewrite IH by (rewrite Hkeys; exact Hnd). f_equal.
    + rewrite map_map. apply map_ext. intros [k b]. unfold fill. cbn [fst snd].
      rewrite fold_left_cons. reflexivity.
    + rewrite (kept_cons weeks log timeLogs), length_app, Nat2Z.inj_add, Z.add_assoc.
      f_equal. unfold kept. rewrite Hkeys. reflexivity.
Qed.

Lemma fill_emptyWeek timeLogs w :
  snd (fill tz timeLogs (emptyWeek w)) = bucketOf tz timeLogs w.
Proof.
  unfold fill, emptyWeek. cbn [fst snd]. rewrite fold_offer.
  unfold bucketOf. cbn [weekStart logs totalSeconds app]. rewrite Z.add_0_l. reflexivity.
Qed.

(** [groupTimeLogsByWeek] in closed form: one bucket for each generated week,
    holding the entries of that week, sorted most recent week first. *)
Lemma groupTimeLogsByWeek_spec timeLogs ref clock :
  groupTimeLogsByWeek tz timeLogs ref clock
  = (Z.of_nat (length (kept tz (seededWeeks tz ref clock) timeLogs)),
     Arr.sort (fun a b => weekStart b - weekStart a)
       (map (bucketOf tz timeLogs) (generatedWeeks tz ref clock))).
Proof.
  unfold groupTimeLogsByWeek.
  rewrite fold_addLog by apply seededWeeks_NoDup.
  rewrite Z.add_0_l. f_equal. f_equal.
  rewrite seededWeeks_spec. unfold Obj.values. rewrite !map_map.
  apply map_ext. intros w. apply fill_emptyWeek.
Qed.

End Zone.

End AppFacts.

(** * The day groups of a week *)

Module DayFacts.
Import Time App WeekSpec ObjFacts.

#[local] Opaque toISODate.

Lemma addToDay_set o log :
  addToDay o log
  = Obj.set o (toISODate (spentAt log)) (pushDay (Obj.get o (toISODate (spentAt log))) log).
Proof.
  unfold addToDay. generalize (toISODate (spentAt log)) as key. intros key.
  destruct (Obj.get o key) as [d|] eqn:Hget.
  - rewrite Hget. reflexivity.
  - rewrite get_set_eq, set_set. reflexivity.
Qed.

Lemma daysOf_snoc timeLogs log :
  daysOf (timeLogs ++ [log]) = addToDay (daysOf timeLogs) log.
Proof. unfold daysOf. apply fold_left_app. Qed.

Lemma logsOfDay_snoc key timeLogs log :
  logsOfDay key (timeLogs ++ [log])
  = logsOfDay key timeLogs ++ logsOfDay key [log].
Proof. apply List.filter_app. Qed.

Lemma logsOfDay_same log : logsOfDay (toISODate (spentAt log)) [log] = [log].
Proof. unfold logsOfDay. cbn [List.filter]. rewrite String.eqb_refl. reflexivity. Qed.

Lemma logsOfDay_other key log :
  toISODate (spentAt log) <> key -> logsOfDay key [log] = [].
Proof.
  intros Hne. unfold logsOfDay. cbn [List.filter].
  destruct (String.eqb_spec (toISODate (spentAt log)) key) as [E|_];
    [destruct (Hne E)|reflexivity].
Qed.

Lemma logsOfDay_In key timeLogs log :
  In log (logsOfDay key timeLogs) <-> In log timeLogs /\ toISODate (spentAt log) = key.
Proof. unfold logsOfDay. rewrite List.filter_In, String.eqb_eq. reflexivity. Qed.

Lemma filter_none {A : Type} (f : A -> bool) (l : list A) :
  (forall x, In x l -> f x = false) -> List.filter f l = [].
Proof.
  induction l as [|y l IH]; intros H; [reflexivity|]. cbn [List.filter].
  rewrite (H y) by (left; reflexivity). apply IH. intros x Hx. apply H. right. exact Hx.
Qed.

Lemma logsOfDay_none key timeLogs :
  (forall log, In log timeLogs -> toISODate (spentAt log) <> key) ->
  logsOfDay key timeLogs = [].
Proof.
  intros H. unfold logsOfDay. apply filter_none. intros x Hx.
  destruct (String.eqb_spec (toISODate (spentAt x)) key) as [E|]; [|reflexivity].
  destruct (H x Hx E).
Qed.

(** Every day group is filed under the UTC day of its first entry and holds
    the entries of that day; every entry has a group. *)
Lemma daysOf_inv timeLogs :
  NoDup (Obj.keys (daysOf timeLogs)) /\
  (forall k d, In (k, d) (daysOf timeLogs) ->
     toISODate (date d) = k /\ dayLogs d = logsOfDay k timeLogs) /\
  (forall log, In log timeLogs -> In (toISODate (spentAt log)) (Obj.keys (daysOf timeLogs))).
Proof.
  induction timeLogs as [|log timeLogs (Hnd & Hgroups & Hall)] using rev_ind.
  - split; [constructor|]. split; [intros k d []|intros log []].
  - rewrite daysOf_snoc, addToDay_set.
    split; [apply NoDup_keys_set, Hnd|]. split.
    + intros k d Hin. apply In_set in Hin; [|exact Hnd].
      rewrite logsOfDay_snoc.
      destruct Hin as [[-> ->]|[Hne Hin]].
      * rewrite logsOfDay_same.
        destruct (Obj.get (daysOf timeLogs) (toISODate (spentAt log))) as [d|] eqn:Hget;
          unfold pushDay; cbn [date dayLogs].
        -- apply get_Some_In, Hgroups in Hget as [Hdate Hlogs].
           rewrite Hlogs. split; [exact Hdate|reflexivity].
        -- apply get_None in Hget. split; [reflexivity|].
           rewrite logsOfDay_none; [reflexivity|].
           intros x Hx E. apply Hget. rewrite <- E. apply Hall, Hx.
      * rewrite logsOfDay_other by (intros E; apply Hne; symmetry; exact E).
        rewrite app_nil_r. apply Hgroups, Hin.
    + intros x Hx. apply in_app_iff in Hx.
      destruct (in_dec string_dec (toISODate (spentAt log)) (Obj.keys (daysOf timeLogs)))
        as [Hk|Hk].
      * rewrite keys_set_present by exact Hk.
        destruct Hx as [Hx|[<-|[]]]; [apply Hall, Hx|exact Hk].
      * rewrite keys_set_absent by exact Hk. apply in_app_iff.
        destruct Hx as [Hx|[<-|[]]]; [left; apply Hall, Hx|right; left; reflexivity].
Qed.

Lemma sortedDays_In week d :
  In d (sortedDays week) <-> exists k, In (k, d) (daysOf (logs week)).
Proof.
  unfold sortedDays. rewrite SortFacts.sort_In. apply values_In.
Qed.

Lemma count_occ_filter (f : timelog -> bool) (l : list timelog) (x : timelog) :
  f x = true ->
  count_occ timelog_eq_dec (List.filter f l) x = count_occ timelog_eq_dec l x.
Proof.
  intros Hx. induction l as [|y l IH]; [reflexivity|]. cbn [List.filter].
  destruct (f y) eqn:Hy; cbn [count_occ]; destruct (timelog_eq_dec y x) as [->|];
    try rewrite IH; try reflexivity. congruence.
Qed.

(** An entry of a week lies in exactly one of the week's day groups, the one
    of its UTC calendar day, as often as it lies in the week. *)
Lemma sortedDays_unique week log :
  In log (logs week) ->
  exists d,
    In d (sortedDays week) /\
    toISODate (date d) = toISODate (spentAt log) /\
    count_occ timelog_eq_dec (dayLogs d) log = count_occ timelog_eq_dec (logs week) log /\
    forall d', In d' (sortedDays week) -> In log (dayLogs d') -> d' = d.
Proof.
  intros Hlog. destruct (daysOf_inv (logs week)) as (Hnd & Hgroups & Hall).
  specialize (Hall log Hlog).
  destruct (Obj.get (daysOf (logs week)) (toISODate (spentAt log))) as [d|] eqn:Hget;
    [|apply get_None in Hget; contradiction].
  pose proof (get_Some_In _ _ _ Hget) as Hin.
  destruct (Hgroups _ _ Hin) as [Hdate Hlogs].
  exists d. split; [apply sortedDays_In; eauto|]. split; [exact Hdate|]. split.
  - rewrite Hlogs. apply count_occ_filter. apply String.eqb_refl.
  - intros d' Hd' Hlog'. apply sortedDays_In in Hd' as (k & Hk).
    destruct (Hgroups _ _ Hk) as [_ Hlogs']. rewrite Hlogs' in Hlog'.
    apply logsOfDay_In in Hlog' as [_ E]. subst k.
    apply (In_get _ _ _ Hnd) in Hk. congruence.
Qed.

End DayFacts.

(** * Claims about the period aggregator *)

Module PeriodFacts.
Import Time Calendar App WeekSpec IsoFacts TimeFacts ObjFacts SortFacts AppFacts DayFacts.

#[local] Opaque generatedWeeks seededWeeks firstDayOfMonth lastDayOfMonth
  setHoursZero getWeekKey toISODate.

Section Zone.

Variable tz : Z.

Lemma generatedWeeks_aligned ref clock w :
  In w (generatedWeeks tz ref clock) -> mondayAligned tz w.
Proof. intros H. exact (proj1 (proj1 (generatedWeeks_In tz ref clock w) H)). Qed.

(** The buckets of the result are the buckets of the generated weeks. *)
Lemma buckets_perm timeLogs ref clock :
  Permutation (snd (groupTimeLogsByWeek tz timeLogs ref clock))
    (map (bucketOf tz timeLogs) (generatedWeeks tz ref clock)).
Proof. rewrite groupTimeLogsByWeek_spec. apply sort_perm. Qed.

Lemma buckets_In timeLogs ref clock b :
  In b (snd (groupTimeLogsByWeek tz timeLogs ref clock))
  <-> exists w, In w (generatedWeeks tz ref clock) /\ b = bucketOf tz timeLogs w.
Proof.
  rewrite groupTimeLogsByWeek_spec. cbn [snd]. rewrite sort_In, in_map_iff.
  split.
  - intros (w & H1 & H2). exists w. split; [exact H2|symmetry; exact H1].
  - intros (w & H1 & H2). exists w. split; [symmetry; exact H2|exact H1].
Qed.

Lemma weekStarts_perm timeLogs ref clock :
  Permutation (map weekStart (snd (groupTimeLogsByWeek tz timeLogs ref clock)))
    (generatedWeeks tz ref clock).
Proof.
  rewrite buckets_perm, map_map. cbn [bucketOf weekStart]. rewrite map_id. reflexivity.
Qed.

(** The week key of an instant is the key of an aligned week start exactly
    when the instant lies in the seven days that start there. *)
Lemma getWeekKey_aligned w t :
  mondayAligned tz w ->
  getWeekKey tz t = toISODate w <-> w <= t < addDays w 7.
Proof.
  intros Hw. rewrite getWeekKey_mondayOf. split.
  - intros E. apply toISODate_midnight_inj with (tz := tz) in E;
      [|apply mondayOf_aligned|apply Hw].
    subst w. pose proof (mondayOf_bounds tz t). unfold addDays. lia.
  - intros Hb. f_equal. apply mondayOf_unique; [exact Hw|]. unfold addDays in Hb. lia.
Qed.

Lemma bucketOf_logs_In timeLogs w log :
  In log (logs (bucketOf tz timeLogs w))
  <-> In log timeLogs /\ getWeekKey tz (spentAt log) = toISODate w.
Proof.
  unfold bucketOf. cbn [logs]. unfold logsOfWeek.
  rewrite List.filter_In, String.eqb_eq. reflexivity.
Qed.

Lemma seeded_key ref clock key :
  Obj.get (seededWeeks tz ref clock) key = None
  <-> forall w, In w (generatedWeeks tz ref clock) -> toISODate w <> key.
Proof.
  rewrite get_None, seededWeeks_spec, keys_emptyWeek, in_map_iff. split.
  - intros H w Hw E. apply H. eauto.
  - intros H (w & E & Hw). exact (H w Hw E).
Qed.

(** An entry has no pre-seeded bucket exactly when it lies in none of the
    generated weeks. *)
Lemma seeded_key_range ref clock t :
  Obj.get (seededWeeks tz ref clock) (getWeekKey tz t) = None
  <-> forall w, In w (generatedWeeks tz ref clock) -> ~ (w <= t < addDays w 7).
Proof.
  rewrite seeded_key. split; intros H w Hw; specialize (H w Hw);
    pose proof (getWeekKey_aligned w t (generatedWeeks_aligned _ _ _ Hw)) as E.
  - intros Hb. apply H. symmetry. apply E. exact Hb.
  - intros E'. apply H. apply E. symmetry. exact E'.
Qed.

Lemma descending_strict {A : Type} (f : A -> Z) (l : list A) :
  StronglySorted (fun a b => - f a <= - f b) l ->
  NoDup (map f l) ->
  StronglySorted Z.gt (map f l).
Proof.
  induction 1 as [|x l Hs IH Hx]; cbn [map]; intros Hnd; [constructor|].
  apply NoDup_cons in Hnd as [Hnot Hnd]. constructor; [apply IH, Hnd|].
  apply List.Forall_forall. intros y Hy. apply in_map_iff in Hy as (z & <- & Hz).
  rewrite List.Forall_forall in Hx. specialize (Hx z Hz).
  assert (f z <> f x); [|lia]. intros E. apply Hnot. rewrite <- E.
  apply list_elem_of_In, in_map, Hz.
Qed.

Lemma weekStarts_descending timeLogs ref clock :
  StronglySorted Z.gt (map weekStart (snd (groupTimeLogsByWeek tz timeLogs ref clock))).
Proof.
  apply descending_strict.
  - rewrite groupTimeLogsByWeek_spec. cbn [snd].
    apply sort_sorted. intros a b. lia.
  - rewrite weekStarts_perm. apply sorted_lt_NoDup, generatedWeeks_sorted.
Qed.

Lemma weekKeys_NoDup timeLogs ref clock :
  NoDup (map (fun b => toISODate (weekStart b))
           (snd (groupTimeLogsByWeek tz timeLogs ref clock))).
Proof.
  rewrite <- (map_map weekStart toISODate), weekStarts_perm.
  apply generatedWeeks_keys.
Qed.

(** When the period has begun, the generated weeks are the weeks that share a
    day with the days from its first day to the earlier of its last day and
    today. *)
Lemma begun_period_weeks ref clock w :
  firstDayOfMonth tz ref <= setHoursZero tz clock ->
  firstDayOfMonth tz ref <= lastDayOfMonth tz ref ->
  In w (generatedWeeks tz ref clock)
  <-> mondayAligned tz w /\ intersectsPeriod tz ref clock w.
Proof.
  intros Hbegun Hmonth. rewrite generatedWeeks_In. unfold intersectsPeriod, addDays.
  split.
  - intros (Ha & HF & HL & Hnow). split; [exact Ha|].
    exists (Z.max w (firstDayOfMonth tz ref)). unfold msPerDay in *. lia.
  - intros (Ha & t & Ht & Hp). split; [exact Ha|]. lia.
Qed.

End Zone.

End PeriodFacts.

(** * Duration formatting *)

Module DurationFacts.
Import Duration.

Lemma formatDuration_render (s : Z) :
  0 <= s -> formatDuration s = render (s / 3600) ((s / 60) mod 60).
Proof.
  intros Hs. unfold formatDuration, render.
  assert (Hm : Z.rem s 3600 / 60 = (s / 60) mod 60).
  { rewrite Z.rem_mod_nonneg by lia.
    Z.to_euclidean_division_equations. lia. }
  rewrite Hm.
  destruct (Z.eqb_spec s 0) as [->|Hne]; [reflexivity|].
  destruct (Z.ltb_spec s 0); [lia|]. cbn [orb].
  destruct (0 <? s / 3600), (0 <? (s / 60) mod 60); reflexivity.
Qed.

(** C9.  [formatDuration(5400)] is "1h 30m", [formatDuration(0)] and
    [formatDuration(45)] are "0m".  For every non-negative whole number of
    seconds [s] the text shows the whole hours [s / 3600] and the whole
    minutes [(s / 60) mod 60]; it is the text of [s] rounded down to the
    minute, so the seconds below a minute are dropped and never rounded up,
    and a duration below one minute is rendered "0m". *)
Theorem formatDuration_rounds_down :
  formatDuration 5400 = "1h 30m" /\
  formatDuration 0 = "0m" /\
  formatDuration 45 = "0m" /\
  forall n : N,
    let s := Z.of_N n in
    formatDuration s = render (s / 3600) ((s / 60) mod 60) /\
    formatDuration s = formatDuration (60 * (s / 60)) /\
    formatDuration (s mod 60) = "0m".
Proof.
  split; [reflexivity|]. split; [reflexivity|]. split; [reflexivity|].
  intros n s. assert (Hs : 0 <= s) by (subst s; lia). clearbody s.
  split; [|split].
  - apply formatDuration_render. lia.
  - idtac.
    assert (Hq : 0 <= 60 * (s / 60)) by (Z.to_euclidean_division_equations; lia).
    rewrite !formatDuration_render by assumption. f_equal.
    + Z.to_euclidean_division_equations; lia.
    + rewrite (Z.mul_comm 60), Z.div_mul by lia. reflexivity.
  - assert (Hr : 0 <= s mod 60 < 60) by (apply Z.mod_pos_bound; lia).
    rewrite formatDuration_render by lia.
    rewrite !Z.div_small by lia. reflexivity.
Qed.

End DurationFacts.

(** * Claims about the cache store and the credential store *)

Module CacheClaims.
Import Js LocalStorage Store Auth Favorites Spec StoreFacts.

(** C4.  After [saveCredentials(username, token, repository)] every cached
    collection is gone: [getProjects()] answers [null], and so do
    [getIssues(p)] for every project path [p] and [getTimeLogs(m)] for every
    period [m]. *)
Theorem saveCredentials_clears_cache
    (username token repository timestamp : string) (st : gmap string string)
    (p m : string) :
  let st' := saveCredentials username token repository timestamp st in
  getProjects st' = Normal JSON.Null /\
  getIssues p st' = Normal JSON.Null /\
  getTimeLogs m st' = Normal JSON.Null.
Proof.
  cbn zeta. unfold saveCredentials.
  rewrite getProjects_cached, getIssues_cached, getTimeLogs_cached.
  rewrite !cached_clearAll by apply isCacheKey_keyFor. auto.
Qed.

(** C5, as the specification states it, fails: with a project list cached,
    the logout handler removes the credential record and [getProjects()]
    still answers the cached list. *)
Lemma logout_keeps_cached_projects :
  let st := storeProjects (JSON.Arr [JSON.Str "group/app"])
              (saveCredentials "alice" "glpat-12345678" "https://gitlab.example.org"
                 "2024-03-04T09:00:00.000Z" ∅) in
  logout st !! AUTH_STORAGE_KEY = None /\
  getProjects (logout st) = Normal (JSON.Arr [JSON.Str "group/app"]) /\
  getProjects (logout st) <> Normal JSON.Null.
Proof. vm_compute. repeat split; discriminate. Qed.

(** C5, amended.  [clearCredentials] (all that the logout handler does to
    the storage) removes the credential record and nothing else: every cache
    getter answers what it answered before.  The cached collections are
    cleared when credentials are saved next, so after a logout followed by a
    login every getter answers [null]. *)
Theorem clearCredentials_keeps_cache_until_login
    (st : gmap string string) (p m : string) :
  clearCredentials st !! AUTH_STORAGE_KEY = None /\
  getProjects (clearCredentials st) = getProjects st /\
  getIssues p (clearCredentials st) = getIssues p st /\
  getTimeLogs m (clearCredentials st) = getTimeLogs m st /\
  forall username token repository timestamp : string,
    let st' := saveCredentials username token repository timestamp (clearCredentials st) in
    getProjects st' = Normal JSON.Null /\
    getIssues p st' = Normal JSON.Null /\
    getTimeLogs m st' = Normal JSON.Null.
Proof.
  assert (Hother : forall key, isCacheKey key = true ->
            cached key (clearCredentials st) = cached key st).
  { intros key Hkey. apply cached_ext. unfold clearCredentials, removeItem.
    apply lookup_delete_ne. intros <-. discriminate Hkey. }
  split; [apply lookup_delete_eq|].
  rewrite !getProjects_cached, !getIssues_cached, !getTimeLogs_cached.
  rewrite !Hother by apply isCacheKey_keyFor.
  repeat split.
  all: unfold saveCredentials.
  all: rewrite ?getProjects_cached, ?getIssues_cached, ?getTimeLogs_cached.
  all: rewrite cached_clearAll by apply isCacheKey_keyFor; reflexivity.
Qed.

(** C6.  The cache getters never throw: each of [getProjects()],
    [getIssues(p)] and [getTimeLogs(m)] completes normally in every state of
    the storage, and answers [null] when nothing is stored under its key and
    when the stored text is not JSON. *)
Theorem cache_getters_never_throw (st : gmap string string) (p m : string) :
  (exists v, getProjects st = Normal v) /\
  (exists v, getIssues p st = Normal v) /\
  (exists v, getTimeLogs m st = Normal v) /\
  (unreadable (keyFor "projects") st -> getProjects st = Normal JSON.Null) /\
  (unreadable (issuesKey p) st -> getIssues p st = Normal JSON.Null) /\
  (unreadable (timelogsKey m) st -> getTimeLogs m st = Normal JSON.Null).
Proof.
  rewrite getProjects_cached, getIssues_cached, getTimeLogs_cached.
  repeat split; eauto; intros H; rewrite cached_unreadable by exact H; reflexivity.
Qed.

Lemma cache_getters_never_throw_witness :
  getProjects Sample.brokenStorage = Normal JSON.Null /\
  getIssues "a/b" Sample.brokenStorage = Normal JSON.Null /\
  getTimeLogs "2024-03" Sample.brokenStorage = Normal JSON.Null.
Proof.
  destruct (cache_getters_never_throw Sample.brokenStorage "a/b" "2024-03")
    as (_ & _ & _ & Hp & Hi & Ht).
  split; [|split].
  - apply Hp. right. exists "[{". split; reflexivity.
  - apply Hi. left. reflexivity.
  - apply Ht. right. exists "[1,". split; reflexivity.
Defined.

(** C8.  Storing an array and reading the same kind and key back gives the
    array: [storeProjects(v)] then [getProjects()], [storeIssues(p, v)] then
    [getIssues(p)], [storeTimeLogs(m, v)] then [getTimeLogs(m)]. *)
Theorem cache_round_trip
    (items : list JSON.value) (st : gmap string string) (p m : string) :
  getProjects (storeProjects (JSON.Arr items) st) = Normal (JSON.Arr items) /\
  getIssues p (storeIssues p (JSON.Arr items) st) = Normal (JSON.Arr items) /\
  getTimeLogs m (storeTimeLogs m (JSON.Arr items) st) = Normal (JSON.Arr items).
Proof.
  rewrite getProjects_cached, getIssues_cached, getTimeLogs_cached.
  unfold storeProjects, storeIssues, storeTimeLogs.
  rewrite !cached_stored. auto.
Qed.

(** C10.  [clearAll] removes exactly the entries whose key starts with
    "appStore:".  The credential record under "userAuth" and the favorites
    under "appFavorites" are untouched by it, so after [saveCredentials] the
    storage holds the record just written and the favorites it held
    before. *)
Theorem clearAll_removes_exactly_cache_prefix (st : gmap string string) :
  (forall k : string,
     clearAll st !! k = if String.prefix PREFIX k then None else st !! k) /\
  clearAll st !! AUTH_STORAGE_KEY = st !! AUTH_STORAGE_KEY /\
  clearAll st !! FAVORITES_KEY = st !! FAVORITES_KEY /\
  forall username token repository timestamp : string,
    let st' := saveCredentials username token repository timestamp st in
    st' !! AUTH_STORAGE_KEY
      = Some (JSON.stringify (authRecord username token repository timestamp)) /\
    st' !! FAVORITES_KEY = st !! FAVORITES_KEY.
Proof.
  split; [intros k; rewrite clearAll_lookup, isCacheKey_prefix; reflexivity|].
  split; [rewrite clearAll_lookup; reflexivity|].
  split; [rewrite clearAll_lookup; reflexivity|].
  intros username token repository timestamp. cbn zeta. unfold saveCredentials.
  rewrite !clearAll_lookup.
  change (isCacheKey AUTH_STORAGE_KEY) with false.
  change (isCacheKey FAVORITES_KEY) with false. cbv iota.
  unfold setItem. rewrite lookup_insert_eq.
  rewrite lookup_insert_ne by discriminate. auto.
Qed.

End CacheClaims.

(** * Claims about keyed cache operations and the delete flow *)

Module IsolationClaims.
Import Js LocalStorage Store Spec StoreFacts LogCrud.

(** Storing or clearing the issues of one project leaves the issues of every
    other project, the project list and the time logs as they were. *)
Lemma storeIssues_other (p q m : string) (issues : JSON.value) (st : gmap string string) :
  p <> q ->
  getIssues q (storeIssues p issues st) = getIssues q st /\
  getProjects (storeIssues p issues st) = getProjects st /\
  getTimeLogs m (storeIssues p issues st) = getTimeLogs m st.
Proof.
  intros Hpq. rewrite !getIssues_cached, !getProjects_cached, !getTimeLogs_cached.
  unfold storeIssues, setItem. repeat split; f_equal; apply cached_ext, lookup_insert_ne.
  - intros E. apply issuesKey_inj in E. contradiction.
  - apply issuesKey_not_projects.
  - apply issuesKey_not_timelogs.
Qed.

Lemma clearIssues_other (p q m : string) (st : gmap string string) :
  p <> q ->
  getIssues q (clearIssues p st) = getIssues q st /\
  getProjects (clearIssues p st) = getProjects st /\
  getTimeLogs m (clearIssues p st) = getTimeLogs m st.
Proof.
  intros Hpq. rewrite !getIssues_cached, !getProjects_cached, !getTimeLogs_cached.
  unfold clearIssues, removeItem. repeat split; f_equal; apply cached_ext, lookup_delete_ne.
  - intros E. apply issuesKey_inj in E. contradiction.
  - apply issuesKey_not_projects.
  - apply issuesKey_not_timelogs.
Qed.

(** Clearing one period leaves every other period, the project list and the
    issues as they were. *)
Lemma clearTimeLogs_other (m m' p : string) (st : gmap string string) :
  m <> m' ->
  getTimeLogs m' (clearTimeLogs m st) = getTimeLogs m' st /\
  getProjects (clearTimeLogs m st) = getProjects st /\
  getIssues p (clearTimeLogs m st) = getIssues p st.
Proof.
  intros Hm. rewrite !getIssues_cached, !getProjects_cached, !getTimeLogs_cached.
  unfold clearTimeLogs, removeItem. repeat split; f_equal; apply cached_ext, lookup_delete_ne.
  - intros E. apply timelogsKey_inj in E. contradiction.
  - apply timelogsKey_not_projects.
  - intros E. symmetry in E. revert E. apply issuesKey_not_timelogs.
Qed.

Lemma clearPeriodOf_empty tz (st : gmap string string) :
  clearPeriodOf tz (Some EmptyString) st = st /\ clearPeriodOf tz None st = st.
Proof. split; reflexivity. Qed.

(** The delete flow leaves the storage as it found it: by the time it reads
    the date input, [hideNewLogModal] has emptied it. *)
Lemma handleDeleteTimelog_storage tz (deleted : bool) (s : state) :
  storage (handleDeleteTimelog tz deleted s) = storage s.
Proof.
  unfold handleDeleteTimelog.
  destruct (negb (truthyText (currentTimelogId s))); [reflexivity|].
  destruct deleted; [|reflexivity]. cbn [storage].
  unfold hideNewLogModal, _resetModalState. cbn [newLogDate storage].
  destruct (newLogDate s); apply clearPeriodOf_empty.
Qed.

(** C7, on the code.  The modal is opened on an entry spent on 4 March 2024
    and shows that date; the month 2024-03 is cached.  After the delete flow
    has run, with the remote deletion successful, the storage is unchanged
    and [getTimeLogs] still answers the cached month, deleted entry
    included; it still does after the reload that [timeLogDeleted] triggers,
    when the request of that reload fails.  The add flow, run from the same
    modal, does clear that period. *)
Theorem delete_flow_keeps_period_cache :
  newLogDate Sample.deleteModal = Some "2024-03-04" /\
  storage (handleDeleteTimelog 0 true Sample.deleteModal) = storage Sample.deleteModal /\
  getTimeLogs "2024-03" (storage (handleDeleteTimelog 0 true Sample.deleteModal))
    = Normal Sample.marchCache /\
  getTimeLogs "2024-03"
    (App.reloadTimeLogs 0 (Sample.utc 2024 3 1 0) None
       (storage (handleDeleteTimelog 0 true Sample.deleteModal)))
    = Normal Sample.marchCache /\
  getTimeLogs "2024-03" (storage (handleNewLogSubmit 0 true Sample.deleteModal))
    = Normal JSON.Null.
Proof.
  split; [vm_compute; reflexivity|].
  split; [apply handleDeleteTimelog_storage|].
  repeat split; vm_compute; reflexivity.
Qed.

End IsolationClaims.

Module PeriodClaims.
Import Time Calendar App WeekSpec IsoFacts TimeFacts ObjFacts SortFacts AppFacts DayFacts PeriodFacts.

#[local] Opaque generatedWeeks seededWeeks firstDayOfMonth lastDayOfMonth
  setHoursZero getWeekKey toISODate.

Lemma loadTimeLogs_In tz timeLogs ref clock b days :
  timeLogs <> [] ->
  In (b, days) (loadTimeLogs tz timeLogs ref clock)
  <-> In b (snd (groupTimeLogsByWeek tz timeLogs ref clock)) /\ days = sortedDays b.
Proof.
  intros Hne. unfold loadTimeLogs. destruct timeLogs as [|log timeLogs]; [contradiction|].
  rewrite in_map_iff. split.
  - intros (b' & [= <- <-] & Hb). auto.
  - intros [Hb ->]. exists b. auto.
Qed.

Lemma loadTimeLogs_bucket tz timeLogs ref clock b days :
  In (b, days) (loadTimeLogs tz timeLogs ref clock) ->
  In b (snd (groupTimeLogsByWeek tz timeLogs ref clock)) /\ days = sortedDays b.
Proof.
  destruct timeLogs as [|log timeLogs]; [intros []|].
  intros H. assert (Hne : log :: timeLogs <> []) by (intros E; discriminate E).
  apply (proj1 (loadTimeLogs_In tz _ ref clock b days Hne) H).
Qed.

Lemma sortedDays_subset week d log :
  In d (sortedDays week) -> In log (dayLogs d) -> In log (logs week).
Proof.
  intros Hd Hlog. apply sortedDays_In in Hd as (k & Hk).
  destruct (daysOf_inv (logs week)) as (_ & Hgroups & _).
  destruct (Hgroups _ _ Hk) as [_ E]. rewrite E in Hlog.
  apply logsOfDay_In in Hlog. apply Hlog.
Qed.

(** C1, as the specification states it, fails for a period that has not
    begun.  On Tuesday, 30 January 2024, the period February 2024 gets the
    bucket of the week of Monday, 29 January, although no day lies both in
    that week and between 1 February and the earlier of 29 February and
    today. *)
Lemma future_period_week_outside_range :
  let ref := Sample.utc 2024 2 1 0 in
  let clock := Sample.utc 2024 1 30 12 in
  map weekStart (snd (groupTimeLogsByWeek 0 [] ref clock)) = [Sample.utc 2024 1 29 0] /\
  ~ intersectsPeriod 0 ref clock (Sample.utc 2024 1 29 0).
Proof.
  cbn zeta. split; [vm_compute; reflexivity|].
  intros (t & Ht & Hp).
  assert (EF : firstDayOfMonth 0 (Sample.utc 2024 2 1 0) = 1706745600000)
    by (vm_compute; reflexivity).
  assert (ET : setHoursZero 0 (Sample.utc 2024 1 30 12) = 1706572800000)
    by (vm_compute; reflexivity).
  rewrite EF, ET in Hp. lia.
Qed.

(** C1, amended.  For every reference date, clock and list of entries, the
    week starts of the buckets that [groupTimeLogsByWeek] returns are exactly
    the Monday-aligned starts of the weeks that end on or after the first day
    of the month, start on or before its last day and start on or before
    today; they do not depend on the entries, so weeks without entries have
    their bucket too.  The buckets are sorted by week start, strictly
    descending, and no two of them share a week key. *)
Theorem week_buckets_of_period (tz : Z) (timeLogs : list timelog) (ref clock : Z) :
  let buckets := snd (groupTimeLogsByWeek tz timeLogs ref clock) in
  (forall w,
     In w (map weekStart buckets)
     <-> mondayAligned tz w /\
         firstDayOfMonth tz ref <= addDays w 6 /\
         w <= lastDayOfMonth tz ref /\
         w <= setHoursZero tz clock) /\
  StronglySorted Z.gt (map weekStart buckets) /\
  NoDup (map (fun b => toISODate (weekStart b)) buckets).
Proof.
  cbn zeta. split; [|split].
  - intros w. rewrite <- generatedWeeks_In. split; intros H.
    + apply list_elem_of_In. rewrite <- (weekStarts_perm tz timeLogs). apply list_elem_of_In, H.
    + apply list_elem_of_In. rewrite (weekStarts_perm tz timeLogs). apply list_elem_of_In, H.
  - apply weekStarts_descending.
  - apply weekKeys_NoDup.
Qed.

(** C2.  An entry of the list whose [spentAt] lies in one of the weeks of the
    result is rendered by [loadTimeLogs] in exactly one week, the one that
    starts on the Monday of the entry's week, and there in exactly one day
    group, the one of the calendar day of [spentAt]; in both it occurs as
    often as in the list. *)
Theorem entry_in_one_week_and_day
    (tz : Z) (timeLogs : list timelog) (ref clock : Z) (entry : timelog) :
  In entry timeLogs ->
  (exists week,
     In week (snd (groupTimeLogsByWeek tz timeLogs ref clock)) /\
     weekStart week <= spentAt entry < addDays (weekStart week) 7) ->
  exists week days,
    In (week, days) (loadTimeLogs tz timeLogs ref clock) /\
    weekStart week = mondayOf tz (spentAt entry) /\
    count_occ timelog_eq_dec (logs week) entry = count_occ timelog_eq_dec timeLogs entry /\
    (forall week' days',
       In (week', days') (loadTimeLogs tz timeLogs ref clock) ->
       In entry (logs week') -> week' = week /\ days' = days) /\
    exists day,
      In day days /\
      toISODate (date day) = toISODate (spentAt entry) /\
      count_occ timelog_eq_dec (dayLogs day) entry = count_occ timelog_eq_dec timeLogs entry /\
      forall day', In day' days -> In entry (dayLogs day') -> day' = day.
Proof.
  intros Hentry (week & Hweek & Hrange).
  assert (Hne : timeLogs <> []) by (intros ->; destruct Hentry).
  pose proof (proj1 (buckets_In tz timeLogs ref clock week) Hweek) as (w & Hw & ->).
  cbn [bucketOf weekStart] in Hrange.
  pose proof (generatedWeeks_aligned tz ref clock w Hw) as Haligned.
  pose proof (proj2 (getWeekKey_aligned tz w (spentAt entry) Haligned) Hrange) as Hkey.
  assert (Hcount : count_occ timelog_eq_dec (logs (bucketOf tz timeLogs w)) entry
                   = count_occ timelog_eq_dec timeLogs entry).
  { unfold bucketOf. cbn [logs]. unfold logsOfWeek. apply count_occ_filter.
    apply String.eqb_eq, Hkey. }
  assert (Hin : In entry (logs (bucketOf tz timeLogs w))).
  { apply (proj2 (bucketOf_logs_In tz timeLogs w entry)). auto. }
  exists (bucketOf tz timeLogs w), (sortedDays (bucketOf tz timeLogs w)).
  split; [apply loadTimeLogs_In; auto|].
  split. { cbn [bucketOf weekStart]. symmetry. apply mondayOf_unique; [exact Haligned|].
           unfold addDays in Hrange. lia. }
  split; [exact Hcount|]. split.
  - intros week' days' Hload Hin'.
    apply loadTimeLogs_bucket in Hload as [Hweek' ->].
    pose proof (proj1 (buckets_In tz timeLogs ref clock week') Hweek') as (w' & Hw' & ->).
    pose proof (proj1 (bucketOf_logs_In tz timeLogs w' entry) Hin') as [_ Hkey'].
    assert (w' = w); [|subst w'; auto].
    apply (toISODate_midnight_inj tz).
    + apply (generatedWeeks_aligned tz ref clock w' Hw').
    + apply Haligned.
    + rewrite <- Hkey, <- Hkey'. reflexivity.
  - destruct (sortedDays_unique (bucketOf tz timeLogs w) entry Hin)
      as (day & Hday & Hdate & Hc & Huniq).
    exists day. split; [exact Hday|]. split; [exact Hdate|].
    split; [rewrite Hc; exact Hcount|exact Huniq].
Qed.

Lemma entry_in_one_week_and_day_witness :
  exists week days,
    In (week, days)
       (loadTimeLogs 0 [Sample.morning; Sample.afternoon; Sample.april]
          (Sample.utc 2024 3 1 0) (Sample.utc 2024 3 20 12)) /\
    weekStart week = mondayOf 0 (spentAt Sample.morning) /\
    count_occ timelog_eq_dec (logs week) Sample.morning = 1%nat.
Proof.
  destruct (entry_in_one_week_and_day 0
              [Sample.morning; Sample.afternoon; Sample.april]
              (Sample.utc 2024 3 1 0) (Sample.utc 2024 3 20 12) Sample.morning)
    as (week & days & Hload & Hstart & Hcount & _).
  - left. reflexivity.
  - exists Sample.marchWeek. split.
    + vm_compute. right. right. left. reflexivity.
    + vm_compute. split; [intros E; discriminate E|reflexivity].
  - exists week, days. split; [exact Hload|]. split; [exact Hstart|].
    rewrite Hcount. vm_compute. reflexivity.
Defined.

(** C3.  An entry whose week key has no pre-seeded bucket is dropped without
    a trace: the result, count included, is the result for the list without
    the entry, and the entry is in no week and in no day group that
    [loadTimeLogs] renders, whatever the list. *)
Theorem unseeded_entry_is_dropped (tz : Z) (ref clock : Z) (entry : timelog) :
  Obj.get (seededWeeks tz ref clock) (getWeekKey tz (spentAt entry)) = None ->
  (forall before after : list timelog,
     groupTimeLogsByWeek tz (before ++ entry :: after) ref clock
     = groupTimeLogsByWeek tz (before ++ after) ref clock) /\
  (forall (timeLogs : list timelog) week days,
     In (week, days) (loadTimeLogs tz timeLogs ref clock) ->
     ~ In entry (logs week) /\ forall day, In day days -> ~ In entry (dayLogs day)).
Proof.
  intros Hnone. pose proof (proj1 (seeded_key tz ref clock _) Hnone) as Hkeys.
  assert (Hweek : forall timeLogs w, In w (generatedWeeks tz ref clock) ->
                    ~ In entry (logs (bucketOf tz timeLogs w))).
  { intros timeLogs w Hw Hin.
    apply (proj1 (bucketOf_logs_In tz timeLogs w entry)) in Hin as [_ E].
    apply (Hkeys w Hw). symmetry. exact E. }
  split.
  - intros before after. rewrite !groupTimeLogsByWeek_spec. f_equal.
    + unfold kept. rewrite !List.filter_app. cbn [List.filter].
      rewrite bool_decide_eq_false_2; [reflexivity|].
      rewrite list_elem_of_In. apply get_None. exact Hnone.
    + f_equal. apply map_ext_in. intros w Hw. unfold bucketOf, logsOfWeek.
      rewrite !List.filter_app. cbn [List.filter].
      destruct (String.eqb_spec (getWeekKey tz (spentAt entry)) (toISODate w)) as [E|_];
        [|reflexivity].
      exfalso. apply (Hkeys w Hw). symmetry. exact E.
  - intros timeLogs week days Hload.
    apply loadTimeLogs_bucket in Hload as [Hin ->].
    pose proof (proj1 (buckets_In tz timeLogs ref clock week) Hin) as (w & Hw & ->).
    split; [apply Hweek, Hw|].
    intros day Hday Hentry. apply (Hweek timeLogs w Hw).
    apply (sortedDays_subset _ day); assumption.
Qed.

Lemma unseeded_entry_is_dropped_witness :
  groupTimeLogsByWeek 0 ([Sample.morning] ++ Sample.april :: [Sample.afternoon])
    (Sample.utc 2024 3 1 0) (Sample.utc 2024 3 20 12)
  = groupTimeLogsByWeek 0 ([Sample.morning] ++ [Sample.afternoon])
      (Sample.utc 2024 3 1 0) (Sample.utc 2024 3 20 12).
Proof.
  apply (unseeded_entry_is_dropped 0 (Sample.utc 2024 3 1 0) (Sample.utc 2024 3 20 12)
           Sample.april).
  vm_compute. reflexivity.
Defined.

End PeriodClaims.

(** * Dates of the calendar *)

Module CalendarFacts.
Import MonthSpec.
Import Time Calendar.


Lemma yearStart_yearEnd (yoe : Z) :
  0 <= yoe <= 399 -> 365 <= yearEnd yoe - yearStart yoe <= 366.
Proof.
  intros H. unfold yearEnd, yearStart. destruct (Z.eqb_spec yoe 399) as [->|Hne].
  - vm_compute. split; intros E; discriminate E.
  - Z.to_euclidean_division_equations. lia.
Qed.

Lemma yearOfEra_bounds (doe : Z) :
  0 <= doe < 146097 ->
  yearStart (yearOfEra doe) <= doe < yearEnd (yearOfEra doe).
Proof.
  intros H. destruct (yearOfEra_range doe H) as [Hr Hs]. split; [lia|].
  unfold yearEnd. destruct (Z.eqb_spec (yearOfEra doe) 399) as [E|Hne]; [lia|].
  unfold yearOfEra, yearStart in *. Z.to_euclidean_division_equations. lia.
Qed.

Lemma yearStart_mono (a b : Z) : 0 <= a -> a < b -> yearStart a + 365 <= yearStart b.
Proof. intros Ha Hab. unfold yearStart. Z.to_euclidean_division_equations. lia. Qed.

Lemma yearOfEra_unique (yoe doe : Z) :
  0 <= yoe <= 399 -> yearStart yoe <= doe < yearEnd yoe -> yearOfEra doe = yoe.
Proof.
  intros Hy Hd. pose proof (yearStart_yearEnd yoe Hy) as Hlen.
  assert (Hdoe : 0 <= doe < 146097).
  { assert (0 <= yearStart yoe) by (unfold yearStart; Z.to_euclidean_division_equations; lia).
    assert (yearEnd yoe <= 146097).
    { unfold yearEnd. destruct (Z.eqb_spec yoe 399); [lia|].
      pose proof (yearStart_mono (yoe + 1) 400 ltac:(lia)) as Hm.
      destruct (Z.eq_dec (yoe + 1) 399) as [E|E].
      - rewrite E. vm_compute. intros X; discriminate X.
      - assert (yearStart (yoe + 1) + 365 <= yearStart 399) by (apply yearStart_mono; lia).
        change (yearStart 399) with 145731 in *. lia. }
    lia. }
  destruct (yearOfEra_range doe Hdoe) as [Hr _].
  pose proof (yearOfEra_bounds doe Hdoe) as Hb.
  set (y1 := yearOfEra doe) in *. clearbody y1.
  destruct (Z.lt_trichotomy y1 yoe) as [Hlt|[E|Hgt]]; [|exact E|].
  - exfalso. assert (yearEnd y1 <= yearStart yoe); [|lia].
    unfold yearEnd. destruct (Z.eqb_spec y1 399); [lia|].
    destruct (Z.eq_dec (y1 + 1) yoe) as [<-|Hne]; [lia|].
    pose proof (yearStart_mono (y1 + 1) yoe ltac:(lia) ltac:(lia)). lia.
  - exfalso. assert (yearEnd yoe <= yearStart y1); [|lia].
    unfold yearEnd. destruct (Z.eqb_spec yoe 399); [lia|].
    destruct (Z.eq_dec (yoe + 1) y1) as [<-|Hne]; [lia|].
    pose proof (yearStart_mono (yoe + 1) y1 ltac:(lia) ltac:(lia)). lia.
Qed.

Lemma monthOfYear_unique (mp doy : Z) :
  0 <= mp <= 11 -> monthStart mp <= doy < monthStart (mp + 1) -> monthOfYear doy = mp.
Proof.
  intros Hm Hd. unfold monthOfYear, monthStart in *.
  Z.to_euclidean_division_equations. lia.
Qed.


(** The era, the year of the era and the month counted from March. *)
Lemma daysFromCivil_first (y m : Z) :
  1 <= m <= 12 ->
  exists era yoe mp,
    0 <= yoe <= 399 /\ 0 <= mp <= 11 /\
    (if m <=? 2 then y - 1 else y) = yoe + era * 400 /\
    m = (if mp <? 10 then mp + 3 else mp - 9) /\
    daysFromCivil y m 1 = era * 146097 + yearStart yoe + monthStart mp - 719468 /\
    firstOfNext y m
    = era * 146097
      + (if mp =? 11 then yearEnd yoe else yearStart yoe + monthStart (mp + 1)) - 719468.
Proof.
  intros Hm. unfold firstOfNext, daysFromCivil.
  set (y0 := if m <=? 2 then y - 1 else y).
  exists (y0 / 400), (y0 - y0 / 400 * 400), (if 2 <? m then m - 3 else m + 9).
  assert (Hyoe : 0 <= y0 - y0 / 400 * 400 <= 399) by (Z.to_euclidean_division_equations; lia).
  split; [exact Hyoe|].
  split; [destruct (Z.ltb_spec 2 m); lia|].
  split; [lia|].
  split; [destruct (Z.ltb_spec 2 m);
          [destruct (Z.ltb_spec (m - 3) 10)|destruct (Z.ltb_spec (m + 9) 10)]; lia|].
  split; [lia|].
  destruct (Z.eqb_spec m 12) as [->|H12].
  - (* December: the next month is January of the same March year *)
    subst y0. cbn -[Z.div Z.mul Z.add Z.sub yearStart monthStart yearEnd].
    replace (y + 1 - 1) with y by lia. change (12 - 3 =? 11) with false. cbv iota.
    change (monthStart (1 + 9)) with (monthStart (12 - 3 + 1)). lia.
  - destruct (Z.eq_dec m 2) as [->|H2].
    + (* February: the next month opens the next March year *)
      subst y0. cbn -[Z.div Z.mul Z.add Z.sub yearStart monthStart yearEnd].
      change (2 + 9 =? 11) with true. change (2 + 1 <=? 2) with false.
      change (2 <? 2 + 1) with true. cbv iota.
      set (yoe := y - 1 - (y - 1) / 400 * 400) in *.
      unfold yearEnd. destruct (Z.eqb_spec yoe 399) as [E|E].
      * assert (Hera : y / 400 = (y - 1) / 400 + 1)
          by (subst yoe; Z.to_euclidean_division_equations; lia).
        rewrite Hera. replace (y - ((y - 1) / 400 + 1) * 400) with 0 by (subst yoe; lia).
        change (yearStart 0) with 0. change (monthStart (2 + 1 - 3)) with 0. lia.
      * assert (Hera : y / 400 = (y - 1) / 400)
          by (subst yoe; Z.to_euclidean_division_equations; lia).
        rewrite Hera. replace (y - (y - 1) / 400 * 400) with (yoe + 1) by (subst yoe; lia).
        change (monthStart (2 + 1 - 3)) with 0. lia.
    + (* the next month lies in the same March year *)
      assert (Hsame : (if m + 1 <=? 2 then y - 1 else y) = y0).
      { subst y0. destruct (Z.leb_spec (m + 1) 2), (Z.leb_spec m 2); lia. }
      rewrite Hsame.
      assert (Hmp : (if 2 <? m + 1 then m + 1 - 3 else m + 1 + 9)
                    = (if 2 <? m then m - 3 else m + 9) + 1).
      { destruct (Z.ltb_spec 2 (m + 1)), (Z.ltb_spec 2 m); lia. }
      rewrite Hmp.
      destruct (Z.eqb_spec (if 2 <? m then m - 3 else m + 9) 11) as [E|_];
        [destruct (Z.ltb_spec 2 m); lia|]. lia.
Qed.

(** A day number between the first of a month and the first of the next is
    a day of that month. *)
Lemma civilFromDays_within (y m z : Z) :
  1 <= m <= 12 ->
  daysFromCivil y m 1 <= z < firstOfNext y m ->
  civilFromDays z = (y, m, z - daysFromCivil y m 1 + 1).
Proof.
  intros Hm Hz.
  destruct (daysFromCivil_first y m Hm) as (era & yoe & mp & Hyoe & Hmp & Hy & Hmm & Hfirst & Hnext).
  rewrite Hfirst in *. rewrite Hnext in Hz. clear Hfirst Hnext.
  pose proof (yearStart_yearEnd yoe Hyoe) as Hlen.
  assert (Hms : 0 <= monthStart mp /\ monthStart mp < monthStart (mp + 1)
                /\ monthStart (mp + 1) <= 367 /\ (mp < 11 -> monthStart (mp + 1) <= 337)).
  { unfold monthStart. Z.to_euclidean_division_equations. lia. }
  assert (Hys : 0 <= yearStart yoe)
    by (unfold yearStart; Z.to_euclidean_division_equations; lia).
  set (doe := z + 719468 - era * 146097).
  assert (Hdoe : yearStart yoe + monthStart mp <= doe < yearEnd yoe
                 /\ doe - yearStart yoe < monthStart (mp + 1)).
  { subst doe. destruct (Z.eqb_spec mp 11) as [E|E]; [|lia].
    subst mp. change (monthStart (11 + 1)) with 367 in *. lia. }
  assert (Hend : yearEnd yoe <= 146097).
  { unfold yearEnd. destruct (Z.eqb_spec yoe 399); [lia|].
    destruct (Z.eq_dec (yoe + 1) 399) as [E|E].
    - rewrite E. vm_compute. intros X; discriminate X.
    - assert (yearStart (yoe + 1) + 365 <= yearStart 399) by (apply yearStart_mono; lia).
      change (yearStart 399) with 145731 in *. lia. }
  assert (Hera : (z + 719468) / 146097 = era).
  { subst doe. Z.to_euclidean_division_equations. nia. }
  unfold civilFromDays. cbv zeta. rewrite Hera. fold doe.
  rewrite (yearOfEra_unique yoe doe Hyoe) by lia.
  rewrite (monthOfYear_unique mp (doe - yearStart yoe) Hmp) by lia.
  rewrite <- Hmm, <- Hy.
  assert (Hyear : (if m <=? 2 then (if m <=? 2 then y - 1 else y) + 1
                   else (if m <=? 2 then y - 1 else y)) = y)
    by (destruct (Z.leb_spec m 2); lia).
  rewrite Hyear. f_equal. subst doe. lia.
Qed.

Lemma monthOfYear_bounds (doy : Z) :
  0 <= doy <= 365 ->
  monthStart (monthOfYear doy) <= doy < monthStart (monthOfYear doy + 1).
Proof.
  intros H. unfold monthOfYear, monthStart. Z.to_euclidean_division_equations. lia.
Qed.

(** Every day lies in the month that [civilFromDays] names. *)
Lemma civilFromDays_bounds (z : Z) :
  let '(y, m, d) := civilFromDays z in
  1 <= m <= 12 /\
  daysFromCivil y m 1 <= z < firstOfNext y m /\
  d = z - daysFromCivil y m 1 + 1.
Proof.
  pose proof (civilFromDays_range z) as [Hm Hd].
  pose proof (daysFromCivil_civilFromDays z) as Hround.
  assert (Hupper : let '(y, m, d) := civilFromDays z in 1 <= m <= 12 -> z < firstOfNext y m).
  { unfold civilFromDays. cbv zeta.
    pose proof (dayOfEra_range z) as Hdoe.
    set (era := (z + 719468) / 146097) in *.
    set (doe := z + 719468 - era * 146097) in *.
    destruct (yearOfEra_range doe Hdoe) as [Hy Hdy].
    pose proof (yearOfEra_bounds doe Hdoe) as Hyb.
    pose proof (monthOfYear_bounds _ Hdy) as Hmb.
    destruct (monthOfYear_range _ Hdy) as [Hmp _].
    set (yoe := yearOfEra doe) in *. set (doy := doe - yearStart yoe) in *.
    set (mp := monthOfYear doy) in *.
    set (m := if mp <? 10 then mp + 3 else mp - 9).
    set (y := if m <=? 2 then yoe + era * 400 + 1 else yoe + era * 400).
    intros Hm'.
    destruct (daysFromCivil_first y m Hm')
      as (era' & yoe' & mp' & Hyoe' & Hmp' & Hy' & Hmm' & _ & Hnext).
    assert (Emp : mp' = mp).
    { subst m. destruct (Z.ltb_spec mp 10), (Z.ltb_spec mp' 10); lia. }
    assert (Ey : yoe' + era' * 400 = yoe + era * 400).
    { rewrite <- Hy'. subst y. destruct (Z.leb_spec m 2); lia. }
    assert (Eera : era' = era) by nia.
    assert (Eyoe : yoe' = yoe) by lia.
    rewrite Hnext, Emp, Eera, Eyoe.
    destruct (Z.eqb_spec mp 11); subst doy doe; lia. }
  destruct (civilFromDays z) as [[y m] d]. cbn [fst snd] in Hm, Hd.
  rewrite (daysFromCivil_day y m 1 d) in Hround.
  split; [exact Hm|]. split; [split; [lia|apply Hupper, Hm]|lia].
Qed.

End CalendarFacts.

(** * Months *)

Module MonthFacts.
Import MonthSpec.
Import Time Calendar MonthSpec CalendarFacts App WeekSpec TimeFacts.

(** Every month has 28 to 31 days. *)
Lemma firstOfNext_length (y m : Z) :
  1 <= m <= 12 -> 28 <= firstOfNext y m - daysFromCivil y m 1 <= 31.
Proof.
  intros Hm.
  destruct (daysFromCivil_first y m Hm) as (era & yoe & mp & Hyoe & Hmp & _ & _ & -> & ->).
  pose proof (yearStart_yearEnd yoe Hyoe) as Hlen.
  destruct (Z.eqb_spec mp 11) as [->|Hne].
  - change (monthStart 11) with 337. lia.
  - unfold monthStart. Z.to_euclidean_division_equations. lia.
Qed.

Lemma civilFromDays_first (y m : Z) :
  1 <= m <= 12 -> civilFromDays (daysFromCivil y m 1) = (y, m, 1).
Proof.
  intros Hm. pose proof (firstOfNext_length y m Hm) as Hlen.
  rewrite (civilFromDays_within y m _ Hm) by lia. f_equal. lia.
Qed.


Lemma carriedMonth_range month : 1 <= carriedMonth month <= 12.
Proof. unfold carriedMonth. Z.to_euclidean_division_equations. lia. Qed.

Lemma makeDay_carried year month date :
  makeDay year month date
  = daysFromCivil (carriedYear year month) (carriedMonth month) 1 + date - 1.
Proof. reflexivity. Qed.

Lemma firstOfNext_carried year month :
  firstOfNext (carriedYear year month) (carriedMonth month) = makeDay year (month + 1) 1.
Proof.
  rewrite makeDay_carried. unfold firstOfNext, carriedYear, carriedMonth.
  destruct (Z.eqb_spec (month mod 12 + 1) 12) as [E|E].
  - replace ((month + 1) / 12) with (month / 12 + 1)
      by (Z.to_euclidean_division_equations; lia).
    replace ((month + 1) mod 12 + 1) with 1 by (Z.to_euclidean_division_equations; lia).
    replace (year + (month / 12 + 1)) with (year + month / 12 + 1) by lia. lia.
  - replace ((month + 1) / 12) with (month / 12)
      by (Z.to_euclidean_division_equations; lia).
    replace ((month + 1) mod 12 + 1) with (month mod 12 + 1 + 1)
      by (Z.to_euclidean_division_equations; lia).
    lia.
Qed.

(** The days of a month of [MakeDay]. *)
Lemma civilFromDays_makeDay year month date :
  1 <= date <= makeDay year (month + 1) 0 - makeDay year month 0 ->
  civilFromDays (makeDay year month date)
  = (carriedYear year month, carriedMonth month, date).
Proof.
  intros Hd. pose proof (carriedMonth_range month) as Hm.
  pose proof (firstOfNext_carried year month) as Hnext.
  rewrite !makeDay_carried in *.
  rewrite (civilFromDays_within (carriedYear year month) (carriedMonth month) _ Hm) by lia.
  f_equal. lia.
Qed.

Lemma makeDay_length year month :
  28 <= makeDay year (month + 1) 0 - makeDay year month 0 <= 31.
Proof.
  pose proof (firstOfNext_length (carriedYear year month) _ (carriedMonth_range month)) as H.
  rewrite (firstOfNext_carried year month) in H. rewrite !makeDay_carried in *. lia.
Qed.

Section Zone.

Variable tz : Z.

Lemma localDay_days (d r : Z) : 0 <= r < msPerDay -> localDay tz (d * msPerDay + r - tz) = d.
Proof. unfold localDay, msPerDay. intros H. Z.to_euclidean_division_equations. lia. Qed.

Lemma localDay_makeDay (d : Z) : localDay tz (d * msPerDay - tz) = d.
Proof.
  replace (d * msPerDay - tz) with (d * msPerDay + 0 - tz) by lia.
  apply localDay_days. unfold msPerDay. lia.
Qed.

(** The fields of a date in terms of its day. *)
Lemma fields_civil t y m d :
  civilFromDays (localDay tz t) = (y, m, d) ->
  getFullYear tz t = y /\ getMonth tz t = m - 1 /\ getDate tz t = d.
Proof. unfold getFullYear, getMonth, getDate. intros ->. auto. Qed.

Lemma civil_fields t :
  civilFromDays (localDay tz t) = (getFullYear tz t, getMonth tz t + 1, getDate tz t).
Proof.
  unfold getFullYear, getMonth, getDate.
  destruct (civilFromDays (localDay tz t)) as [[y m] d]. f_equal. f_equal. lia.
Qed.

Lemma fields_same_day a b :
  localDay tz a = localDay tz b ->
  getFullYear tz a = getFullYear tz b /\ getMonth tz a = getMonth tz b
  /\ getDate tz a = getDate tz b.
Proof. unfold getFullYear, getMonth, getDate. intros ->. auto. Qed.

Lemma getMonth_range t : 0 <= getMonth tz t <= 11.
Proof.
  pose proof (civilFromDays_range (localDay tz t)) as [Hm _].
  rewrite civil_fields in Hm. cbn [fst snd] in Hm. lia.
Qed.



Lemma makeDay_index year month date :
  makeDay year month date = makeDay ((12 * year + month) / 12) ((12 * year + month) mod 12) date.
Proof.
  rewrite !makeDay_carried. unfold carriedYear, carriedMonth.
  replace ((12 * year + month) / 12) with (year + month / 12)
    by (Z.to_euclidean_division_equations; lia).
  replace ((12 * year + month) mod 12) with (month mod 12)
    by (Z.to_euclidean_division_equations; lia).
  rewrite Z.mod_mod by lia.
  replace (month mod 12 / 12) with 0 by (Z.to_euclidean_division_equations; lia).
  rewrite Z.add_0_r. reflexivity.
Qed.

Lemma makeDate_index year month :
  ~ (0 <= year <= 99) ->
  makeDate tz year month 1 = monthOpening tz (12 * year + month).
Proof.
  intros Hy. unfold makeDate, monthOpening.
  destruct (Z.leb_spec 0 year), (Z.leb_spec year 99); cbn [andb]; try lia;
    rewrite (makeDay_index year month 1); reflexivity.
Qed.

Lemma monthOpening_fields index :
  getFullYear tz (monthOpening tz index) = index / 12 /\
  getMonth tz (monthOpening tz index) = index mod 12 /\
  getDate tz (monthOpening tz index) = 1.
Proof.
  unfold monthOpening.
  pose proof (makeDay_length (index / 12) (index mod 12)) as Hlen.
  pose proof (civilFromDays_makeDay (index / 12) (index mod 12) 1 ltac:(lia)) as Hc.
  rewrite <- (localDay_makeDay (makeDay (index / 12) (index mod 12) 1)) in Hc.
  apply fields_civil in Hc. destruct Hc as (Hy & Hm & Hd).
  unfold carriedYear, carriedMonth in *.
  rewrite Hy, Hm, Hd. rewrite Z.mod_mod by lia.
  replace (index mod 12 / 12) with 0 by (Z.to_euclidean_division_equations; lia).
  repeat split; lia.
Qed.

Lemma monthIndex_monthOpening index : monthIndex tz (monthOpening tz index) = index.
Proof.
  unfold monthIndex. destruct (monthOpening_fields index) as (-> & -> & _).
  Z.to_euclidean_division_equations. lia.
Qed.

Lemma year_of_index index : 1200 <= index -> ~ (0 <= index / 12 <= 99).
Proof. intros H. Z.to_euclidean_division_equations. lia. Qed.

(** The first day of the month of [t]. *)
Lemma firstDayOfMonth_index t :
  100 <= getFullYear tz t -> firstDayOfMonth tz t = monthOpening tz (monthIndex tz t).
Proof. intros Hy. unfold firstDayOfMonth, monthIndex. apply makeDate_index. lia. Qed.

Lemma changePeriod_index offsetMonths currentPeriod :
  100 <= getFullYear tz currentPeriod ->
  1200 <= monthIndex tz currentPeriod + offsetMonths ->
  Navigation.changePeriod tz offsetMonths currentPeriod
  = monthOpening tz (monthIndex tz currentPeriod + offsetMonths).
Proof.
  intros Hy Hi. unfold Navigation.changePeriod. cbv zeta.
  rewrite (makeDate_index (getFullYear tz currentPeriod)) by lia.
  replace (12 * getFullYear tz currentPeriod + (getMonth tz currentPeriod + offsetMonths))
    with (monthIndex tz currentPeriod + offsetMonths) by (unfold monthIndex; lia).
  destruct (monthOpening_fields (monthIndex tz currentPeriod + offsetMonths)) as (Ey & Em & _).
  rewrite Ey, Em. rewrite makeDate_index by (apply year_of_index, Hi).
  f_equal. Z.to_euclidean_division_equations. lia.
Qed.

End Zone.

End MonthFacts.

(** * The favorites store *)

Module FavoriteFacts.
Import FavoriteSpec.
Import Js LocalStorage Script Favorites FavoriteSets.



Lemma getFavorites_read st :
  getFavorites st
  = match st !! FAVORITES_KEY with
    | Some text => if String.eqb text EmptyString then noFavorites else readFavorites text
    | None => noFavorites
    end.
Proof.
  unfold getFavorites, getItem, readFavorites, parse, JSON_parse.
  destruct (st !! FAVORITES_KEY) as [text|]; [|reflexivity].
  unfold LogCrud.truthyText. destruct (String.eqb text EmptyString); [reflexivity|].
  cbn [negb]. destruct (JSON.parseText text) as [[| | | | |members]|]; reflexivity.
Qed.

Lemma getFavorites_ext st st' :
  st !! FAVORITES_KEY = st' !! FAVORITES_KEY -> getFavorites st = getFavorites st'.
Proof. intros E. rewrite !getFavorites_read, E. reflexivity. Qed.

Lemma toValue_nonempty f : String.eqb (JSON.stringify (toValue f)) EmptyString = false.
Proof. reflexivity. Qed.

(** What [saveFavorites] writes, [getFavorites] reads back. *)
Lemma getFavorites_saveFavorites f st :
  getFavorites (saveFavorites (toValue f) st) = f.
Proof.
  rewrite getFavorites_read. unfold saveFavorites, setItem. rewrite lookup_insert_eq.
  rewrite toValue_nonempty. unfold readFavorites.
  rewrite JSONFacts.parseText_stringify. destruct f as [ps qs]. reflexivity.
Qed.

Lemma indexOf_range array text : -1 <= indexOf array text < Z.of_nat (length array).
Proof.
  induction array as [|item rest IH]; cbn [indexOf length]; [lia|].
  destruct (isText text item); [lia|].
  destruct (Z.eqb_spec (indexOf rest text) (-1)); lia.
Qed.

Lemma indexOf_includes array text :
  (indexOf array text =? -1) = negb (includes array text).
Proof.
  unfold includes. induction array as [|item rest IH]; [reflexivity|].
  cbn [indexOf existsb]. destruct (isText text item); [reflexivity|]. cbn [orb].
  pose proof (indexOf_range rest text).
  destruct (Z.eqb_spec (indexOf rest text) (-1)) as [E|E].
  - rewrite <- IH. reflexivity.
  - rewrite <- IH. apply Z.eqb_neq. lia.
Qed.


Lemma includes_occurrences array text :
  includes array text = negb (Nat.eqb (occurrences text array) 0).
Proof.
  unfold includes, occurrences. induction array as [|item rest IH]; [reflexivity|].
  cbn [existsb List.filter]. destruct (isText text item); [reflexivity|exact IH].
Qed.

Lemma occurrences_app text a b :
  occurrences text (a ++ b) = (occurrences text a + occurrences text b)%nat.
Proof. unfold occurrences. rewrite List.filter_app, length_app. reflexivity. Qed.

Lemma isText_Str text other : isText text (JSON.Str other) = String.eqb other text.
Proof. reflexivity. Qed.

(** Removing the first occurrence of [text]. *)
Lemma splice1_indexOf array text other :
  includes array text = true ->
  occurrences other (splice1 array (indexOf array text))
  = if String.eqb text other then Nat.pred (occurrences other array)
    else occurrences other array.
Proof.
  unfold splice1, includes. induction array as [|item rest IH]; [intros E; discriminate E|].
  cbn [existsb indexOf]. destruct (isText text item) eqn:Hitem.
  - intros _. cbn [Z.to_nat firstn skipn app]. unfold occurrences. cbn [List.filter].
    destruct item as [| | |s| |]; try discriminate Hitem.
    cbn [isText] in Hitem |- *. apply String.eqb_eq in Hitem. subst s.
    rewrite (String.eqb_sym text other).
    destruct (String.eqb other text); reflexivity.
  - cbn [orb]. intros Hrest. specialize (IH Hrest).
    pose proof (indexOf_range rest text) as Hr.
    assert (Hne : indexOf rest text <> -1).
    { intros E. pose proof (indexOf_includes rest text) as H.
      rewrite E in H. unfold includes in H. rewrite Hrest in H. discriminate H. }
    destruct (Z.eqb_spec (indexOf rest text) (-1)) as [E|_]; [contradiction|].
    replace (Z.to_nat (indexOf rest text + 1)) with (S (Z.to_nat (indexOf rest text))) by lia.
    cbn [firstn skipn app]. unfold occurrences in *. cbn [List.filter].
    destruct (isText other item) eqn:Hother; cbn [length]; rewrite IH.
    + destruct (String.eqb text other) eqn:E; [|reflexivity].
      apply String.eqb_eq in E. subst other. congruence.
    + reflexivity.
Qed.

(** Pushing [text] and then removing its first occurrence undoes the push
    when [text] was not there. *)
Lemma splice1_push array text :
  includes array text = false ->
  splice1 (array ++ [JSON.Str text]) (indexOf (array ++ [JSON.Str text]) text) = array.
Proof.
  unfold splice1, includes. induction array as [|item rest IH]; cbn [existsb app indexOf].
  - intros _. cbn [isText]. rewrite String.eqb_refl. reflexivity.
  - destruct (isText text item); [intros E; discriminate E|]. cbn [orb]. intros Hrest.
    specialize (IH Hrest).
    pose proof (indexOf_range (rest ++ [JSON.Str text]) text) as Hr.
    assert (Hin : includes (rest ++ [JSON.Str text]) text = true).
    { unfold includes. rewrite existsb_app. cbn [existsb isText].
      rewrite String.eqb_refl. apply orb_true_iff. right. reflexivity. }
    pose proof (indexOf_includes (rest ++ [JSON.Str text]) text) as H. rewrite Hin in H.
    cbn [negb] in H. rewrite H.
    apply Z.eqb_neq in H.
    replace (Z.to_nat (indexOf (rest ++ [JSON.Str text]) text + 1))
      with (S (Z.to_nat (indexOf (rest ++ [JSON.Str text]) text))) by lia.
    cbn [firstn skipn app]. f_equal. exact IH.
Qed.

(** A toggle answers the opposite of the test before it. *)
Lemma toggleProjectFavorite_answer id st :
  fst (toggleProjectFavorite id st) = negb (isProjectFavorite id st).
Proof.
  unfold toggleProjectFavorite, isProjectFavorite. rewrite indexOf_includes.
  destruct (includes (projects (getFavorites st)) id); reflexivity.
Qed.

Lemma toggleIssueFavorite_answer id st :
  fst (toggleIssueFavorite id st) = negb (isIssueFavorite id st).
Proof.
  unfold toggleIssueFavorite, isIssueFavorite. rewrite indexOf_includes.
  destruct (includes (issues (getFavorites st)) id); reflexivity.
Qed.

End FavoriteFacts.

(** * Properties of the favorites store *)

Module FavoriteProps.
Import Js LocalStorage Script Favorites FavoriteSets FavoriteSpec FavoriteFacts.

(** X1.  [getFavorites] never fails and answers two empty lists when nothing
    is stored under appFavorites, when the stored text is empty, and when it
    is not the JSON text of an object: not JSON at all, or [null] (whose
    property read throws inside the [try]), a number, a string, an array. *)
Theorem getFavorites_defaults (st : gmap string string) :
  (st !! FAVORITES_KEY = None \/
   st !! FAVORITES_KEY = Some EmptyString \/
   exists text, st !! FAVORITES_KEY = Some text /\
                forall members, JSON.parseText text <> Some (JSON.Obj members)) ->
  getFavorites st = {| projects := []; issues := [] |}.
Proof.
  rewrite getFavorites_read. intros [->|[->|(text & -> & Hno)]]; [reflexivity..|].
  destruct (String.eqb text EmptyString); [reflexivity|].
  unfold readFavorites.
  destruct (JSON.parseText text) as [[| | | | |members]|]; try reflexivity.
  destruct (Hno members). reflexivity.
Qed.

Lemma getFavorites_defaults_witness :
  getFavorites (<[FAVORITES_KEY := "null"]> ∅) = {| projects := []; issues := [] |}.
Proof.
  apply getFavorites_defaults. right. right. exists "null".
  split; [reflexivity|]. intros members E. vm_compute in E. discriminate E.
Defined.

(** X2.  A toggle answers the opposite of what the favorite test answered
    before it, whatever the storage holds. *)
Theorem toggle_answers_new_status (id : string) (st : gmap string string) :
  fst (toggleProjectFavorite id st) = negb (isProjectFavorite id st) /\
  fst (toggleIssueFavorite id st) = negb (isIssueFavorite id st).
Proof.
  split; [apply toggleProjectFavorite_answer|apply toggleIssueFavorite_answer].
Qed.

(** The projects after a toggle. *)
Lemma projects_toggle id st :
  getFavoriteProjects (snd (toggleProjectFavorite id st))
  = if includes (getFavoriteProjects st) id
    then splice1 (getFavoriteProjects st) (indexOf (getFavoriteProjects st) id)
    else getFavoriteProjects st ++ [JSON.Str id].
Proof.
  unfold getFavoriteProjects, toggleProjectFavorite. rewrite indexOf_includes.
  destruct (includes (projects (getFavorites st)) id); cbn [negb snd];
    rewrite getFavorites_saveFavorites; reflexivity.
Qed.

Lemma occurrences_toggle id other st :
  occurrences other (getFavoriteProjects (snd (toggleProjectFavorite id st)))
  = if String.eqb id other
    then (if includes (getFavoriteProjects st) id
          then Nat.pred (occurrences other (getFavoriteProjects st))
          else S (occurrences other (getFavoriteProjects st)))
    else occurrences other (getFavoriteProjects st).
Proof.
  rewrite projects_toggle.
  destruct (includes (getFavoriteProjects st) id) eqn:Hin.
  - apply splice1_indexOf, Hin.
  - rewrite occurrences_app. unfold occurrences at 2. cbn [List.filter isText].
    destruct (String.eqb id other); cbn [length]; lia.
Qed.

(** X3.  When no identifier is stored twice among the favorite projects,
    none is after a toggle, and the status that the toggle answers is the
    status that [isProjectFavorite] answers afterwards.  (With an identifier
    stored twice, removing it once leaves it a favorite.) *)
Theorem toggle_status_holds (id : string) (st : gmap string string) :
  (forall other, (occurrences other (getFavoriteProjects st) <= 1)%nat) ->
  (forall other,
     (occurrences other (getFavoriteProjects (snd (toggleProjectFavorite id st))) <= 1)%nat) /\
  isProjectFavorite id (snd (toggleProjectFavorite id st))
  = fst (toggleProjectFavorite id st).
Proof.
  intros Hone. split.
  - intros other. rewrite occurrences_toggle. specialize (Hone other).
    destruct (String.eqb_spec id other) as [<-|_]; [|exact Hone].
    destruct (includes (getFavoriteProjects st) id) eqn:Hin; [lia|].
    rewrite includes_occurrences in Hin.
    destruct (occurrences id (getFavoriteProjects st)); [lia|discriminate Hin].
  - rewrite toggleProjectFavorite_answer.
    unfold isProjectFavorite. fold (getFavoriteProjects (snd (toggleProjectFavorite id st))).
    fold (getFavoriteProjects st).
    rewrite (includes_occurrences (getFavoriteProjects (snd _))), occurrences_toggle.
    rewrite String.eqb_refl. specialize (Hone id).
    destruct (includes (getFavoriteProjects st) id) eqn:Hin; cbn [negb].
    + rewrite includes_occurrences in Hin.
      destruct (occurrences id (getFavoriteProjects st)) as [|[|n]];
        [discriminate Hin|reflexivity|lia].
    + reflexivity.
Qed.

Lemma toggle_status_holds_witness :
  isProjectFavorite "gid://gitlab/Project/7"
    (snd (toggleProjectFavorite "gid://gitlab/Project/7" ∅))
  = fst (toggleProjectFavorite "gid://gitlab/Project/7" ∅).
Proof.
  refine (proj2 (toggle_status_holds "gid://gitlab/Project/7" ∅ _)).
  intros other. vm_compute. lia.
Defined.

(** X4.  Toggling a project that is not a favorite twice makes it a favorite
    and then removes it again: the answers are true and false, and both
    lists are as they were. *)
Theorem toggle_twice_restores (id : string) (st : gmap string string) :
  isProjectFavorite id st = false ->
  let once := toggleProjectFavorite id st in
  let twice := toggleProjectFavorite id (snd once) in
  fst once = true /\ fst twice = false /\
  getFavorites (snd twice) = getFavorites st.
Proof.
  intros Hnot. cbn zeta.
  pose proof (toggleProjectFavorite_answer id st) as H1. rewrite Hnot in H1.
  split; [exact H1|].
  assert (Hin : isProjectFavorite id (snd (toggleProjectFavorite id st)) = true).
  { unfold isProjectFavorite. fold (getFavoriteProjects (snd (toggleProjectFavorite id st))).
    rewrite projects_toggle. unfold isProjectFavorite in Hnot.
    fold (getFavoriteProjects st) in Hnot. rewrite Hnot.
    unfold includes. rewrite existsb_app. cbn [existsb isText].
    rewrite String.eqb_refl. apply orb_true_iff. right. reflexivity. }
  split.
  - rewrite toggleProjectFavorite_answer, Hin. reflexivity.
  - unfold isProjectFavorite in Hin, Hnot.
    assert (Hfirst : getFavorites (snd (toggleProjectFavorite id st))
                     = {| projects := projects (getFavorites st) ++ [JSON.Str id];
                          issues := issues (getFavorites st) |}).
    { unfold toggleProjectFavorite. rewrite indexOf_includes, Hnot. cbn [negb snd].
      apply getFavorites_saveFavorites. }
    unfold toggleProjectFavorite at 1. rewrite indexOf_includes, Hin. cbn [negb snd].
    rewrite getFavorites_saveFavorites, Hfirst. cbn [projects issues].
    rewrite splice1_push by exact Hnot. destruct (getFavorites st); reflexivity.
Qed.

Lemma toggle_twice_restores_witness :
  getFavorites
    (snd (toggleProjectFavorite "gid://gitlab/Project/7"
            (snd (toggleProjectFavorite "gid://gitlab/Project/7" ∅))))
  = getFavorites ∅.
Proof.
  apply (toggle_twice_restores "gid://gitlab/Project/7" ∅). reflexivity.
Defined.

(** X5.  A toggle of a project writes the favorites record only: every other
    key of the storage, the favorite issues and the status of every other
    project are as before. *)
Theorem toggleProjectFavorite_frame (id : string) (st : gmap string string) :
  (forall key, key <> FAVORITES_KEY ->
     snd (toggleProjectFavorite id st) !! key = st !! key) /\
  getFavoriteIssues (snd (toggleProjectFavorite id st)) = getFavoriteIssues st /\
  (forall other, other <> id ->
     isProjectFavorite other (snd (toggleProjectFavorite id st))
     = isProjectFavorite other st).
Proof.
  split; [|split].
  - intros key Hkey. unfold toggleProjectFavorite.
    destruct (indexOf (projects (getFavorites st)) id =? -1); cbn [snd];
      unfold saveFavorites, setItem; apply lookup_insert_ne; congruence.
  - unfold getFavoriteIssues, toggleProjectFavorite.
    destruct (indexOf (projects (getFavorites st)) id =? -1); cbn [snd];
      rewrite getFavorites_saveFavorites; reflexivity.
  - intros other Hother. unfold isProjectFavorite.
    fold (getFavoriteProjects (snd (toggleProjectFavorite id st))).
    fold (getFavoriteProjects st).
    rewrite !includes_occurrences, occurrences_toggle.
    destruct (String.eqb_spec id other) as [E|_]; [congruence|reflexivity].
Qed.

(** X6.  The favorites are kept across a login, a logout and every operation
    of the cache store: none of them changes what [getFavorites] answers;
    [clearAllFavorites] empties both lists and leaves the other keys
    alone. *)
Theorem favorites_outlive_sessions (st : gmap string string)
    (username token repository timestamp period path : string) (nodes : JSON.value) :
  getFavorites (Auth.saveCredentials username token repository timestamp st) = getFavorites st /\
  getFavorites (Auth.logout st) = getFavorites st /\
  getFavorites (Store.clearAll st) = getFavorites st /\
  getFavorites (Store.storeProjects nodes st) = getFavorites st /\
  getFavorites (Store.storeIssues path nodes st) = getFavorites st /\
  getFavorites (Store.storeTimeLogs period nodes st) = getFavorites st /\
  getFavorites (clearAllFavorites st) = {| projects := []; issues := [] |} /\
  (forall key, key <> FAVORITES_KEY -> clearAllFavorites st !! key = st !! key).
Proof.
  assert (Hclear : forall s, Store.clearAll s !! FAVORITES_KEY = s !! FAVORITES_KEY).
  { intros s. rewrite StoreFacts.clearAll_lookup. reflexivity. }
  repeat split.
  - apply getFavorites_ext. unfold Auth.saveCredentials. rewrite Hclear.
    apply lookup_insert_ne. discriminate.
  - apply getFavorites_ext. apply lookup_delete_ne. discriminate.
  - apply getFavorites_ext, Hclear.
  - apply getFavorites_ext. apply lookup_insert_ne. discriminate.
  - apply getFavorites_ext. apply lookup_insert_ne. discriminate.
  - apply getFavorites_ext. apply lookup_insert_ne. discriminate.
  - rewrite getFavorites_read. unfold clearAllFavorites, removeItem.
    rewrite lookup_delete_eq. reflexivity.
  - intros key Hkey. apply lookup_delete_ne. congruence.
Qed.

Lemma toggleProjectFavorite_frame_witness :
  snd (toggleProjectFavorite "gid://gitlab/Project/1" ∅) !! "userAuth"
  = (∅ : gmap string string) !! "userAuth" /\
  isProjectFavorite "gid://gitlab/Project/2"
    (snd (toggleProjectFavorite "gid://gitlab/Project/1" ∅))
  = isProjectFavorite "gid://gitlab/Project/2" ∅.
Proof.
  destruct (toggleProjectFavorite_frame "gid://gitlab/Project/1" ∅) as (Hkeys & _ & Hothers).
  split.
  - apply Hkeys. vm_compute. intros E; discriminate E.
  - apply Hothers. intros E; discriminate E.
Defined.

End FavoriteProps.

(** * Reading the credentials *)

Module SessionFacts.
Import SessionSpec.
Import Js LocalStorage Script Auth Session.


Lemma getStoredAuth_read st :
  getStoredAuth st
  = match st !! AUTH_STORAGE_KEY with
    | Some text =>
        if String.eqb text EmptyString then (None, st)
        else match JSON.parseText text with
             | None | Some JSON.Null => (None, removeItem AUTH_STORAGE_KEY st)
             | Some (JSON.Obj members) => (recognise members, st)
             | Some _ => (None, st)
             end
    | None => (None, st)
    end.
Proof.
  unfold getStoredAuth, getItem, parse, JSON_parse, recognise.
  destruct (st !! AUTH_STORAGE_KEY) as [text|]; [|reflexivity].
  unfold LogCrud.truthyText. destruct (String.eqb text EmptyString); [reflexivity|].
  cbn [negb]. destruct (JSON.parseText text) as [[| | | | |members]|]; try reflexivity.
  cbn [andThen get].
  destruct (truthy (member "username" members) && truthy (member "token" members));
    reflexivity.
Qed.

Lemma readAuthMember_read name st :
  readAuthMember name st
  = match st !! AUTH_STORAGE_KEY with
    | Some text =>
        if String.eqb text EmptyString then Some JSON.Null
        else match JSON.parseText text with
             | None | Some JSON.Null => Some JSON.Null
             | Some (JSON.Obj members) => member name members
             | Some _ => None
             end
    | None => Some JSON.Null
    end.
Proof.
  unfold readAuthMember, getItem, parse, JSON_parse.
  change "userAuth" with AUTH_STORAGE_KEY.
  destruct (st !! AUTH_STORAGE_KEY) as [text|]; [|reflexivity].
  unfold LogCrud.truthyText. destruct (String.eqb text EmptyString); [reflexivity|].
  cbn [negb]. destruct (JSON.parseText text) as [[| | | | |members]|]; reflexivity.
Qed.

Lemma saveCredentials_lookup username token repository timestamp st :
  saveCredentials username token repository timestamp st !! AUTH_STORAGE_KEY
  = Some (JSON.stringify (authRecord username token repository timestamp)).
Proof.
  unfold saveCredentials. rewrite StoreFacts.clearAll_lookup.
  change (Store.isCacheKey AUTH_STORAGE_KEY) with false.
  unfold setItem. apply lookup_insert_eq.
Qed.

Lemma authRecord_text username token repository timestamp :
  String.eqb (JSON.stringify (authRecord username token repository timestamp)) EmptyString
  = false.
Proof. reflexivity. Qed.

Lemma truthy_Str s : s <> EmptyString -> truthy (Some (JSON.Str s)) = true.
Proof.
  intros Hs. cbn [truthy JSON.truthy].
  destruct (String.eqb_spec s EmptyString); [contradiction|reflexivity].
Qed.

(** What [saveCredentials] stores is a session. *)
Lemma saved_session username token repository timestamp st :
  username <> EmptyString ->
  token <> EmptyString ->
  getStoredAuth (saveCredentials username token repository timestamp st)
  = (Some {| Session.username := Some (JSON.Str username);
             Session.token := Some (JSON.Str token);
             Session.repository := Some (JSON.Str repository) |},
     saveCredentials username token repository timestamp st).
Proof.
  intros Hu Ht. rewrite getStoredAuth_read.
  rewrite saveCredentials_lookup, authRecord_text, JSONFacts.parseText_stringify.
  unfold authRecord, recognise. cbn [member String.eqb Ascii.eqb Bool.eqb].
  rewrite (truthy_Str _ Hu), (truthy_Str _ Ht). reflexivity.
Qed.

Lemma saved_member name username token repository timestamp st :
  readAuthMember name (saveCredentials username token repository timestamp st)
  = member name [("username", JSON.Str username); ("token", JSON.Str token);
                 ("repository", JSON.Str repository); ("timestamp", JSON.Str timestamp)].
Proof.
  rewrite readAuthMember_read.
  rewrite saveCredentials_lookup, authRecord_text, JSONFacts.parseText_stringify.
  reflexivity.
Qed.

End SessionFacts.

(** * Properties of the credential readers *)

Module SessionProps.
Import Js LocalStorage Script Auth Session SessionSpec SessionFacts.

(** X7.  What [saveCredentials] stores, the readers find: with a username
    and a token that are not empty, [getStoredAuth] answers the three values
    (without the timestamp) and leaves the storage alone, [getToken] and
    [getUsername] answer the token and the username, and the token guard of
    the requests passes. *)
Theorem credentials_round_trip (username token repository timestamp : string)
    (st : gmap string string) :
  username <> EmptyString ->
  token <> EmptyString ->
  let saved := saveCredentials username token repository timestamp st in
  getStoredAuth saved
  = (Some {| Session.username := Some (JSON.Str username);
             Session.token := Some (JSON.Str token);
             Session.repository := Some (JSON.Str repository) |}, saved) /\
  getToken saved = Some (JSON.Str token) /\
  getUsername saved = Some (JSON.Str username) /\
  hasToken saved = true /\
  fst (checkAuth saved) = true.
Proof.
  intros Hu Ht saved.
  pose proof (saved_session username token repository timestamp st Hu Ht) as Hread.
  assert (Htoken : getToken saved = Some (JSON.Str token)).
  { unfold getToken, saved. rewrite saved_member. reflexivity. }
  split; [exact Hread|]. split; [exact Htoken|]. split; [|split].
  - unfold getUsername, saved. rewrite saved_member. reflexivity.
  - unfold hasToken. rewrite Htoken. apply truthy_Str, Ht.
  - unfold checkAuth. fold saved in Hread. rewrite Hread. reflexivity.
Qed.

Lemma credentials_round_trip_witness :
  getToken (saveCredentials "ada" "glpat-12345678" "https://gitlab.com"
              "2024-03-04T09:00:00.000Z" ∅)
  = Some (JSON.Str "glpat-12345678").
Proof.
  refine (proj1 (proj2 (credentials_round_trip "ada" "glpat-12345678" "https://gitlab.com"
                          "2024-03-04T09:00:00.000Z" ∅ _ _)));
    intros E; discriminate E.
Defined.

(** X8.  A stored record that cannot be read is thrown away: when the text
    under userAuth is not JSON, or is [null], [getStoredAuth] answers [null]
    and removes the record, so that the next call finds nothing and changes
    nothing.  No call ever touches another key. *)
Theorem getStoredAuth_discards_unreadable (st : gmap string string) (text : string) :
  st !! AUTH_STORAGE_KEY = Some text ->
  text <> EmptyString ->
  JSON.parseText text = None \/ JSON.parseText text = Some JSON.Null ->
  getStoredAuth st = (None, removeItem AUTH_STORAGE_KEY st) /\
  getStoredAuth (removeItem AUTH_STORAGE_KEY st) = (None, removeItem AUTH_STORAGE_KEY st) /\
  forall key, key <> AUTH_STORAGE_KEY -> snd (getStoredAuth st) !! key = st !! key.
Proof.
  intros Hst Htext Hbad.
  assert (Hfirst : getStoredAuth st = (None, removeItem AUTH_STORAGE_KEY st)).
  { rewrite getStoredAuth_read, Hst.
    destruct (String.eqb_spec text EmptyString); [contradiction|].
    destruct Hbad as [->| ->]; reflexivity. }
  split; [exact Hfirst|]. split.
  - rewrite getStoredAuth_read. unfold removeItem. rewrite lookup_delete_eq. reflexivity.
  - intros key Hkey. rewrite Hfirst. cbn [snd]. apply lookup_delete_ne. congruence.
Qed.

Lemma getStoredAuth_discards_unreadable_witness :
  getStoredAuth (<[AUTH_STORAGE_KEY := "{username"]> ∅)
  = (None, removeItem AUTH_STORAGE_KEY (<[AUTH_STORAGE_KEY := "{username"]> ∅)).
Proof.
  refine (proj1 (getStoredAuth_discards_unreadable
                   (<[AUTH_STORAGE_KEY := "{username"]> ∅) "{username" _ _ _)).
  - reflexivity.
  - intros E; discriminate E.
  - left. vm_compute. reflexivity.
Defined.

(** X9.  The readers agree: whenever [getStoredAuth] answers a record, it has
    not changed the storage, [getToken] and [getUsername] answer the token
    and the username of that record, and the token guard of the requests
    passes. *)
Theorem readers_agree (st : gmap string string) (auth : storedAuth) :
  fst (getStoredAuth st) = Some auth ->
  snd (getStoredAuth st) = st /\
  getToken st = token auth /\
  getUsername st = username auth /\
  hasToken st = true.
Proof.
  unfold hasToken, getToken, getUsername.
  rewrite getStoredAuth_read, !readAuthMember_read.
  destruct (st !! AUTH_STORAGE_KEY) as [text|]; [|intros E; discriminate E].
  destruct (String.eqb text EmptyString); [intros E; discriminate E|].
  destruct (JSON.parseText text) as [[| | | | |members]|]; try (intros E; discriminate E).
  unfold recognise. cbn [fst snd].
  destruct (truthy (member "username" members)) eqn:Hu; [|intros E; discriminate E].
  destruct (truthy (member "token" members)) eqn:Ht; [|intros E; discriminate E].
  cbn [andb]. intros [= <-]. cbn [token username]. auto.
Qed.

Lemma readers_agree_witness :
  getToken (saveCredentials "ada" "glpat-12345678" "https://gitlab.com"
              "2024-03-04T09:00:00.000Z" ∅)
  = Some (JSON.Str "glpat-12345678").
Proof.
  refine (proj1 (proj2 (readers_agree
            (saveCredentials "ada" "glpat-12345678" "https://gitlab.com"
               "2024-03-04T09:00:00.000Z" ∅)
            {| username := Some (JSON.Str "ada");
               token := Some (JSON.Str "glpat-12345678");
               repository := Some (JSON.Str "https://gitlab.com") |} _))).
  vm_compute. reflexivity.
Defined.

(** X10.  After a logout nobody is logged in: [getStoredAuth] and
    [checkAuth] find no session and change nothing, [getToken] and
    [getUsername] answer [null], and the token guard stops every request. *)
Theorem logout_ends_session (st : gmap string string) :
  getStoredAuth (logout st) = (None, logout st) /\
  checkAuth (logout st) = (false, logout st) /\
  getToken (logout st) = Some JSON.Null /\
  getUsername (logout st) = Some JSON.Null /\
  hasToken (logout st) = false.
Proof.
  assert (Hread : getStoredAuth (logout st) = (None, logout st)).
  { rewrite getStoredAuth_read. unfold logout, clearCredentials, removeItem.
    rewrite lookup_delete_eq. reflexivity. }
  assert (Hmember : forall name, readAuthMember name (logout st) = Some JSON.Null).
  { intros name. rewrite readAuthMember_read. unfold logout, clearCredentials, removeItem.
    rewrite lookup_delete_eq. reflexivity. }
  split; [exact Hread|]. split; [unfold checkAuth; rewrite Hread; reflexivity|].
  unfold hasToken, getToken, getUsername. rewrite !Hmember. auto.
Qed.

(** X11.  The login form either rejects its input and leaves the storage as
    it was, or saves the trimmed values; what it saves is a session:
    [getStoredAuth] answers the trimmed username, token and repository,
    [getToken] the trimmed token, and the project cache is empty. *)
Theorem submitLogin_saves_a_session (usernameField tokenField : string)
    (repositoryField : option string) (timestamp : string) (st : gmap string string) :
  let result := submitLogin usernameField tokenField repositoryField timestamp st in
  match fst result with
  | Some message => snd result = st
  | None =>
      exists repository,
        repositoryField = Some repository /\
        fst (getStoredAuth (snd result))
        = Some {| username := Some (JSON.Str (trim usernameField));
                  token := Some (JSON.Str (trim tokenField));
                  repository := Some (JSON.Str (trim repository)) |} /\
        getToken (snd result) = Some (JSON.Str (trim tokenField)) /\
        Store.getProjects (snd result) = Normal JSON.Null
  end.
Proof.
  cbn zeta. unfold submitLogin.
  destruct (isEmpty (trim usernameField)) eqn:Hu; [reflexivity|].
  destruct (isEmpty (trim tokenField)) eqn:Ht; [reflexivity|].
  destruct repositoryField as [repository|]; [|reflexivity].
  destruct (isEmpty (trim repository)) eqn:Hr; [reflexivity|]. cbn [orb].
  destruct (Z.of_nat (String.length (trim usernameField)) <? 3); [reflexivity|].
  destruct (Z.of_nat (String.length (trim tokenField)) <? 8); [reflexivity|].
  destruct ((Z.of_nat (String.length (trim repository)) <? 5)
            || negb (String.prefix "http://" (trim repository)
                     || String.prefix "https://" (trim repository))); [reflexivity|].
  cbn [fst snd]. exists repository. split; [reflexivity|].
  unfold isEmpty in Hu, Ht. apply String.eqb_neq in Hu, Ht.
  rewrite (saved_session _ _ (trim repository) timestamp st Hu Ht).
  unfold getToken. rewrite saved_member. split; [reflexivity|]. split; [reflexivity|].
  rewrite StoreFacts.getProjects_cached. f_equal.
  apply StoreFacts.cached_clearAll, StoreFacts.isCacheKey_keyFor.
Qed.

Lemma submitLogin_saves_a_session_witness :
  getToken (snd (submitLogin " ada " "glpat-12345678 " (Some "https://gitlab.com")
                   "2024-03-04T09:00:00.000Z" ∅))
  = Some (JSON.Str "glpat-12345678").
Proof.
  pose proof (submitLogin_saves_a_session " ada " "glpat-12345678 " (Some "https://gitlab.com")
                "2024-03-04T09:00:00.000Z" ∅) as H.
  cbv zeta in H.
  assert (E : fst (submitLogin " ada " "glpat-12345678 " (Some "https://gitlab.com")
                     "2024-03-04T09:00:00.000Z" ∅) = None) by reflexivity.
  rewrite E in H. destruct H as (repository & _ & _ & Htoken & _). exact Htoken.
Defined.

End SessionProps.

(** * Properties of the period navigation *)

Module NavigationProps.
Import Time Calendar MonthSpec CalendarFacts App WeekSpec TimeFacts MonthFacts Navigation.

Section Zone.

Variable tz : Z.

(** X12.  [changePeriod] counts in months.  From a period in the year 100 or
    later, and as long as it stays there, a move by [a] months lands on the
    local midnight that opens the month [a] months on, December carrying
    into January; a move by [a] and then by [b] is a move by [a + b], so
    that going forward and back returns to the first day of the month one
    started in. *)
Theorem changePeriod_counts_months (a b currentPeriod : Z) :
  100 <= getFullYear tz currentPeriod ->
  1200 <= monthIndex tz currentPeriod + a ->
  1200 <= monthIndex tz currentPeriod + a + b ->
  monthIndex tz (changePeriod tz a currentPeriod) = monthIndex tz currentPeriod + a /\
  getDate tz (changePeriod tz a currentPeriod) = 1 /\
  midnight tz (changePeriod tz a currentPeriod) /\
  changePeriod tz b (changePeriod tz a currentPeriod) = changePeriod tz (a + b) currentPeriod /\
  changePeriod tz (- a) (changePeriod tz a currentPeriod) = firstDayOfMonth tz currentPeriod.
Proof.
  intros Hy Ha Hb.
  pose proof (changePeriod_index tz a currentPeriod Hy Ha) as Ea.
  pose proof (monthIndex_monthOpening tz (monthIndex tz currentPeriod + a)) as Ei.
  destruct (monthOpening_fields tz (monthIndex tz currentPeriod + a)) as (Eyear & _ & Edate).
  assert (Hy' : 100 <= getFullYear tz (monthOpening tz (monthIndex tz currentPeriod + a))).
  { rewrite Eyear. Z.to_euclidean_division_equations. lia. }
  assert (Hindex : 1200 <= monthIndex tz currentPeriod).
  { pose proof (getMonth_range tz currentPeriod). unfold monthIndex. lia. }
  rewrite Ea. split; [exact Ei|]. split; [exact Edate|]. split; [|split].
  - unfold monthOpening, midnight.
    match goal with |- (?d * msPerDay - tz + tz) mod _ = 0 =>
      replace (d * msPerDay - tz + tz) with (d * msPerDay) by lia end.
    apply Z.mod_mul. unfold msPerDay. lia.
  - rewrite changePeriod_index by (rewrite ?Ei; assumption).
    rewrite changePeriod_index by (try assumption; lia).
    rewrite Ei. f_equal. lia.
  - rewrite changePeriod_index by (rewrite ?Ei; try assumption; lia).
    rewrite Ei, firstDayOfMonth_index by exact Hy. f_equal. lia.
Qed.

End Zone.

Lemma changePeriod_counts_months_witness :
  changePeriod 0 1 (changePeriod 0 1 (Sample.utc 2023 11 1 0))
  = changePeriod 0 (1 + 1) (Sample.utc 2023 11 1 0).
Proof.
  assert (H1 : 100 <= getFullYear 0 (Sample.utc 2023 11 1 0))
    by (vm_compute; intros E; discriminate E).
  assert (H2 : 1200 <= monthIndex 0 (Sample.utc 2023 11 1 0) + 1)
    by (vm_compute; intros E; discriminate E).
  assert (H3 : 1200 <= monthIndex 0 (Sample.utc 2023 11 1 0) + 1 + 1)
    by (vm_compute; intros E; discriminate E).
  exact (proj1 (proj2 (proj2 (proj2
           (changePeriod_counts_months 0 1 1 (Sample.utc 2023 11 1 0) H1 H2 H3))))).
Defined.

Section Zone.

Variable tz : Z.

(** X13.  The range that [loadTimeLogs] requests for a period, from
    [startDate] to [endDate], holds exactly the instants of that local
    month, and the range of the next period starts one millisecond after:
    the ranges of the months tile the time line. *)
Theorem request_range_is_the_month (ref t : Z) :
  100 <= getFullYear tz ref ->
  (startDate tz ref <= t <= endDate tz ref
   <-> getFullYear tz t = getFullYear tz ref /\ getMonth tz t = getMonth tz ref) /\
  endDate tz ref + 1 = startDate tz (changePeriod tz 1 ref).
Proof.
  intros Hy. pose proof (getMonth_range tz ref) as Hm.
  set (y := getFullYear tz ref) in *. set (m := getMonth tz ref) in *.
  assert (Hquirk : (0 <=? y) && (y <=? 99) = false).
  { destruct (Z.leb_spec 0 y), (Z.leb_spec y 99); cbn [andb]; lia. }
  assert (Hcy : carriedYear y m = y).
  { unfold carriedYear. replace (m / 12) with 0 by (Z.to_euclidean_division_equations; lia).
    lia. }
  assert (Hcm : carriedMonth m = m + 1).
  { unfold carriedMonth. rewrite Z.mod_small by lia. reflexivity. }
  pose proof (firstOfNext_carried y m) as Hnext. rewrite Hcy, Hcm in Hnext.
  pose proof (makeDay_length y m) as Hlen.
  assert (Hstart : startDate tz ref = makeDay y m 1 * msPerDay - tz).
  { unfold startDate, makeDateTime. fold y m. rewrite Hquirk. lia. }
  assert (Hend : endDate tz ref = makeDay y (m + 1) 1 * msPerDay - 1 - tz).
  { unfold endDate, makeDateTime. fold y m. rewrite Hquirk.
    rewrite (makeDay_carried y (m + 1) 0), (makeDay_carried y (m + 1) 1).
    unfold msPerDay. lia. }
  split.
  - rewrite Hstart, Hend.
    assert (Hday : makeDay y m 1 * msPerDay - tz <= t <= makeDay y (m + 1) 1 * msPerDay - 1 - tz
                   <-> makeDay y m 1 <= localDay tz t < makeDay y (m + 1) 1).
    { unfold localDay, msPerDay. Z.to_euclidean_division_equations. lia. }
    rewrite Hday. rewrite (makeDay_carried y m 1), Hcy, Hcm.
    replace (daysFromCivil y (m + 1) 1 + 1 - 1) with (daysFromCivil y (m + 1) 1) by lia.
    rewrite <- Hnext. split.
    + intros Hin. pose proof (civilFromDays_within y (m + 1) _ ltac:(lia) Hin) as Hc.
      apply (fields_civil tz) in Hc. destruct Hc as (-> & -> & _). split; lia.
    + intros [Ey Em]. pose proof (civilFromDays_bounds (localDay tz t)) as Hb.
      rewrite civil_fields, Ey, Em in Hb. tauto.
  - rewrite Hend.
    assert (Hi : 1200 <= monthIndex tz ref + 1) by (unfold monthIndex; fold y m; lia).
    pose proof (changePeriod_index tz 1 ref Hy Hi) as Ec.
    destruct (monthOpening_fields tz (monthIndex tz ref + 1)) as (Ey & Em & _).
    unfold startDate, makeDateTime. rewrite Ec, Ey, Em.
    assert (Hq : (0 <=? (monthIndex tz ref + 1) / 12)
                 && ((monthIndex tz ref + 1) / 12 <=? 99) = false).
    { destruct (Z.leb_spec 0 ((monthIndex tz ref + 1) / 12)),
        (Z.leb_spec ((monthIndex tz ref + 1) / 12) 99); cbn [andb]; try reflexivity.
      exfalso. Z.to_euclidean_division_equations. lia. }
    rewrite Hq. rewrite (makeDay_index y (m + 1) 1).
    replace (12 * y + (m + 1)) with (monthIndex tz ref + 1) by (unfold monthIndex; fold y m; lia).
    lia.
Qed.

End Zone.

Lemma request_range_is_the_month_witness :
  endDate 0 (Sample.utc 2024 2 10 12) + 1
  = startDate 0 (changePeriod 0 1 (Sample.utc 2024 2 10 12)).
Proof.
  assert (H1 : 100 <= getFullYear 0 (Sample.utc 2024 2 10 12))
    by (vm_compute; intros E; discriminate E).
  exact (proj2 (request_range_is_the_month 0 (Sample.utc 2024 2 10 12) 0 H1)).
Defined.

End NavigationProps.

(** * Date texts of the modal *)

Module ModalFacts.
Import Time Calendar MonthSpec CalendarFacts App IsoFacts TimeFacts MonthFacts LogCrud.

Lemma length_four (s : string) :
  String.length s = 4%nat ->
  exists c0 c1 c2 c3, s = String c0 (String c1 (String c2 (String c3 EmptyString))).
Proof.
  destruct s as [|c0 [|c1 [|c2 [|c3 [|c4 s]]]]]; intros E; try discriminate E.
  exists c0, c1, c2, c3. reflexivity.
Qed.

Lemma length_two (s : string) :
  String.length s = 2%nat -> exists c0 c1, s = String c0 (String c1 EmptyString).
Proof.
  destruct s as [|c0 [|c1 [|c2 s]]]; intros E; try discriminate E.
  exists c0, c1. reflexivity.
Qed.


Lemma allFrom_spec (fuel : nat) (k : Z) (f : Z -> bool) :
  allFrom fuel k f = true -> forall n, k <= n < k + Z.of_nat fuel -> f n = true.
Proof.
  revert k. induction fuel as [|fuel IH]; intros k H n Hn; [lia|].
  cbn [allFrom] in H. apply andb_true_iff in H as [Hk Hrest].
  destruct (Z.eq_dec n k) as [->|Hne]; [exact Hk|].
  apply (IH (k + 1) Hrest). lia.
Qed.

Lemma year_length (y : Z) : 1000 <= y <= 9999 -> String.length (numToString y) = 4%nat.
Proof.
  intros Hy. apply Nat.eqb_eq.
  apply (allFrom_spec (Z.to_nat 9000) 1000
           (fun n => Nat.eqb (String.length (numToString n)) 4)).
  - vm_compute. reflexivity.
  - rewrite Z2Nat.id by lia. lia.
Qed.

Section Zone.

Variable tz : Z.

(** [new Date(text)] of the local date text of [t] is the UTC midnight that
    opens the day with the number of the local day of [t]. *)
Lemma parseDateOnly_localDateString (t : Z) :
  1000 <= getFullYear tz t <= 9999 ->
  parseDateOnly (localDateString tz t) = Some (localDay tz t * msPerDay).
Proof.
  intros Hy. unfold localDateString.
  pose proof (civilFromDays_range (localDay tz t)) as [Hm Hd].
  pose proof (daysFromCivil_civilFromDays (localDay tz t)) as Hround.
  rewrite (civil_fields tz t) in Hm, Hd, Hround. cbn [fst snd] in Hm, Hd.
  set (y := getFullYear tz t) in *. set (m := getMonth tz t + 1) in *.
  set (d := getDate tz t) in *.
  fold (twoDigits m) (twoDigits d).
  destruct (length_four _ (year_length y Hy)) as (c0 & c1 & c2 & c3 & Ey).
  destruct (length_two _ (twoDigits_length m ltac:(lia))) as (c5 & c6 & Em).
  destruct (length_two _ (twoDigits_length d ltac:(lia))) as (c8 & c9 & Ed).
  pose proof (digitsValue_numToString y ltac:(lia)) as Vy.
  pose proof (digitsValue_padStart 2 m ltac:(lia)) as Vm. fold (twoDigits m) in Vm.
  pose proof (digitsValue_padStart 2 d ltac:(lia)) as Vd. fold (twoDigits d) in Vd.
  rewrite Ey in Vy |- *. rewrite Em in Vm |- *. rewrite Ed in Vd |- *.
  rewrite !JSONFacts.app_cons, !JSONFacts.app_empty. unfold parseDateOnly.
  change (Ascii.eqb "-" "-") with true. cbn [andb].
  rewrite Vy, Vm, Vd.
  destruct (Z.leb_spec 1 m), (Z.leb_spec m 12), (Z.leb_spec 1 d), (Z.leb_spec d 31);
    try lia.
  cbn [andb]. rewrite Hround. reflexivity.
Qed.

Lemma periodKey_same_day (a b : Z) :
  localDay tz a = localDay tz b -> periodKey tz (Some a) = periodKey tz (Some b).
Proof.
  intros E. unfold periodKey, getFullYear, getMonth. rewrite E. reflexivity.
Qed.

End Zone.

End ModalFacts.

(** * Properties of the add flow *)

Module ModalProps.
Import Time Calendar App TimeFacts MonthSpec MonthFacts LogCrud Modal ModalFacts.

Lemma clearPeriodOf_text tz (text : string) (day : Z) (st : gmap string string) :
  parseDateOnly text = Some day ->
  clearPeriodOf tz (Some text) st = Store.clearTimeLogs (periodKey tz (Some day)) st.
Proof.
  intros Hparse. unfold clearPeriodOf, truthyText.
  destruct (String.eqb_spec text EmptyString) as [->|_]; [discriminate Hparse|].
  cbn [negb]. rewrite Hparse. reflexivity.
Qed.

Lemma handleNewLogSubmit_storage tz (s : state) :
  storage (handleNewLogSubmit tz true s) = clearPeriodOf tz (newLogDate s) (storage s).
Proof. reflexivity. Qed.

(** X14.  In a time zone at or east of Greenwich, an entry added for the date
    that the modal shows clears the cached month of that date: with the
    local date of [t] in the date input, the add flow removes the time logs
    cached for the year and month of [t], and nothing else. *)
Theorem add_flow_clears_month_of_date (tz t : Z) (s : state) :
  0 <= tz < msPerDay ->
  1000 <= getFullYear tz t <= 9999 ->
  newLogDate s = Some (localDateString tz t) ->
  storage (handleNewLogSubmit tz true s)
  = Store.clearTimeLogs (periodKey tz (Some t)) (storage s).
Proof.
  intros Htz Hy Hdate. rewrite handleNewLogSubmit_storage, Hdate.
  rewrite (clearPeriodOf_text tz _ _ _ (parseDateOnly_localDateString tz t Hy)).
  f_equal. apply periodKey_same_day.
  unfold localDay, msPerDay in *. Z.to_euclidean_division_equations. lia.
Qed.

Lemma add_flow_clears_month_of_date_witness :
  storage (handleNewLogSubmit 3600000 true
             (showNewLogModal 3600000 (Sample.utc 2024 2 29 23) Sample.deleteModal))
  = Store.clearTimeLogs "2024-03" (storage Sample.deleteModal).
Proof.
  rewrite (add_flow_clears_month_of_date 3600000 (Sample.utc 2024 2 29 23)).
  - reflexivity.
  - vm_compute. split; [intros E; discriminate E|reflexivity].
  - vm_compute. split; intros E; discriminate E.
  - reflexivity.
Defined.

(** X15.  West of Greenwich the add flow misses by a day: the date text is
    read as UTC midnight, which is the evening before in local time, so the
    period that is cleared is the month of the day before the date shown.
    For the first day of a month that is the previous month. *)
Theorem add_flow_clears_month_of_eve (tz t : Z) (s : state) :
  - msPerDay <= tz < 0 ->
  1000 <= getFullYear tz t <= 9999 ->
  newLogDate s = Some (localDateString tz t) ->
  storage (handleNewLogSubmit tz true s)
  = Store.clearTimeLogs (periodKey tz (Some (t - msPerDay))) (storage s).
Proof.
  intros Htz Hy Hdate. rewrite handleNewLogSubmit_storage, Hdate.
  rewrite (clearPeriodOf_text tz _ _ _ (parseDateOnly_localDateString tz t Hy)).
  f_equal. apply periodKey_same_day.
  unfold localDay, msPerDay in *. Z.to_euclidean_division_equations. lia.
Qed.

Lemma add_flow_clears_month_of_eve_witness :
  localDateString (-18000000) (Sample.utc 2024 3 1 15) = "2024-03-01" /\
  storage (handleNewLogSubmit (-18000000) true
             (showNewLogModal (-18000000) (Sample.utc 2024 3 1 15) Sample.deleteModal))
  = Store.clearTimeLogs "2024-02" (storage Sample.deleteModal).
Proof.
  split; [reflexivity|].
  rewrite (add_flow_clears_month_of_eve (-18000000) (Sample.utc 2024 3 1 15)).
  - reflexivity.
  - vm_compute. split; [intros E; discriminate E|reflexivity].
  - vm_compute. split; intros E; discriminate E.
  - reflexivity.
Defined.

End ModalProps.

(** * The week label and the month grid *)

Module RenderFacts.
Import Time Calendar MonthSpec CalendarFacts App WeekSpec TimeFacts MonthFacts Render.

Lemma lookup_repeat {A : Type} (x : A) (n i : nat) :
  (i < n)%nat -> repeat x n !! i = Some x.
Proof.
  revert i. induction n as [|n IH]; intros [|i] Hi; try lia; [reflexivity|].
  cbn [repeat]. apply IH. lia.
Qed.

Section Zone.

Variable tz : Z.

Lemma weekEnd_days (weekStart : Z) : weekEnd tz weekStart = weekStart + 6 * msPerDay.
Proof. unfold weekEnd. apply setDate_getDate. Qed.

Lemma isCurrentWeek_range (w clock : Z) :
  midnight tz w ->
  isCurrentWeek tz w clock = true <-> w <= clock < w + 7 * msPerDay.
Proof.
  intros Hw. unfold isCurrentWeek. cbv zeta. rewrite weekEnd_days.
  rewrite andb_true_iff, !Z.leb_le.
  unfold setHoursZero, localDay, midnight, msPerDay in *.
  Z.to_euclidean_division_equations. lia.
Qed.

(** The week that is labelled This Week is the week of today. *)
Lemma isCurrentWeek_mondayOf (w clock : Z) :
  mondayAligned tz w ->
  isCurrentWeek tz w clock = true <-> w = mondayOf tz clock.
Proof.
  intros Hw. rewrite (isCurrentWeek_range w clock (proj1 Hw)). split.
  - intros Hr. symmetry. apply mondayOf_unique; assumption.
  - intros ->. apply mondayOf_bounds.
Qed.

(** The fields of a day of the month of [ref]. *)
Lemma month_day_fields (ref day : Z) :
  100 <= getFullYear tz ref ->
  1 <= day <= makeDay (getFullYear tz ref) (getMonth tz ref + 1) 0
             - makeDay (getFullYear tz ref) (getMonth tz ref) 0 ->
  let date := makeDate tz (getFullYear tz ref) (getMonth tz ref) day in
  localDay tz date = makeDay (getFullYear tz ref) (getMonth tz ref) day /\
  getFullYear tz date = getFullYear tz ref /\
  getMonth tz date = getMonth tz ref /\
  getDate tz date = day.
Proof.
  intros Hy Hday. cbv zeta. pose proof (getMonth_range tz ref) as Hm.
  set (y := getFullYear tz ref) in *. set (m := getMonth tz ref) in *.
  assert (Hdate : makeDate tz y m day = makeDay y m day * msPerDay - tz).
  { unfold makeDate. destruct (Z.leb_spec 0 y), (Z.leb_spec y 99); cbn [andb]; lia. }
  rewrite Hdate.
  pose proof (civilFromDays_makeDay y m day Hday) as Hc.
  rewrite <- (localDay_makeDay tz (makeDay y m day)) in Hc.
  apply (fields_civil tz) in Hc. destruct Hc as (Ey & Em & Ed).
  rewrite Ey, Em, Ed, localDay_makeDay. unfold carriedYear, carriedMonth.
  replace (m / 12) with 0 by (Z.to_euclidean_division_equations; lia).
  rewrite Z.mod_small by lia. repeat split; lia.
Qed.

(** The number of days that the grid shows is the length of the month. *)
Lemma daysInMonth_length (ref : Z) :
  100 <= getFullYear tz ref ->
  daysInMonth tz ref
  = makeDay (getFullYear tz ref) (getMonth tz ref + 1) 0
    - makeDay (getFullYear tz ref) (getMonth tz ref) 0.
Proof.
  intros Hy. unfold daysInMonth. cbv zeta.
  pose proof (makeDay_length (getFullYear tz ref) (getMonth tz ref)) as Hlen.
  set (len := makeDay (getFullYear tz ref) (getMonth tz ref + 1) 0
              - makeDay (getFullYear tz ref) (getMonth tz ref) 0) in *.
  assert (E : makeDate tz (getFullYear tz ref) (getMonth tz ref + 1) 0
              = makeDate tz (getFullYear tz ref) (getMonth tz ref) len).
  { unfold makeDate.
    destruct (Z.leb_spec 0 (getFullYear tz ref)), (Z.leb_spec (getFullYear tz ref) 99);
      cbn [andb]; try lia; f_equal; f_equal; subst len;
      rewrite (makeDay_carried _ (getMonth tz ref + 1) 0),
        !(makeDay_carried _ (getMonth tz ref)); lia. }
  rewrite E. apply (month_day_fields ref len Hy). lia.
Qed.

Lemma startingDayOfWeek_mod (ref : Z) :
  startingDayOfWeek tz ref
  = (getDay tz (makeDate tz (getFullYear tz ref) (getMonth tz ref) 1) + 6) mod 7.
Proof.
  unfold startingDayOfWeek. cbv zeta.
  pose proof (getDay_range tz (makeDate tz (getFullYear tz ref) (getMonth tz ref) 1)) as Hr.
  destruct (Z.eqb_spec (getDay tz (makeDate tz (getFullYear tz ref) (getMonth tz ref) 1)) 0)
    as [E|E]; [rewrite E; reflexivity|].
  Z.to_euclidean_division_equations. lia.
Qed.

(** Whether a day cell is marked as today. *)
Lemma isToday_same_day (ref today day : Z) :
  100 <= getFullYear tz ref ->
  1 <= day <= makeDay (getFullYear tz ref) (getMonth tz ref + 1) 0
             - makeDay (getFullYear tz ref) (getMonth tz ref) 0 ->
  (getDate tz today =? day) && (getMonth tz today =? getMonth tz ref)
  && (getFullYear tz today =? getFullYear tz ref)
  = bool_decide (localDay tz today
                 = localDay tz (makeDate tz (getFullYear tz ref) (getMonth tz ref) day)).
Proof.
  intros Hy Hday.
  destruct (month_day_fields ref day Hy Hday) as (_ & Ey & Em & Ed).
  generalize dependent (makeDate tz (getFullYear tz ref) (getMonth tz ref) day).
  intros date Ey Em Ed.
  destruct (bool_decide_reflect (localDay tz today = localDay tz date)) as [E|E].
  - destruct (fields_same_day tz _ _ E) as (-> & -> & ->).
    rewrite Ey, Em, Ed. rewrite !Z.eqb_refl. reflexivity.
  - apply not_true_is_false. intros Hflag. apply E.
    apply andb_true_iff in Hflag as [Hflag Hyear].
    apply andb_true_iff in Hflag as [Hdate Hmonth].
    apply Z.eqb_eq in Hdate, Hmonth, Hyear.
    apply civilFromDays_inj. rewrite !civil_fields.
    rewrite Ey, Em, Ed, Hdate, Hmonth, Hyear. reflexivity.
Qed.

(** The cells of the grid, by position. *)
Lemma calendarCells_blank (ref today i : Z) :
  0 <= i < startingDayOfWeek tz ref ->
  calendarCells tz ref today !! Z.to_nat i = Some EmptyCell.
Proof.
  intros Hi. unfold calendarCells.
  rewrite lookup_app_l by (rewrite repeat_length; lia).
  apply lookup_repeat. lia.
Qed.

Lemma calendarCells_day (ref today day : Z) :
  0 <= startingDayOfWeek tz ref ->
  1 <= day <= daysInMonth tz ref ->
  calendarCells tz ref today !! Z.to_nat (startingDayOfWeek tz ref + day - 1)
  = Some (DayCell day
            ((getDate tz today =? day) && (getMonth tz today =? getMonth tz ref)
             && (getFullYear tz today =? getFullYear tz ref))).
Proof.
  intros Hblanks Hday. unfold calendarCells.
  generalize dependent (daysInMonth tz ref). intros days Hday.
  generalize dependent (startingDayOfWeek tz ref). intros blanks Hblanks.
  rewrite lookup_app_r by (rewrite repeat_length; lia).
  rewrite repeat_length.
  replace (Z.to_nat (blanks + day - 1) - Z.to_nat blanks)%nat with (Z.to_nat (day - 1)) by lia.
  rewrite list_lookup_fmap, lookup_seqZ_lt by lia. cbn [fmap option_fmap option_map].
  rewrite Z2Nat.id by lia. replace (1 + (day - 1)) with day by lia. reflexivity.
Qed.

Lemma length_calendarCells (ref today : Z) :
  0 <= startingDayOfWeek tz ref -> 0 <= daysInMonth tz ref ->
  Z.of_nat (length (calendarCells tz ref today))
  = startingDayOfWeek tz ref + daysInMonth tz ref.
Proof.
  intros Hb Hd. unfold calendarCells.
  rewrite length_app, repeat_length, length_map, length_seqZ. lia.
Qed.

(** A day stands in the column of its weekday. *)
Lemma day_column (ref day : Z) :
  100 <= getFullYear tz ref ->
  1 <= day <= makeDay (getFullYear tz ref) (getMonth tz ref + 1) 0
             - makeDay (getFullYear tz ref) (getMonth tz ref) 0 ->
  (startingDayOfWeek tz ref + day - 1) mod 7
  = (getDay tz (makeDate tz (getFullYear tz ref) (getMonth tz ref) day) + 6) mod 7.
Proof.
  intros Hy Hday. rewrite startingDayOfWeek_mod. unfold getDay.
  pose proof (makeDay_length (getFullYear tz ref) (getMonth tz ref)) as Hlen.
  destruct (month_day_fields ref day Hy Hday) as (-> & _).
  destruct (month_day_fields ref 1 Hy ltac:(lia)) as (-> & _).
  rewrite (makeDay_carried _ _ day), (makeDay_carried _ _ 1).
  generalize (daysFromCivil (carriedYear (getFullYear tz ref) (getMonth tz ref))
                (carriedMonth (getMonth tz ref)) 1). intros first.
  Z.to_euclidean_division_equations. lia.
Qed.

(** After the last day cell comes the first of the next month. *)
Lemma day_after_last (ref : Z) :
  100 <= getFullYear tz ref ->
  getDate tz (makeDate tz (getFullYear tz ref) (getMonth tz ref) (daysInMonth tz ref + 1)) = 1.
Proof.
  intros Hy. rewrite (daysInMonth_length ref Hy).
  pose proof (getMonth_range tz ref) as Hm.
  assert (Hnext : makeDate tz (getFullYear tz ref) (getMonth tz ref)
                    (makeDay (getFullYear tz ref) (getMonth tz ref + 1) 0
                     - makeDay (getFullYear tz ref) (getMonth tz ref) 0 + 1)
                  = makeDay (getFullYear tz ref) (getMonth tz ref + 1) 1 * msPerDay - tz).
  { unfold makeDate.
    destruct (Z.leb_spec 0 (getFullYear tz ref)), (Z.leb_spec (getFullYear tz ref) 99);
      cbn [andb]; try lia; f_equal; f_equal;
      rewrite !(makeDay_carried _ (getMonth tz ref + 1)),
        !(makeDay_carried _ (getMonth tz ref)); lia. }
  rewrite Hnext.
  pose proof (makeDay_length (getFullYear tz ref) (getMonth tz ref + 1)) as Hlen'.
  pose proof (civilFromDays_makeDay (getFullYear tz ref) (getMonth tz ref + 1) 1 ltac:(lia))
    as Hc.
  rewrite <- (localDay_makeDay tz (makeDay _ _ 1)) in Hc.
  apply (fields_civil tz) in Hc. tauto.
Qed.

End Zone.

End RenderFacts.

(** * Properties of the track tab *)

Module RenderProps.
Import Time Calendar MonthSpec CalendarFacts App WeekSpec TimeFacts MonthFacts.
Import SortFacts AppFacts PeriodFacts Render RenderFacts.

#[local] Opaque generatedWeeks seededWeeks firstDayOfMonth lastDayOfMonth
  setHoursZero getWeekKey toISODate.

Section Zone.

Variable tz : Z.

(** X16.  Of the weeks that [loadTimeLogs] renders, [createWeekContainer]
    labels as This Week the week of today and no other; and when today lies
    in the displayed month, that week is there and comes first. *)
Theorem this_week_label (timeLogs : list timelog) (ref clock : Z) :
  let buckets := snd (groupTimeLogsByWeek tz timeLogs ref clock) in
  (forall b, In b buckets ->
     (isCurrentWeek tz (weekStart b) clock = true <-> weekStart b = mondayOf tz clock)) /\
  (firstDayOfMonth tz ref <= setHoursZero tz clock <= lastDayOfMonth tz ref ->
   exists b rest,
     buckets = b :: rest /\
     isCurrentWeek tz (weekStart b) clock = true /\
     forall b', In b' rest -> isCurrentWeek tz (weekStart b') clock = false).
Proof.
  cbv zeta.
  assert (Haligned : forall b, In b (snd (groupTimeLogsByWeek tz timeLogs ref clock)) ->
                       mondayAligned tz (weekStart b) /\ weekStart b <= setHoursZero tz clock).
  { intros b Hb. apply (proj1 (buckets_In tz timeLogs ref clock b)) in Hb as (w & Hw & ->).
    unfold bucketOf. cbn [weekStart].
    pose proof (proj1 (generatedWeeks_In tz ref clock w) Hw) as (Ha & _ & _ & Hnow).
    split; assumption. }
  assert (Hlabel : forall b, In b (snd (groupTimeLogsByWeek tz timeLogs ref clock)) ->
     (isCurrentWeek tz (weekStart b) clock = true <-> weekStart b = mondayOf tz clock)).
  { intros b Hb. apply isCurrentWeek_mondayOf, Haligned, Hb. }
  split; [exact Hlabel|].
  intros Htoday.
  pose proof (mondayOf_bounds tz clock) as Hbounds.
  pose proof (mondayOf_aligned tz clock) as Hmonday.
  pose proof (setHoursZero_bounds tz clock) as Hnow.
  pose proof (midnight_setHoursZero tz clock) as Hmid.
  assert (Hle : mondayOf tz clock <= setHoursZero tz clock
                /\ setHoursZero tz clock <= addDays (mondayOf tz clock) 6).
  { destruct Hmonday as [Hm _]. unfold addDays.
    pose proof (midnight_eq tz _ Hm) as E1. pose proof (midnight_eq tz _ Hmid) as E2.
    unfold msPerDay in *. lia. }
  assert (Hgen : In (mondayOf tz clock) (generatedWeeks tz ref clock)).
  { apply generatedWeeks_In. split; [exact Hmonday|]. lia. }
  assert (Hin : In (mondayOf tz clock)
                  (map weekStart (snd (groupTimeLogsByWeek tz timeLogs ref clock)))).
  { apply list_elem_of_In. rewrite (weekStarts_perm tz timeLogs). apply list_elem_of_In, Hgen. }
  pose proof (weekStarts_descending tz timeLogs ref clock) as Hsorted.
  destruct (snd (groupTimeLogsByWeek tz timeLogs ref clock)) as [|b rest] eqn:Hbuckets;
    [destruct Hin|].
  exists b, rest. split; [reflexivity|].
  cbn [map] in Hsorted, Hin. apply StronglySorted_inv in Hsorted as [Hrest Hhead].
  rewrite List.Forall_forall in Hhead.
  assert (Hb : weekStart b = mondayOf tz clock).
  { destruct Hin as [E|Hin]; [exact E|]. exfalso.
    specialize (Hhead _ Hin).
    destruct (Haligned b (or_introl eq_refl)) as [[Hm Hd] Hbnow].
    destruct Hmonday as [Hm' Hd'].
    pose proof (midnight_eq tz _ Hm) as E1. pose proof (midnight_eq tz _ Hm') as E2.
    destruct (aligned_grid _ _ Hd Hd' ltac:(unfold msPerDay in *; lia)) as (i & Hi & Ei).
    unfold msPerDay in *. lia. }
  split; [apply Hlabel; [left; reflexivity|exact Hb]|].
  intros b' Hb'. destruct (isCurrentWeek tz (weekStart b') clock) eqn:E; [|reflexivity].
  exfalso. apply (Hlabel b' (or_intror Hb')) in E.
  specialize (Hhead (weekStart b') (in_map weekStart _ _ Hb')). lia.
Qed.

(** X17.  The month grid of [populateTrackCalendar], for a month of the year
    100 or later: at most six blank cells come first, then one cell for each
    day of the month, 28 to 31 of them and no day of another month; the cell
    of day [day] is the date [day] of that month and stands in the column of
    its weekday, Monday first; it is marked as today exactly when that date
    is the local date of [today]. *)
Theorem calendar_grid (ref today : Z) :
  100 <= getFullYear tz ref ->
  let cells := calendarCells tz ref today in
  let blanks := startingDayOfWeek tz ref in
  let days := daysInMonth tz ref in
  0 <= blanks <= 6 /\ 28 <= days <= 31 /\
  Z.of_nat (length cells) = blanks + days /\
  (forall i, 0 <= i < blanks -> cells !! Z.to_nat i = Some EmptyCell) /\
  (forall day, 1 <= day <= days ->
     let date := makeDate tz (getFullYear tz ref) (getMonth tz ref) day in
     cells !! Z.to_nat (blanks + day - 1)
     = Some (DayCell day (bool_decide (localDay tz today = localDay tz date))) /\
     getFullYear tz date = getFullYear tz ref /\
     getMonth tz date = getMonth tz ref /\
     getDate tz date = day /\
     (blanks + day - 1) mod 7 = (getDay tz date + 6) mod 7) /\
  getDate tz (makeDate tz (getFullYear tz ref) (getMonth tz ref) (days + 1)) = 1.
Proof.
  intros Hy. cbv zeta.
  pose proof (makeDay_length (getFullYear tz ref) (getMonth tz ref)) as Hlen.
  pose proof (daysInMonth_length tz ref Hy) as Hdays.
  assert (Hrange : 0 <= startingDayOfWeek tz ref <= 6).
  { rewrite startingDayOfWeek_mod. Z.to_euclidean_division_equations. lia. }
  split; [exact Hrange|]. split; [lia|]. split; [|split; [|split]].
  - apply length_calendarCells; lia.
  - intros i Hi. apply calendarCells_blank, Hi.
  - intros day Hday.
    assert (Hday' : 1 <= day <= makeDay (getFullYear tz ref) (getMonth tz ref + 1) 0
                                - makeDay (getFullYear tz ref) (getMonth tz ref) 0) by lia.
    destruct (month_day_fields tz ref day Hy Hday') as (_ & Ey & Em & Ed).
    split; [|split; [exact Ey|split; [exact Em|split; [exact Ed|]]]].
    + rewrite <- (isToday_same_day tz ref today day Hy Hday').
      apply calendarCells_day; [lia|exact Hday].
    + apply day_column; assumption.
  - apply day_after_last, Hy.
Qed.

End Zone.

Lemma calendar_grid_witness :
  startingDayOfWeek 0 (Sample.utc 2024 2 1 0) = 3 /\
  daysInMonth 0 (Sample.utc 2024 2 1 0) = 29 /\
  28 <= daysInMonth 0 (Sample.utc 2024 2 1 0) <= 31.
Proof.
  split; [reflexivity|]. split; [reflexivity|].
  apply (calendar_grid 0 (Sample.utc 2024 2 1 0) (Sample.utc 2024 2 14 9)).
  vm_compute. intros E; discriminate E.
Defined.

Lemma this_week_label_witness :
  exists b rest,
    snd (groupTimeLogsByWeek 0 [] (Sample.utc 2024 2 1 0) (Sample.utc 2024 2 14 9)) = b :: rest /\
    isCurrentWeek 0 (weekStart b) (Sample.utc 2024 2 14 9) = true /\
    forall b', In b' rest -> isCurrentWeek 0 (weekStart b') (Sample.utc 2024 2 14 9) = false.
Proof.
  apply (proj2 (this_week_label 0 [] (Sample.utc 2024 2 1 0) (Sample.utc 2024 2 14 9))).
  vm_compute. split; intros E; discriminate E.
Defined.

End RenderProps.

(** * Totals of the week and day groups *)

Module TotalFacts.
Import TotalSpec.
Import Time Calendar App WeekSpec IsoFacts TimeFacts ObjFacts SortFacts AppFacts DayFacts.
Import PeriodFacts.

#[local] Opaque generatedWeeks seededWeeks firstDayOfMonth lastDayOfMonth
  setHoursZero getWeekKey toISODate.

Lemma list_sum_cons (x : nat) (l : list nat) : list_sum (x :: l) = (x + list_sum l)%nat.
Proof. reflexivity. Qed.

Lemma list_sum_perm (l l' : list nat) : Permutation l l' -> list_sum l = list_sum l'.
Proof. induction 1; rewrite ?list_sum_cons; lia. Qed.

Lemma filter_sublist {A : Type} (f : A -> bool) (l : list A) : List.filter f l `sublist_of` l.
Proof.
  induction l as [|x l IH]; [constructor|]. cbn [List.filter].
  destruct (f x); [apply sublist_skip|apply sublist_cons]; exact IH.
Qed.

(** A key is counted once among keys without repetition. *)
Lemma count_key (key : string) (keys : list string) :
  NoDup keys ->
  list_sum (map (fun k => if String.eqb key k then 1%nat else 0%nat) keys)
  = if bool_decide (key ∈ keys) then 1%nat else 0%nat.
Proof.
  induction 1 as [|k keys Hk Hnd IH]; [reflexivity|]. cbn [map]. rewrite list_sum_cons, IH.
  destruct (String.eqb_spec key k) as [->|Hne].
  - rewrite (bool_decide_eq_false_2 _ Hk).
    rewrite bool_decide_eq_true_2 by (apply elem_of_cons; left; reflexivity). reflexivity.
  - assert (E : bool_decide (key ∈ k :: keys) = bool_decide (key ∈ keys)).
    { apply bool_decide_ext. rewrite elem_of_cons. tauto. }
    rewrite E. reflexivity.
Qed.

Section Zone.

Variable tz : Z.

Lemma length_logsOfWeek_cons key log timeLogs :
  length (logsOfWeek tz key (log :: timeLogs))
  = ((if String.eqb (getWeekKey tz (spentAt log)) key then 1 else 0)
     + length (logsOfWeek tz key timeLogs))%nat.
Proof.
  rewrite (logsOfWeek_cons tz key log timeLogs), length_app. f_equal.
  unfold logsOfWeek. cbn [List.filter].
  destruct (String.eqb (getWeekKey tz (spentAt log)) key); reflexivity.
Qed.

Lemma list_sum_add {A : Type} (f g : A -> nat) (l : list A) :
  list_sum (map (fun x => (f x + g x)%nat) l) = (list_sum (map f l) + list_sum (map g l))%nat.
Proof. induction l as [|x l IH]; cbn [map]; rewrite ?list_sum_cons; [reflexivity|lia]. Qed.

(** The entries kept are the entries of the weeks, each counted once. *)
Lemma kept_by_week (ws : list Z) (timeLogs : list timelog) :
  NoDup (map toISODate ws) ->
  length (kept tz (map emptyWeek ws) timeLogs)
  = list_sum (map (fun w => length (logsOfWeek tz (toISODate w) timeLogs)) ws).
Proof.
  intros Hnd. induction timeLogs as [|log timeLogs IH].
  - unfold kept, logsOfWeek. cbn [List.filter length].
    induction ws as [|w ws IHw]; [reflexivity|]. cbn [map]. rewrite list_sum_cons.
    rewrite <- IHw; [reflexivity|]. apply NoDup_cons in Hnd. apply Hnd.
  - rewrite (kept_cons tz _ log timeLogs), length_app, IH.
    rewrite (map_ext _ _ (fun w => length_logsOfWeek_cons (toISODate w) log timeLogs)).
    rewrite (list_sum_add
               (fun w => if String.eqb (getWeekKey tz (spentAt log)) (toISODate w)
                         then 1%nat else 0%nat)
               (fun w => length (logsOfWeek tz (toISODate w) timeLogs))).
    f_equal.
    rewrite <- (map_map toISODate
                  (fun k => if String.eqb (getWeekKey tz (spentAt log)) k then 1%nat else 0%nat)).
    rewrite (count_key _ _ Hnd).
    unfold kept. cbn [List.filter]. rewrite keys_emptyWeek.
    destruct (bool_decide (getWeekKey tz (spentAt log) ∈ map toISODate ws)); reflexivity.
Qed.

End Zone.

(** ** Day groups *)

Section Values.

Context {V : Type}.

(** Assigning a property changes the values by one: the new value comes, the
    old one, if any, goes. *)
Lemma values_set (o : list (string * V)) (k : string) (v : V) :
  Permutation
    (Obj.values (Obj.set o k v) ++ match Obj.get o k with Some old => [old] | None => [] end)
    (Obj.values o ++ [v]).
Proof.
  unfold Obj.values. induction o as [|[k' v'] o IH]; [reflexivity|].
  cbn [Obj.set Obj.get]. destruct (String.eqb k' k).
  - cbn [map snd app]. rewrite (Permutation_app_comm (map snd o) [v']).
    cbn [app]. rewrite (Permutation_app_comm (map snd o) [v]). cbn [app]. apply perm_swap.
  - cbn [map snd app]. apply perm_skip. exact IH.
Qed.

End Values.

Lemma secondsOf_perm (l l' : list timelog) : Permutation l l' -> secondsOf l = secondsOf l'.
Proof. unfold secondsOf. induction 1; cbn [map fold_right] in *; lia. Qed.


Lemma sumSeconds_perm (l l' : list dayGroup) :
  Permutation l l' -> sumSeconds l = sumSeconds l'.
Proof. unfold sumSeconds. induction 1; cbn [map fold_right] in *; lia. Qed.

Lemma sumSeconds_app (l l' : list dayGroup) :
  sumSeconds (l ++ l') = sumSeconds l + sumSeconds l'.
Proof. unfold sumSeconds. induction l as [|d l IH]; cbn [app map fold_right] in *; lia. Qed.


Lemma wellFormedDay_pushDay (previous : option dayGroup) (log : timelog) :
  match previous with Some d => wellFormedDay d | None => True end ->
  wellFormedDay (pushDay previous log).
Proof.
  destruct previous as [d|]; unfold wellFormedDay, pushDay; cbn [dayTotalSeconds dayLogs date].
  - intros (Htotal & first & rest & Hlogs & Hdate). split.
    + rewrite secondsOf_app, Htotal. unfold secondsOf. cbn [map fold_right]. lia.
    + rewrite Hlogs. exists first, (rest ++ [log]). split; [reflexivity|exact Hdate].
  - intros _. split; [unfold secondsOf; cbn [app map fold_right]; lia|].
    exists log, []. split; reflexivity.
Qed.

(** The day groups of a list of entries hold each entry once. *)
Lemma daysOf_values (timeLogs : list timelog) :
  Permutation (flat_map dayLogs (Obj.values (daysOf timeLogs))) timeLogs /\
  forall d, In d (Obj.values (daysOf timeLogs)) -> wellFormedDay d.
Proof.
  induction timeLogs as [|log timeLogs (Hperm & Hwell)] using rev_ind.
  - split; [reflexivity|intros d []].
  - rewrite daysOf_snoc, addToDay_set.
    pose proof (values_set (daysOf timeLogs) (toISODate (spentAt log))
                  (pushDay (Obj.get (daysOf timeLogs) (toISODate (spentAt log))) log)) as Hset.
    assert (Hold : match Obj.get (daysOf timeLogs) (toISODate (spentAt log)) with
                   | Some d => wellFormedDay d
                   | None => True
                   end).
    { destruct (Obj.get (daysOf timeLogs) (toISODate (spentAt log))) as [d|] eqn:Hget;
        [|exact I].
      apply Hwell, values_In. exists (toISODate (spentAt log)). apply get_Some_In, Hget. }
    pose proof (wellFormedDay_pushDay _ log Hold) as Hnew.
    generalize dependent (Obj.values (Obj.set (daysOf timeLogs) (toISODate (spentAt log))
      (pushDay (Obj.get (daysOf timeLogs) (toISODate (spentAt log))) log))).
    intros values' Hset. split.
    + apply (Permutation_flat_map dayLogs) in Hset. rewrite !flat_map_app in Hset.
      cbn [flat_map] in Hset. rewrite app_nil_r in Hset. rewrite Hperm in Hset.
      destruct (Obj.get (daysOf timeLogs) (toISODate (spentAt log))) as [d|].
      * unfold pushDay in Hset. cbn [flat_map dayLogs] in Hset. rewrite app_nil_r in Hset.
        rewrite (Permutation_app_comm (dayLogs d) [log]), app_assoc in Hset.
        apply Permutation_app_inv_r in Hset. rewrite Hset.
        apply Permutation_app_tail. reflexivity.
      * unfold pushDay in Hset. cbn [flat_map dayLogs app] in Hset.
        rewrite app_nil_r in Hset. exact Hset.
    + intros d Hd.
      assert (Hin : In d (Obj.values (daysOf timeLogs)
                          ++ [pushDay (Obj.get (daysOf timeLogs) (toISODate (spentAt log))) log])).
      { apply list_elem_of_In. rewrite <- Hset. apply list_elem_of_In, in_or_app. left. exact Hd. }
      apply in_app_iff in Hin as [Hin|[<-|[]]]; [apply Hwell, Hin|exact Hnew].
Qed.

(** Groups of different days, in the order of their dates, are in the order
    of their days. *)
Lemma ascending_days (l : list dayGroup) :
  StronglySorted (fun a b => date a <= date b) l ->
  NoDup (map (fun d => toISODate (date d)) l) ->
  StronglySorted (fun a b => utcDay (date a) < utcDay (date b)) l.
Proof.
  induction 1 as [|a l Hs IH Ha]; intros Hkeys; [constructor|].
  cbn [map] in Hkeys. apply NoDup_cons in Hkeys as [Hnot Hkeys].
  constructor; [apply IH, Hkeys|].
  rewrite List.Forall_forall in Ha |- *. intros b Hb. specialize (Ha b Hb).
  assert (Hne : utcDay (date a) <> utcDay (date b)).
  { intros E. apply Hnot. apply list_elem_of_In, in_map_iff. exists b.
    split; [|exact Hb]. symmetry. apply toISODate_utcDay, E. }
  unfold utcDay, msPerDay in *. Z.to_euclidean_division_equations. lia.
Qed.

Lemma sumSeconds_flat (l : list dayGroup) :
  (forall d, In d l -> dayTotalSeconds d = secondsOf (dayLogs d)) ->
  sumSeconds l = secondsOf (flat_map dayLogs l).
Proof.
  induction l as [|d l IH]; intros Hl; [reflexivity|].
  cbn [flat_map]. rewrite secondsOf_app, <- IH by (intros d' Hd'; apply Hl; right; exact Hd').
  rewrite <- (Hl d) by (left; reflexivity). reflexivity.
Qed.

End TotalFacts.

(** * Properties of the totals *)

Module TotalProps.
Import Time Calendar App WeekSpec IsoFacts TimeFacts ObjFacts SortFacts AppFacts DayFacts.
Import PeriodFacts TotalSpec TotalFacts.

#[local] Opaque generatedWeeks seededWeeks firstDayOfMonth lastDayOfMonth
  setHoursZero getWeekKey toISODate.

Section Zone.

Variable tz : Z.

(** X18.  The totals of [groupTimeLogsByWeek] add up: the number of entries
    written to the page is the number of entries in all buckets together,
    and never more than the entries given; each bucket's [totalSeconds] is
    the sum of the [timeSpent] of its entries, which are entries of the
    list, in the order of the list. *)
Theorem week_totals_add_up (timeLogs : list timelog) (ref clock : Z) :
  let result := groupTimeLogsByWeek tz timeLogs ref clock in
  fst result = Z.of_nat (list_sum (map (fun b => length (logs b)) (snd result))) /\
  fst result <= Z.of_nat (length timeLogs) /\
  forall b, In b (snd result) ->
    totalSeconds b = secondsOf (logs b) /\ logs b `sublist_of` timeLogs.
Proof.
  cbv zeta. split; [|split].
  - rewrite (list_sum_perm _ _ (Permutation_map _ (buckets_perm tz timeLogs ref clock))).
    rewrite groupTimeLogsByWeek_spec. cbn [fst]. f_equal.
    rewrite seededWeeks_spec, map_map.
    apply kept_by_week, generatedWeeks_keys.
  - rewrite groupTimeLogsByWeek_spec. cbn [fst]. apply inj_le.
    unfold kept. apply sublist_length, filter_sublist.
  - intros b Hb. apply (proj1 (buckets_In tz timeLogs ref clock b)) in Hb as (w & _ & ->).
    unfold bucketOf. cbn [totalSeconds logs]. split; [reflexivity|].
    unfold logsOfWeek. apply filter_sublist.
Qed.

(** X20.  The week key names the week: two instants have the same key
    exactly when they lie in the same local week from Monday to Sunday. *)
Theorem week_key_names_the_week (a b : Z) :
  getWeekKey tz a = getWeekKey tz b
  <-> mondayOf tz a <= b < mondayOf tz a + 7 * msPerDay.
Proof.
  rewrite !getWeekKey_mondayOf. split.
  - intros E. apply (toISODate_midnight_inj tz) in E;
      [|apply mondayOf_aligned|apply mondayOf_aligned].
    rewrite E. apply mondayOf_bounds.
  - intros H. f_equal. symmetry. apply mondayOf_unique; [apply mondayOf_aligned|exact H].
Qed.

End Zone.

(** X19.  The day groups that [loadTimeLogs] hands to [createWeekContainer]
    for a week: they are listed by calendar day, oldest first, no day twice;
    together they hold the entries of the week, each in one group; every
    group opens with the entry that gave it its date, holds entries of that
    UTC day only, and has the sum of their [timeSpent] as its total, so that
    the totals of the days add up to the seconds of the week. *)
Theorem day_groups_of_a_week (week : weekGroup) :
  let days := sortedDays week in
  StronglySorted (fun a b => utcDay (date a) < utcDay (date b)) days /\
  Permutation (flat_map dayLogs days) (logs week) /\
  fold_right Z.add 0 (map dayTotalSeconds days) = secondsOf (logs week) /\
  forall d, In d days ->
    dayTotalSeconds d = secondsOf (dayLogs d) /\
    (exists log rest, dayLogs d = log :: rest /\ date d = spentAt log) /\
    forall log, In log (dayLogs d) -> utcDay (spentAt log) = utcDay (date d).
Proof.
  cbv zeta.
  destruct (daysOf_inv (logs week)) as (Hnd & Hgroups & _).
  destruct (daysOf_values (logs week)) as (Hperm & Hwell).
  assert (Hsort : Permutation (sortedDays week) (Obj.values (daysOf (logs week)))).
  { unfold sortedDays. apply sort_perm. }
  assert (Hday : forall d, In d (sortedDays week) ->
            exists k, In (k, d) (daysOf (logs week))).
  { intros d Hd. apply sortedDays_In, Hd. }
  split; [|split; [|split]].
  - assert (Hkeys : NoDup (map (fun d => toISODate (date d)) (sortedDays week))).
    { rewrite Hsort. unfold Obj.values. rewrite map_map.
      rewrite (map_ext_in _ fst); [exact Hnd|].
      intros [k d] Hkd. cbn [fst snd]. apply (Hgroups k d Hkd). }
    assert (Hsorted : StronglySorted (fun a b => date a <= date b) (sortedDays week)).
    { unfold sortedDays. apply (sort_sorted _ date). intros a b. lia. }
    apply ascending_days; assumption.
  - rewrite (Permutation_flat_map dayLogs Hsort). exact Hperm.
  - change (sumSeconds (sortedDays week) = secondsOf (logs week)).
    rewrite (sumSeconds_perm _ _ Hsort), <- (secondsOf_perm _ _ Hperm).
    apply sumSeconds_flat. intros d Hd. apply (Hwell d Hd).
  - intros d Hd.
    assert (Hv : In d (Obj.values (daysOf (logs week)))).
    { apply list_elem_of_In. rewrite <- Hsort. apply list_elem_of_In, Hd. }
    destruct (Hwell d Hv) as (Htotal & Hopen).
    split; [exact Htotal|]. split; [exact Hopen|].
    intros log Hlog. destruct (Hday d Hd) as (k & Hk).
    destruct (Hgroups k d Hk) as (Hdate & Hlogs).
    rewrite Hlogs in Hlog. apply logsOfDay_In in Hlog as [_ E].
    apply toISODate_utcDay. rewrite E, Hdate. reflexivity.
Qed.

End TotalProps.

(** * Properties of the lists and their caches *)

Module ListingProps.
Import Js LocalStorage Store Spec StoreFacts Script Listing Navigation.

Section FavoritesFirst.

Context {A : Type}.

Variable id : A -> string.

Variable favoriteIds : list JSON.value.

Lemma insert_favorite (x : A) (l : list A) :
  includes favoriteIds (id x) = true ->
  Arr.insert (favoritesFirst id favoriteIds) x l = x :: l.
Proof.
  intros Hx. destruct l as [|y l]; [reflexivity|]. cbn [Arr.insert].
  unfold favoritesFirst. rewrite Hx.
  destruct (includes favoriteIds (id y)); reflexivity.
Qed.

Lemma insert_other (x : A) (favorites others : list A) :
  includes favoriteIds (id x) = false ->
  Forall (fun y => includes favoriteIds (id y) = true) favorites ->
  Forall (fun y => includes favoriteIds (id y) = false) others ->
  Arr.insert (favoritesFirst id favoriteIds) x (favorites ++ others)
  = favorites ++ x :: others.
Proof.
  intros Hx Hfav Hothers. induction Hfav as [|y favorites Hy Hfav IH].
  - cbn [app]. destruct Hothers as [|y others Hy Hothers]; [reflexivity|].
    cbn [Arr.insert]. unfold favoritesFirst. rewrite Hx, Hy. reflexivity.
  - cbn [app Arr.insert]. unfold favoritesFirst at 1. rewrite Hx, Hy. cbn [negb andb].
    change (1 <=? 0) with false. cbv iota. rewrite IH. reflexivity.
Qed.

(** X21.  Sorting favorites first is a stable partition: the favorites come
    first and the others after them, each group in the order in which the
    list had them. *)
Theorem favorites_first_keeps_order (nodes : list A) :
  sortFavoritesFirst id favoriteIds nodes
  = List.filter (fun node => includes favoriteIds (id node)) nodes
    ++ List.filter (fun node => negb (includes favoriteIds (id node))) nodes.
Proof.
  unfold sortFavoritesFirst, Arr.sort.
  induction nodes as [|x nodes IH]; [reflexivity|].
  cbn [fold_right List.filter]. rewrite IH.
  destruct (includes favoriteIds (id x)) eqn:Hx; cbn [negb].
  - apply insert_favorite, Hx.
  - apply insert_other; [exact Hx| |]; apply List.Forall_forall; intros y Hy;
      apply List.filter_In in Hy as [_ Hy]; [exact Hy|].
    destruct (includes favoriteIds (id y)); [discriminate Hy|reflexivity].
Qed.

End FavoritesFirst.

Lemma cached_storeTimeLogs period (items : list JSON.value) st :
  cached (timelogsKey period) (storeTimeLogs period (JSON.Arr items) st) = JSON.Arr items.
Proof. apply cached_stored. Qed.

Lemma cached_storeProjects (items : list JSON.value) st :
  cached (keyFor "projects") (storeProjects (JSON.Arr items) st) = JSON.Arr items.
Proof. apply cached_stored. Qed.

Section Zone.

Variable tz : Z.

(** X22.  The month cache of [loadTimeLogs]: a month that is cached as a
    list, the empty list included, is shown from the cache without a request
    and without a change of the storage; a forced load stores what the
    request answers under the month, after which an unforced load shows the
    same entries whatever a request would answer, and leaves the other
    months and the project cache as they were; a request that fails changes
    nothing. *)
Theorem timelogs_cache_serves_the_month (ref : Z) (st : gmap string string)
    (items : list JSON.value) :
  let period := Time.periodKey tz (Some (App.firstDayOfMonth tz ref)) in
  (cached (timelogsKey period) st = JSON.Arr items ->
   forall response, fetchTimeLogs tz ref false response st = (Some (JSON.Arr items), st)) /\
  (let stored := storeTimeLogs period (JSON.Arr items) st in
   fetchTimeLogs tz ref true (Some (JSON.Arr items)) st = (Some (JSON.Arr items), stored) /\
   (forall response,
      fetchTimeLogs tz ref false response stored = (Some (JSON.Arr items), stored)) /\
   (forall other, other <> period -> getTimeLogs other stored = getTimeLogs other st) /\
   getProjects stored = getProjects st) /\
  fetchTimeLogs tz ref true None st = (None, st).
Proof.
  cbv zeta. unfold fetchTimeLogs, App.firstDayOfMonth. cbv zeta. cbn [negb].
  generalize (Time.periodKey tz
                (Some (Time.makeDate tz (Time.getFullYear tz ref) (Time.getMonth tz ref) 1))).
  intros period. split; [|split; [|reflexivity]].
  - intros Hcached response. rewrite getTimeLogs_cached, Hcached. reflexivity.
  - split; [reflexivity|]. split; [|split].
    + intros response. rewrite getTimeLogs_cached, cached_storeTimeLogs. reflexivity.
    + intros other Hother. rewrite !getTimeLogs_cached. f_equal.
      apply cached_ext. unfold storeTimeLogs, setItem. apply lookup_insert_ne.
      intros E. apply timelogsKey_inj in E. congruence.
    + rewrite !getProjects_cached. f_equal. apply cached_ext.
      unfold storeTimeLogs, setItem. apply lookup_insert_ne. apply timelogsKey_not_projects.
Qed.

End Zone.

(** X23.  The project cache of [loadProjects]: a cached list with at least
    one project is shown from the cache without a request; a cached empty
    list is not, the load then does what a forced load does; a forced load
    stores the answer, and a list with at least one project is shown from
    the cache afterwards, whatever a request would answer. *)
Theorem projects_cache_skips_empty (st : gmap string string)
    (first : JSON.value) (rest : list JSON.value) :
  (cached (keyFor "projects") st = JSON.Arr (first :: rest) ->
   forall response,
     fetchProjects false response st = (Some (JSON.Arr (first :: rest)), st)) /\
  (cached (keyFor "projects") st = JSON.Arr [] ->
   forall response, fetchProjects false response st = fetchProjects true response st) /\
  (let stored := storeProjects (JSON.Arr (first :: rest)) st in
   fetchProjects true (Some (JSON.Arr (first :: rest))) st
   = (Some (JSON.Arr (first :: rest)), stored) /\
   forall response,
     fetchProjects false response stored = (Some (JSON.Arr (first :: rest)), stored)) /\
  fetchProjects true None st = (None, st).
Proof.
  unfold fetchProjects. cbn [negb]. split; [|split; [|split; [|reflexivity]]].
  - intros Hcached response. rewrite getProjects_cached, Hcached. reflexivity.
  - intros Hcached response. rewrite getProjects_cached, Hcached. reflexivity.
  - cbv zeta. split; [reflexivity|].
    intros response. rewrite getProjects_cached, cached_storeProjects. reflexivity.
Qed.

Lemma timelogs_cache_serves_the_month_witness :
  let st := setItem (timelogsKey (Time.periodKey 0 (Some (Sample.utc 2024 3 1 0)))) "[]" ∅ in
  fetchTimeLogs 0 (Sample.utc 2024 3 20 12) false None st = (Some (JSON.Arr []), st).
Proof.
  intros st.
  apply (proj1 (timelogs_cache_serves_the_month 0 (Sample.utc 2024 3 20 12) st [])).
  vm_compute. reflexivity.
Defined.

Lemma projects_cache_skips_empty_witness :
  let st := storeProjects (JSON.Arr [JSON.Str "group/project"]) ∅ in
  fetchProjects false None st = (Some (JSON.Arr [JSON.Str "group/project"]), st).
Proof.
  intros st.
  apply (proj1 (projects_cache_skips_empty st (JSON.Str "group/project") [])).
  vm_compute. reflexivity.
Defined.

End ListingProps.

(** * The key of a period *)

Module PeriodKeyProps.
Import Time Calendar IsoFacts TimeFacts MonthSpec MonthFacts JSONFacts.

Lemma numToString_inj (a b : Z) : numToString a = numToString b -> a = b.
Proof.
  intros E. pose proof (parseNumber_stringify a EmptyString I) as Ha.
  pose proof (parseNumber_stringify b EmptyString I) as Hb.
  rewrite E in Ha. rewrite Ha in Hb. congruence.
Qed.

Section Zone.

Variable tz : Z.

(** X24.  The cache key of a period names its month: two dates have the same
    key exactly when they lie in the same local year and month.  So what is
    cached or cleared under the key of one month is never the cache of
    another. *)
Theorem periodKey_names_the_month (a b : Z) :
  periodKey tz (Some a) = periodKey tz (Some b)
  <-> getFullYear tz a = getFullYear tz b /\ getMonth tz a = getMonth tz b.
Proof.
  unfold periodKey. split; [|intros [-> ->]; reflexivity].
  intros E. pose proof (getMonth_range tz a) as Ha. pose proof (getMonth_range tz b) as Hb.
  fold (twoDigits (getMonth tz a + 1)) (twoDigits (getMonth tz b + 1)) in E.
  apply app_inj_tail in E as [Ey Em].
  - apply numToString_inj in Ey. rewrite !app_cons, !app_empty in Em.
    injection Em as Em. apply twoDigits_inj in Em; lia.
  - rewrite !app_cons, !app_empty. cbn [String.length].
    rewrite !twoDigits_length by lia. reflexivity.
Qed.

End Zone.

End PeriodKeyProps.

(** * The weeks of a month *)

Module MonthWeekFacts.
Import Time Calendar MonthSpec CalendarFacts App WeekSpec TimeFacts MonthFacts.
Import SortFacts AppFacts PeriodFacts.

Section Zone.

Variable tz : Z.

(** The first and the last day that [groupTimeLogsByWeek] computes. *)
Lemma month_ends (ref : Z) :
  100 <= getFullYear tz ref ->
  exists first len,
    28 <= len <= 31 /\
    firstDayOfMonth tz ref = first * msPerDay - tz /\
    lastDayOfMonth tz ref = (first + len - 1) * msPerDay - tz /\
    first <= localDay tz ref <= first + len - 1 /\
    civilFromDays first = (getFullYear tz ref, getMonth tz ref + 1, 1) /\
    civilFromDays (first + len - 1) = (getFullYear tz ref, getMonth tz ref + 1, len) /\
    civilFromDays (first + len) = (carriedYear (getFullYear tz ref) (getMonth tz ref + 1),
                                   carriedMonth (getMonth tz ref + 1), 1).
Proof.
  intros Hy. pose proof (getMonth_range tz ref) as Hm.
  set (y := getFullYear tz ref) in *. set (m := getMonth tz ref) in *.
  pose proof (makeDay_length y m) as Hlen.
  pose proof (makeDay_length y (m + 1)) as Hlen'.
  exists (makeDay y m 1), (makeDay y (m + 1) 0 - makeDay y m 0).
  assert (Hquirk : (0 <=? y) && (y <=? 99) = false).
  { destruct (Z.leb_spec 0 y), (Z.leb_spec y 99); cbn [andb]; lia. }
  assert (Hcy : carriedYear y m = y).
  { unfold carriedYear. replace (m / 12) with 0 by (Z.to_euclidean_division_equations; lia).
    lia. }
  assert (Hcm : carriedMonth m = m + 1).
  { unfold carriedMonth. rewrite Z.mod_small by lia. reflexivity. }
  assert (Hdays : forall d, makeDay y m d = makeDay y m 1 + d - 1)
    by (intros d; rewrite !(makeDay_carried y m); lia).
  assert (Hnext : forall d, makeDay y (m + 1) d = makeDay y (m + 1) 1 + d - 1)
    by (intros d; rewrite !(makeDay_carried y (m + 1)); lia).
  split; [exact Hlen|].
  split; [unfold firstDayOfMonth, makeDate; fold y m; rewrite Hquirk; reflexivity|].
  split; [unfold lastDayOfMonth, makeDate; fold y m; rewrite Hquirk; f_equal; f_equal;
          rewrite (Hnext 0), (Hdays 0); lia|].
  split.
  - pose proof (civilFromDays_bounds (localDay tz ref)) as Hb.
    rewrite (civil_fields tz ref) in Hb. fold y m in Hb. destruct Hb as (_ & Hb & _).
    pose proof (firstOfNext_carried y m) as Hfn. rewrite Hcy, Hcm in Hfn.
    rewrite Hfn in Hb. rewrite (makeDay_carried y m 1), Hcy, Hcm.
    rewrite (Hnext 0), (Hdays 0). rewrite (makeDay_carried y m 1), Hcy, Hcm. lia.
  - split; [|split].
    + rewrite (civilFromDays_makeDay y m 1) by lia. rewrite Hcy, Hcm. reflexivity.
    + replace (makeDay y m 1 + (makeDay y (m + 1) 0 - makeDay y m 0) - 1)
        with (makeDay y m (makeDay y (m + 1) 0 - makeDay y m 0)) by (rewrite Hdays; lia).
      rewrite civilFromDays_makeDay by lia. rewrite Hcy, Hcm. reflexivity.
    + replace (makeDay y m 1 + (makeDay y (m + 1) 0 - makeDay y m 0))
        with (makeDay y (m + 1) 1) by (rewrite (Hnext 0), (Hdays 0); lia).
      apply civilFromDays_makeDay. lia.
Qed.

(** A strictly increasing list of numbers that are at least [g] apart spans
    at least [g] for every element after the first. *)
Lemma spaced_span (g lo hi : Z) (l : list Z) :
  0 <= g ->
  StronglySorted (fun x y => x + g <= y) l ->
  Forall (fun x => lo <= x <= hi) l ->
  l <> [] ->
  (Z.of_nat (length l) - 1) * g <= hi - lo.
Proof.
  intros Hg Hs. revert lo. induction Hs as [|x l Hs IH Hx]; intros lo Hall Hne;
    [contradiction|].
  apply List.Forall_cons_iff in Hall as [Hxr Hall]. cbn [length].
  destruct l as [|y l]; [cbn [length]; lia|].
  assert (Hall' : Forall (fun z => x + g <= z <= hi) (y :: l)).
  { rewrite List.Forall_forall in Hall, Hx |- *. intros z Hz.
    specialize (Hall z Hz). specialize (Hx z Hz). lia. }
  specialize (IH (x + g) Hall' ltac:(discriminate)). cbn [length] in IH |- *. lia.
Qed.

Lemma aligned_apart (x y : Z) :
  mondayAligned tz x -> mondayAligned tz y -> x < y -> x + 7 * msPerDay <= y.
Proof.
  intros [Hmx Hdx] [Hmy Hdy] Hlt.
  pose proof (midnight_eq tz _ Hmx) as Ex. pose proof (midnight_eq tz _ Hmy) as Ey.
  unfold getDay in Hdx, Hdy.
  destruct (aligned_grid _ _ Hdy Hdx ltac:(unfold msPerDay in *; lia)) as (i & Hi & Ei).
  unfold msPerDay in *. lia.
Qed.

Lemma sorted_apart (l : list Z) :
  StronglySorted Z.lt l -> Forall (mondayAligned tz) l ->
  StronglySorted (fun x y => x + 7 * msPerDay <= y) l.
Proof.
  induction 1 as [|x l Hs IH Hx]; intros Hall; [constructor|].
  apply List.Forall_cons_iff in Hall as [Hax Hall]. constructor; [apply IH, Hall|].
  rewrite List.Forall_forall in Hx, Hall |- *. intros y Hy.
  apply aligned_apart; [exact Hax|apply Hall, Hy|apply Hx, Hy].
Qed.

End Zone.

End MonthWeekFacts.

Module MonthWeekProps.
Import Time Calendar MonthSpec CalendarFacts App WeekSpec TimeFacts MonthFacts.
Import SortFacts AppFacts PeriodFacts MonthWeekFacts.

#[local] Opaque generatedWeeks seededWeeks firstDayOfMonth lastDayOfMonth
  setHoursZero getWeekKey toISODate.

Section Zone.

Variable tz : Z.

(** X25.  The first and the last day between which [groupTimeLogsByWeek]
    generates the weeks are the days of the month of the reference date, for
    a date in the year 100 or later: local midnights of the same year and
    month, the first with day number 1, the last 27 to 30 days later and
    followed by the first day of another month; the reference date lies
    between them. *)
Theorem month_days_of_reference (ref : Z) :
  100 <= getFullYear tz ref ->
  let first := firstDayOfMonth tz ref in
  let last := lastDayOfMonth tz ref in
  midnight tz first /\ midnight tz last /\
  getFullYear tz first = getFullYear tz ref /\ getMonth tz first = getMonth tz ref /\
  getDate tz first = 1 /\
  getFullYear tz last = getFullYear tz ref /\ getMonth tz last = getMonth tz ref /\
  last = addDays first (getDate tz last - 1) /\ 28 <= getDate tz last <= 31 /\
  getDate tz (addDays last 1) = 1 /\
  first <= setHoursZero tz ref <= last.
Proof.
  intros Hy. cbv zeta.
  destruct (month_ends tz ref Hy)
    as (first & len & Hlen & -> & -> & Href & Hfirst & Hlast & Hnext).
  rewrite <- (localDay_makeDay tz first) in Hfirst.
  rewrite <- (localDay_makeDay tz (first + len - 1)) in Hlast.
  apply (fields_civil tz) in Hfirst, Hlast.
  destruct Hfirst as (Ey & Em & Ed). destruct Hlast as (Ey' & Em' & Ed').
  assert (Hafter : addDays ((first + len - 1) * msPerDay - tz) 1
                   = (first + len) * msPerDay - tz) by (unfold addDays; lia).
  rewrite Hafter. rewrite <- (localDay_makeDay tz (first + len)) in Hnext.
  apply (fields_civil tz) in Hnext. destruct Hnext as (_ & _ & Ed'').
  rewrite Ey, Em, Ed, Ey', Em', Ed', Ed''.
  assert (Hmid : forall d, midnight tz (d * msPerDay - tz)).
  { intros d. unfold midnight. replace (d * msPerDay - tz + tz) with (d * msPerDay) by lia.
    apply Z.mod_mul. unfold msPerDay. lia. }
  split; [apply Hmid|]. split; [apply Hmid|].
  repeat (split; [lia|]). split; [unfold addDays; lia|]. split; [exact Hlen|].
  split; [reflexivity|].
  pose proof (midnight_setHoursZero tz ref) as Hm0.
  apply (midnight_eq tz) in Hm0. rewrite localDay_setHoursZero in Hm0.
  rewrite Hm0. unfold msPerDay. lia.
Qed.

End Zone.

Lemma month_days_of_reference_witness :
  getDate 0 (lastDayOfMonth 0 (Sample.utc 2024 2 10 12)) = 29 /\
  28 <= getDate 0 (lastDayOfMonth 0 (Sample.utc 2024 2 10 12)) <= 31.
Proof.
  split; [reflexivity|].
  apply (month_days_of_reference 0 (Sample.utc 2024 2 10 12)).
  vm_compute. intros E; discriminate E.
Defined.

Section Zone.

Variable tz : Z.

(** X26.  A month never shows more than six weeks, and a month whose last
    day has come shows at least four. *)
Theorem month_shows_four_to_six_weeks (timeLogs : list timelog) (ref clock : Z) :
  100 <= getFullYear tz ref ->
  let buckets := snd (groupTimeLogsByWeek tz timeLogs ref clock) in
  (length buckets <= 6)%nat /\
  (lastDayOfMonth tz ref <= setHoursZero tz clock -> (4 <= length buckets)%nat).
Proof.
  intros Hy. cbv zeta.
  rewrite (Permutation_length (buckets_perm tz timeLogs ref clock)), length_map.
  destruct (month_ends tz ref Hy) as (first & len & Hlen & Hfirst & Hlast & _).
  pose proof (generatedWeeks_sorted tz ref clock) as Hsorted.
  assert (Hall : Forall (mondayAligned tz) (generatedWeeks tz ref clock)).
  { apply List.Forall_forall. intros w Hw. apply (generatedWeeks_aligned tz ref clock w Hw). }
  split.
  - destruct (generatedWeeks tz ref clock) as [|w ws] eqn:Hws; [cbn [length]; lia|].
    assert (Hrange : Forall (fun w => firstDayOfMonth tz ref - 6 * msPerDay <= w
                                      <= lastDayOfMonth tz ref) (w :: ws)).
    { apply List.Forall_forall. intros x Hx. rewrite <- Hws in Hx.
      apply generatedWeeks_In in Hx as (_ & Hx1 & Hx2 & _). unfold addDays in Hx1. lia. }
    pose proof (spaced_span (7 * msPerDay) _ _ (w :: ws) ltac:(unfold msPerDay; lia)
                  (sorted_apart tz _ Hsorted Hall) Hrange ltac:(discriminate)) as Hspan.
    rewrite Hfirst, Hlast in Hspan. unfold msPerDay in Hspan. lia.
  - intros Hended.
    pose proof (mondayOf_bounds tz (firstDayOfMonth tz ref)) as Hb.
    pose proof (mondayOf_aligned tz (firstDayOfMonth tz ref)) as Ha.
    remember (mondayOf tz (firstDayOfMonth tz ref)) as monday eqn:Emonday. clear Emonday.
    assert (Hin : forall i, 0 <= i <= 3 ->
              In (addDays monday (7 * i)) (generatedWeeks tz ref clock)).
    { intros i Hi. apply generatedWeeks_In. destruct Ha as [Hm Hd].
      pose proof (midnight_eq tz _ Hm) as Em.
      split; [|unfold addDays; unfold msPerDay in *; lia].
      split; [apply midnight_addDays, Hm|].
      rewrite getDay_addWeeks. exact Hd. }
    assert (Hsub : [addDays monday 0; addDays monday 7; addDays monday 14; addDays monday 21]
                   ⊆+ generatedWeeks tz ref clock).
    { apply NoDup_submseteq.
      - unfold addDays, msPerDay. repeat constructor; rewrite ?elem_of_cons, ?elem_of_nil; lia.
      - intros x Hx. apply list_elem_of_In.
        repeat (apply elem_of_cons in Hx as [->|Hx]); [..|apply elem_of_nil in Hx; destruct Hx].
        + apply (Hin 0). lia.
        + apply (Hin 1). lia.
        + apply (Hin 2). lia.
        + apply (Hin 3). lia. }
    apply submseteq_length in Hsub. exact Hsub.
Qed.

End Zone.

Lemma month_shows_four_to_six_weeks_witness :
  (length (snd (groupTimeLogsByWeek 0 [] (Sample.utc 2024 2 1 0) (Sample.utc 2024 3 20 12)))
   <= 6)%nat.
Proof.
  apply (month_shows_four_to_six_weeks 0 [] (Sample.utc 2024 2 1 0) (Sample.utc 2024 3 20 12)).
  vm_compute. intros E; discriminate E.
Defined.

End MonthWeekProps.

(** * Properties of the cache store and of the date labels *)

Module StoreProps.
Import Js LocalStorage Store Spec StoreFacts.

Lemma cached_truthy key st : cached key st = JSON.Null \/ JSON.truthy (cached key st) = true.
Proof.
  unfold cached. destruct (st !! key) as [text|]; [|left; reflexivity].
  destruct (JSON.parseText text) as [v|]; [|left; reflexivity].
  unfold JSON.or_else. destruct (JSON.truthy v) eqn:E; [right; exact E|left; reflexivity].
Qed.

Lemma cached_default key (v : JSON.value) st :
  JSON.truthy v = false ->
  cached key (setItem key (JSON.stringify (JSON.or_else v (JSON.Arr []))) st) = JSON.Arr [].
Proof.
  intros Hv. unfold JSON.or_else. rewrite Hv. apply (cached_stored key [] st).
Qed.

(** X27.  The cache store and falsy values.  Storing [null], [false], 0 or
    the empty string caches the empty list; a getter never answers [false],
    0 or the empty string, it answers [null] in their place; and after a
    clear the getter answers [null] whatever was stored, while the two other
    kinds keep their values. *)
Theorem store_defaults (st : gmap string string) (v : JSON.value) (p m : string) :
  (JSON.truthy v = false ->
   getProjects (storeProjects v st) = Normal (JSON.Arr []) /\
   getIssues p (storeIssues p v st) = Normal (JSON.Arr []) /\
   getTimeLogs m (storeTimeLogs m v st) = Normal (JSON.Arr [])) /\
  (forall answer,
     getProjects st = Normal answer \/ getIssues p st = Normal answer
     \/ getTimeLogs m st = Normal answer ->
     answer = JSON.Null \/ JSON.truthy answer = true) /\
  getProjects (clearProjects (storeProjects v st)) = Normal JSON.Null /\
  getIssues p (clearProjects st) = getIssues p st /\
  getTimeLogs m (clearProjects st) = getTimeLogs m st.
Proof.
  rewrite !getProjects_cached, !getIssues_cached, !getTimeLogs_cached.
  split; [|split; [|split; [|split]]].
  - intros Hv. unfold storeProjects, storeIssues, storeTimeLogs.
    rewrite !cached_default by exact Hv. auto.
  - intros answer [[= <-]|[[= <-]|[= <-]]]; apply cached_truthy.
  - f_equal. apply cached_absent. unfold clearProjects, removeItem. apply lookup_delete_eq.
  - f_equal. apply cached_ext. unfold clearProjects, removeItem.
    apply lookup_delete_ne. intros E. symmetry in E. revert E. apply issuesKey_not_projects.
  - f_equal. apply cached_ext. unfold clearProjects, removeItem.
    apply lookup_delete_ne. intros E. symmetry in E. revert E. apply timelogsKey_not_projects.
Qed.

Lemma store_defaults_witness :
  getProjects (storeProjects JSON.Null ∅) = Normal (JSON.Arr []) /\
  getIssues "group/project" (storeIssues "group/project" JSON.Null ∅) = Normal (JSON.Arr []) /\
  getTimeLogs "2024-03" (storeTimeLogs "2024-03" JSON.Null ∅) = Normal (JSON.Arr []).
Proof.
  apply (proj1 (store_defaults ∅ JSON.Null "group/project" "2024-03")). reflexivity.
Defined.

End StoreProps.

Module UtilsProps.
Import Time Utils JSONFacts.

Lemma label_not_number (n : Z) (suffix label : string) (c : ascii) (rest : string) :
  label = String c rest -> JSON.isDigit c = false -> c <> "-"%char ->
  numToString n +:+ suffix <> label.
Proof.
  intros -> Hc Hminus E. destruct (numToString_head n) as (d & s & En & _ & Hd).
  rewrite En, app_cons in E. injection E as -> _.
  destruct Hd as [Hd| ->]; [congruence|contradiction].
Qed.

Section Zone.

Variable tz : Z.

(** X28.  The readable form of [formatDate] measures the distance in whole
    days and does not look at its direction: a date as far in the future
    reads like the date as far in the past.  It reads today exactly when the
    distance is less than a day, and yesterday exactly when it is a day or
    more and less than two; an Invalid Date gives the empty text. *)
Theorem formatDate_readable (now delta : Z) (format : option string) :
  formatDate tz (Some (now + delta)) true format now
  = formatDate tz (Some (now - delta)) true format now /\
  (formatDate tz (Some (now - delta)) true format now = "today"
   <-> Z.abs delta < msPerDay) /\
  (formatDate tz (Some (now - delta)) true format now = "yesterday"
   <-> msPerDay <= Z.abs delta < 2 * msPerDay) /\
  formatDate tz None true format now = EmptyString.
Proof.
  unfold formatDate. cbn [negb].
  replace (now - (now + delta)) with (- delta) by lia.
  replace (now - (now - delta)) with delta by lia.
  rewrite Z.abs_opp. split; [reflexivity|].
  change (1000 * 60 * 60 * 24) with msPerDay.
  assert (Hdays : 0 <= Z.abs delta / msPerDay)
    by (apply Z.div_pos; [lia|reflexivity]).
  assert (Hzero : Z.abs delta / msPerDay = 0 <-> Z.abs delta < msPerDay).
  { unfold msPerDay. Z.to_euclidean_division_equations. lia. }
  assert (Hone : Z.abs delta / msPerDay = 1 <-> msPerDay <= Z.abs delta < 2 * msPerDay).
  { unfold msPerDay. Z.to_euclidean_division_equations. lia. }
  set (diffDays := Z.abs delta / msPerDay) in *.
  split; [|split; [|reflexivity]].
  - rewrite <- Hzero. destruct (Z.eqb_spec diffDays 0) as [E|E]; [tauto|].
    split; [|tauto]. intros H. exfalso. revert H.
    destruct (diffDays =? 1); [discriminate|].
    destruct (diffDays <? 7); [|destruct (diffDays <? 30); [|destruct (diffDays <? 365)]];
      apply (label_not_number _ _ _ "t" "oday"); (reflexivity || discriminate).
  - rewrite <- Hone. destruct (Z.eqb_spec diffDays 0) as [E|E];
      [split; [discriminate|lia]|].
    destruct (Z.eqb_spec diffDays 1) as [E1|E1]; [tauto|].
    split; [|tauto]. intros H. exfalso. revert H.
    destruct (diffDays <? 7); [|destruct (diffDays <? 30); [|destruct (diffDays <? 365)]];
      apply (label_not_number _ _ _ "y" "esterday"); (reflexivity || discriminate).
Qed.

End Zone.

End UtilsProps.
